(** * Sniffy: the analyzer, the fuzzy filter and the session state machine

    A shallow embedding of [main.go] (the bubbletea program with the
    states banner, scanning, results, filter_include, filter_exclude,
    view_secret, confirm_delete and error) and the properties of its
    analyzer, its fuzzy filter and its [Update] function.

    Go strings are byte sequences: they are modelled as Stdlib strings
    (lists of 8-bit characters), read as lists of byte values where the
    source indexes or ranges over them.  Slices are lists; an index out
    of range is a run-time panic, modelled as [None].  Everything that
    lives outside the repository (the Unicode tables, the widgets of the
    bubbles library, the key messages of bubbletea, the AWS client) is
    an interface whose operations the program is parameterised by. *)

From Stdlib Require Import ZArith Ascii String Bool Lia.
From stdpp Require Import base option list strings.

Open Scope Z_scope.

(** ** Go strings as bytes, and runes *)

Module GoString.

Definition byte_val (a : ascii) : Z := Z.of_N (N_of_ascii a).

(** [[]byte(s)] *)
Definition bytes (s : string) : list Z := byte_val <$> list_ascii_of_string s.

Definition RuneError : Z := 0xFFFD.
Definition RuneSelf : Z := 0x80.

(** The table [first] / [acceptRanges] of unicode/utf8: for a leading
    byte, the length of the sequence and the range its second byte must
    lie in. *)
Definition first_info (b0 : Z) : option (nat * Z * Z) :=
  if (0xC2 <=? b0) && (b0 <=? 0xDF) then Some (2%nat, 0x80, 0xBF)
  else if b0 =? 0xE0 then Some (3%nat, 0xA0, 0xBF)
  else if (0xE1 <=? b0) && (b0 <=? 0xEC) then Some (3%nat, 0x80, 0xBF)
  else if b0 =? 0xED then Some (3%nat, 0x80, 0x9F)
  else if (0xEE <=? b0) && (b0 <=? 0xEF) then Some (3%nat, 0x80, 0xBF)
  else if b0 =? 0xF0 then Some (4%nat, 0x90, 0xBF)
  else if (0xF1 <=? b0) && (b0 <=? 0xF3) then Some (4%nat, 0x80, 0xBF)
  else if b0 =? 0xF4 then Some (4%nat, 0x80, 0x8F)
  else None.

Definition in_range (lo hi b : Z) : bool := (lo <=? b) && (b <=? hi).

(** [utf8.DecodeRuneInString]: the rune at the head of [p] and its width
    in bytes; an invalid or truncated sequence is [RuneError] of width 1. *)
Definition DecodeRune (p : list Z) : Z * nat :=
  match p with
  | [] => (RuneError, 0%nat)
  | b0 :: p1 =>
      if b0 <? RuneSelf then (b0, 1%nat)
      else
        match first_info b0, p1 with
        | Some (sz, lo, hi), b1 :: p2 =>
            if negb (in_range lo hi b1) then (RuneError, 1%nat)
            else if (sz =? 2)%nat then
              (Z.lor (Z.shiftl (Z.land b0 0x1F) 6) (Z.land b1 0x3F), 2%nat)
            else
              match p2 with
              | b2 :: p3 =>
                  if negb (in_range 0x80 0xBF b2) then (RuneError, 1%nat)
                  else if (sz =? 3)%nat then
                    (Z.lor (Z.lor (Z.shiftl (Z.land b0 0x0F) 12)
                                  (Z.shiftl (Z.land b1 0x3F) 6))
                           (Z.land b2 0x3F), 3%nat)
                  else
                    match p3 with
                    | b3 :: _ =>
                        if negb (in_range 0x80 0xBF b3) then (RuneError, 1%nat)
                        else
                          (Z.lor (Z.lor (Z.lor (Z.shiftl (Z.land b0 0x07) 18)
                                               (Z.shiftl (Z.land b1 0x3F) 12))
                                        (Z.shiftl (Z.land b2 0x3F) 6))
                                 (Z.land b3 0x3F), 4%nat)
                    | [] => (RuneError, 1%nat)
                    end
              | [] => (RuneError, 1%nat)
              end
        | _, _ => (RuneError, 1%nat)
        end
  end.

(** [for _, c := range s]: the runes of [s] in order.  Every step
    consumes at least one byte, so [length p] steps always suffice. *)
Fixpoint runes_from (steps : nat) (p : list Z) : list Z :=
  match steps, p with
  | S steps', _ :: _ =>
      let '(r, w) := DecodeRune p in r :: runes_from steps' (drop w p)
  | _, _ => []
  end.

Definition runes (p : list Z) : list Z := runes_from (length p) p.

(** [utf8.AppendRune]: surrogates and values outside Unicode are written
    as [RuneError]. *)
Definition EncodeRune (r : Z) : list Z :=
  if in_range 0 0x7F r then [r]
  else if in_range 0x80 0x7FF r then
    [Z.lor 0xC0 (Z.shiftr r 6); Z.lor 0x80 (Z.land r 0x3F)]
  else if (r <? 0) || (0x10FFFF <? r) || in_range 0xD800 0xDFFF r then
    [0xEF; 0xBF; 0xBD]
  else if r <=? 0xFFFF then
    [Z.lor 0xE0 (Z.shiftr r 12); Z.lor 0x80 (Z.land (Z.shiftr r 6) 0x3F);
     Z.lor 0x80 (Z.land r 0x3F)]
  else
    [Z.lor 0xF0 (Z.shiftr r 18); Z.lor 0x80 (Z.land (Z.shiftr r 12) 0x3F);
     Z.lor 0x80 (Z.land (Z.shiftr r 6) 0x3F); Z.lor 0x80 (Z.land r 0x3F)].

(** [strings.Map]: every rune is mapped and written back; a negative
    result drops the rune. *)
Definition Map (mapping : Z -> Z) (p : list Z) : list Z :=
  r ← runes p; (if mapping r <? 0 then [] else EncodeRune (mapping r)).

Definition isASCII (p : list Z) : bool := forallb (fun c => c <? RuneSelf) p.
Definition isUpperASCII (c : Z) : bool := in_range 65 90 c.
Definition hasUpper (p : list Z) : bool := existsb isUpperASCII p.
Definition lowerASCII (c : Z) : Z := if isUpperASCII c then c + 32 else c.

(** The Unicode case table is not part of the repository. *)
Class Unicode := { unicode_ToLower : Z -> Z }.

(** [strings.ToLower], with its fast path for ASCII-only strings. *)
Definition ToLower `{Unicode} (p : list Z) : list Z :=
  if isASCII p then (if hasUpper p then lowerASCII <$> p else p)
  else Map unicode_ToLower p.

End GoString.

Import GoString.

(** ** The fuzzy match (main.go, isFuzzyMatch) *)

(** The inner loop [for ; i < len(target); i++]: [rest] is [target[i:]];
    the result is the index after the byte equal to [c], if there is one. *)
Fixpoint scan (rest : list Z) (i : nat) (c : Z) : option nat :=
  match rest with
  | [] => None
  | b :: rest' => if b =? c then Some (S i) else scan rest' (S i) c
  end.

(** The outer loop [for _, c := range query], with [i] kept across
    iterations. *)
Fixpoint match_from (target : list Z) (i : nat) (query : list Z) : bool :=
  match query with
  | [] => true
  | c :: query' =>
      match scan (drop i target) i c with
      | Some i' => match_from target i' query'
      | None => false
      end
  end.

Definition isFuzzyMatch `{Unicode} (query target : string) : bool :=
  let query := ToLower (bytes query) in
  let target := ToLower (bytes target) in
  match_from target 0 (runes query).

(** ** Errors *)

(** A Go [(value, error)] pair: the error is carried as its text. *)
Inductive result (A : Type) : Type :=
| Ok (a : A)
| Err (msg : string).
Arguments Ok {A} a.
Arguments Err {A} msg.

Definition newline : string := String "010" "".
Definition check_mark : string := String "226" (String "156" (String "148" "")).

Definition streq (a b : string) : bool := String.eqb a b.
Infix "==" := streq (at level 70, no associativity).

(** ** The secret source and the analyzer *)

(** [types.SecretListEntry] of the AWS SDK, as far as the program reads
    it; times are nanoseconds since the epoch. *)
Record SecretListEntry := {
  aws_Name : option string;
  aws_CreatedDate : option Z;
  aws_LastAccessedDate : option Z
}.

Record SecretEntry := {
  entry_Name : string;
  entry_CreatedDate : Z;
  entry_LastAccessedDate : option Z
}.

Record SecretResult := {
  Name : string;
  LastAccessed : string
}.

#[global] Instance SecretResult_eq_dec : EqDecision SecretResult.
Proof. solve_decision. Defined.

Record VersionInfo := {
  VersionId : string;
  v_CreatedDate : string;
  v_LastAccessed : string;
  Stages : string;
  Value : string;
  Revealed : bool
}.

(** [strings.HasSuffix] *)
Definition HasSuffix (s suffix : string) : bool :=
  let n := String.length s in
  let k := String.length suffix in
  (k <=? n)%nat && (String.substring (n - k) k s == suffix).

(** The body of the page loop of [ListSecrets]: entries without a name,
    with the configuration suffix or without a creation date are left
    out. *)
Definition list_entry (secret : SecretListEntry) : option SecretEntry :=
  match aws_Name secret with
  | Some name =>
      if negb (HasSuffix name "-configuration") then
        match aws_CreatedDate secret with
        | None => None
        | Some created =>
            Some {| entry_Name := name; entry_CreatedDate := created;
                    entry_LastAccessedDate := aws_LastAccessedDate secret |}
        end
      else None
  | None => None
  end.

(** [ListSecrets]: the pages of the paginator in order, each one the
    page or the error of [NextPage]. *)
Fixpoint ListSecrets_pages (pages : list (result (list SecretListEntry)))
    (secrets : list SecretEntry) : result (list SecretEntry) :=
  match pages with
  | [] => Ok secrets
  | Err e :: _ => Err ("failed to list secrets: " +:+ e)
  | Ok page :: pages' =>
      ListSecrets_pages pages' (secrets ++ omap list_entry page)
  end.

Definition ListSecrets (pages : list (result (list SecretListEntry)))
  : result (list SecretEntry) := ListSecrets_pages pages [].

Definition recentThresholdDays : Z := 14.

(** One hour and one day, as [time.Duration] (nanoseconds). *)
Definition Hour : Z := 3600 * 1000000000.
Definition Day : Z := 24 * Hour.

(** [int(d.Hours() / 24)]: the whole days in [d]; the conversion to
    [int] drops the fraction (rounds toward zero).  The float64 in
    between is modelled by the exact quotient; around the threshold of
    14 days the two agree, the hours being far below the size at which
    a float64 sum rounds up to the next whole hour. *)
Definition whole_days (d : Z) : Z := Z.quot d Day.

(** Formatting of dates belongs to the Go library. *)
Class TimeFormat := { Format_date : Z -> string }.

Section Analyzer.
Context `{TimeFormat}.

(** [time.Since(t)] with the clock reading [now]. *)
Definition Since (now t : Z) : Z := now - t.

(** The staleness age of an entry in days, as the loop computes it. *)
Definition daysSinceAccess (now : Z) (entry : SecretEntry) : Z :=
  let createdDays := whole_days (Since now (entry_CreatedDate entry)) in
  match entry_LastAccessedDate entry with
  | Some t => whole_days (Since now t)
  | None => createdDays
  end.

Definition lastAccessedStr (entry : SecretEntry) : string :=
  match entry_LastAccessedDate entry with
  | Some t => Format_date t
  | None => "Never"
  end.

(** The body of the loop of [AnalyzeSecrets]. *)
Definition analyze_entry (now : Z) (applyFilter : bool)
    (results : list SecretResult) (entry : SecretEntry) : list SecretResult :=
  if applyFilter && (daysSinceAccess now entry <=? recentThresholdDays)
  then results
  else results ++ [{| Name := entry_Name entry;
                      LastAccessed := lastAccessedStr entry |}].

(** [AnalyzeSecrets], given what [ListSecrets] returned and the clock. *)
Definition AnalyzeSecrets (listing : result (list SecretEntry)) (now : Z)
    (applyFilter : bool) : result (list SecretResult) :=
  match listing with
  | Err e => Err ("failed to fetch AWS secrets: " +:+ e)
  | Ok secrets =>
      if (length secrets =? 0)%nat then Ok []
      else Ok (foldl (analyze_entry now applyFilter) [] secrets)
  end.

End Analyzer.

(** ** The interfaces of the libraries the program is built on *)

Abbreviation Row := (list string).

(** bubbletea's key messages and the widgets of bubbles. *)
Class Bubbles := {
  KeyMsg : Type;
  key_String : KeyMsg -> string;
  WidgetCmd : Type;
  Table : Type;
  table_New : Table;
  table_Cursor : Table -> Z;
  table_Rows : Table -> list Row;
  table_SetRows : list Row -> Table -> Table;
  table_SetCursor : Z -> Table -> Table;
  table_Update : KeyMsg -> Table -> Table * WidgetCmd;
  TextInput : Type;
  input_New : TextInput;
  input_Value : TextInput -> string;
  input_Reset : TextInput -> TextInput;
  input_Focus : TextInput -> TextInput;
  input_Update : KeyMsg -> TextInput -> TextInput * WidgetCmd;
  Spinner : Type;
  spinner_New : Spinner;
  TickMsg : Type;
  spinner_Tick : Spinner -> WidgetCmd;
  spinner_Update : TickMsg -> Spinner -> Spinner * WidgetCmd;
  Progress : Type;
  progress_New : Progress;
  FrameMsg : Type;
  progress_Update : FrameMsg -> Progress -> Progress * WidgetCmd
}.

(** The clipboard and [fmt.Errorf] applied to a format without operands. *)
Class Host := {
  clipboard_WriteAll : string -> bool;
  fmt_Errorf : string -> string
}.

(** The AWS client: a delete call changes the store and may fail. *)
Class SecretsClient := {
  Store : Type;
  client_DeleteSecret : string -> Store -> Store * option string
}.

Inductive State :=
| StBanner | StScanning | StResults | StFilterInclude | StFilterExclude
| StViewSecret | StConfirmDelete | StError.

#[global] Instance State_eq_dec : EqDecision State.
Proof. solve_decision. Defined.

Definition is_filter_state (s : State) : bool :=
  match s with StFilterInclude | StFilterExclude => true | _ => false end.

(** ** The model and its update function *)

Section Program.
Context `{Unicode, Bubbles, Host}.

(** The [model] struct.  [analyzer] tells whether the analyzer pointer
    is non-nil.  [selectedShared] is not a field of the source: it
    records that [selected] and [originalSelected] are the same slice
    (after [m.selected = m.originalSelected]), so that a write through
    one shows in the other. *)
Record model := Model {
  state : State;
  spinner : Spinner;
  progress : Progress;
  table : Table;
  versionTable : Table;
  filterInput : TextInput;
  scanning : bool;
  results : list SecretResult;
  baseResults : list SecretResult;
  originalResults : list SecretResult;
  selected : list bool;
  originalSelected : list bool;
  selectedShared : bool;
  analyzer : bool;
  currentScanStep : string;
  err : option string;
  viewingSecret : string;
  versions : list VersionInfo;
  confirmDelete : bool;
  deleteError : string;
  copiedMessage : string;
  lastCursorPos : Z;
  filterMode : string;
  filtered : bool;
  hasFilter : bool
}.

Definition set_state (v : State) (m : model) : model :=
  Model v (spinner m) (progress m) (table m) (versionTable m)
    (filterInput m) (scanning m) (results m) (baseResults m)
    (originalResults m) (selected m) (originalSelected m) (selectedShared m)
    (analyzer m) (currentScanStep m) (err m) (viewingSecret m) (versions m)
    (confirmDelete m) (deleteError m) (copiedMessage m) (lastCursorPos m)
    (filterMode m) (filtered m) (hasFilter m).
Definition set_spinner (v : Spinner) (m : model) : model :=
  Model (state m) v (progress m) (table m) (versionTable m) (filterInput m)
    (scanning m) (results m) (baseResults m) (originalResults m)
    (selected m) (originalSelected m) (selectedShared m) (analyzer m)
    (currentScanStep m) (err m) (viewingSecret m) (versions m)
    (confirmDelete m) (deleteError m) (copiedMessage m) (lastCursorPos m)
    (filterMode m) (filtered m) (hasFilter m).
Definition set_progress (v : Progress) (m : model) : model :=
  Model (state m) (spinner m) v (table m) (versionTable m) (filterInput m)
    (scanning m) (results m) (baseResults m) (originalResults m)
    (selected m) (originalSelected m) (selectedShared m) (analyzer m)
    (currentScanStep m) (err m) (viewingSecret m) (versions m)
    (confirmDelete m) (deleteError m) (copiedMessage m) (lastCursorPos m)
    (filterMode m) (filtered m) (hasFilter m).
Definition set_table (v : Table) (m : model) : model :=
  Model (state m) (spinner m) (progress m) v (versionTable m)
    (filterInput m) (scanning m) (results m) (baseResults m)
    (originalResults m) (selected m) (originalSelected m) (selectedShared m)
    (analyzer m) (currentScanStep m) (err m) (viewingSecret m) (versions m)
    (confirmDelete m) (deleteError m) (copiedMessage m) (lastCursorPos m)
    (filterMode m) (filtered m) (hasFilter m).
Definition set_versionTable (v : Table) (m : model) : model :=
  Model (state m) (spinner m) (progress m) (table m) v (filterInput m)
    (scanning m) (results m) (baseResults m) (originalResults m)
    (selected m) (originalSelected m) (selectedShared m) (analyzer m)
    (currentScanStep m) (err m) (viewingSecret m) (versions m)
    (confirmDelete m) (deleteError m) (copiedMessage m) (lastCursorPos m)
    (filterMode m) (filtered m) (hasFilter m).
Definition set_filterInput (v : TextInput) (m : model) : model :=
  Model (state m) (spinner m) (progress m) (table m) (versionTable m) v
    (scanning m) (results m) (baseResults m) (originalResults m)
    (selected m) (originalSelected m) (selectedShared m) (analyzer m)
    (currentScanStep m) (err m) (viewingSecret m) (versions m)
    (confirmDelete m) (deleteError m) (copiedMessage m) (lastCursorPos m)
    (filterMode m) (filtered m) (hasFilter m).
Definition set_scanning (v : bool) (m : model) : model :=
  Model (state m) (spinner m) (progress m) (table m) (versionTable m)
    (filterInput m) v (results m) (baseResults m) (originalResults m)
    (selected m) (originalSelected m) (selectedShared m) (analyzer m)
    (currentScanStep m) (err m) (viewingSecret m) (versions m)
    (confirmDelete m) (deleteError m) (copiedMessage m) (lastCursorPos m)
    (filterMode m) (filtered m) (hasFilter m).
Definition set_results (v : list SecretResult) (m : model) : model :=
  Model (state m) (spinner m) (progress m) (table m) (versionTable m)
    (filterInput m) (scanning m) v (baseResults m) (originalResults m)
    (selected m) (originalSelected m) (selectedShared m) (analyzer m)
    (currentScanStep m) (err m) (viewingSecret m) (versions m)
    (confirmDelete m) (deleteError m) (copiedMessage m) (lastCursorPos m)
    (filterMode m) (filtered m) (hasFilter m).
Definition set_baseResults (v : list SecretResult) (m : model) : model :=
  Model (state m) (spinner m) (progress m) (table m) (versionTable m)
    (filterInput m) (scanning m) (results m) v (originalResults m)
    (selected m) (originalSelected m) (selectedShared m) (analyzer m)
    (currentScanStep m) (err m) (viewingSecret m) (versions m)
    (confirmDelete m) (deleteError m) (copiedMessage m) (lastCursorPos m)
    (filterMode m) (filtered m) (hasFilter m).
Definition set_originalResults (v : list SecretResult) (m : model) : model :=
  Model (state m) (spinner m) (progress m) (table m) (versionTable m)
    (filterInput m) (scanning m) (results m) (baseResults m) v (selected m)
    (originalSelected m) (selectedShared m) (analyzer m) (currentScanStep m)
    (err m) (viewingSecret m) (versions m) (confirmDelete m) (deleteError m)
    (copiedMessage m) (lastCursorPos m) (filterMode m) (filtered m)
    (hasFilter m).
Definition set_selected (v : list bool) (m : model) : model :=
  Model (state m) (spinner m) (progress m) (table m) (versionTable m)
    (filterInput m) (scanning m) (results m) (baseResults m)
    (originalResults m) v (originalSelected m) (selectedShared m)
    (analyzer m) (currentScanStep m) (err m) (viewingSecret m) (versions m)
    (confirmDelete m) (deleteError m) (copiedMessage m) (lastCursorPos m)
    (filterMode m) (filtered m) (hasFilter m).
Definition set_originalSelected (v : list bool) (m : model) : model :=
  Model (state m) (spinner m) (progress m) (table m) (versionTable m)
    (filterInput m) (scanning m) (results m) (baseResults m)
    (originalResults m) (selected m) v (selectedShared m) (analyzer m)
    (currentScanStep m) (err m) (viewingSecret m) (versions m)
    (confirmDelete m) (deleteError m) (copiedMessage m) (lastCursorPos m)
    (filterMode m) (filtered m) (hasFilter m).
Definition set_selectedShared (v : bool) (m : model) : model :=
  Model (state m) (spinner m) (progress m) (table m) (versionTable m)
    (filterInput m) (scanning m) (results m) (baseResults m)
    (originalResults m) (selected m) (originalSelected m) v (analyzer m)
    (currentScanStep m) (err m) (viewingSecret m) (versions m)
    (confirmDelete m) (deleteError m) (copiedMessage m) (lastCursorPos m)
    (filterMode m) (filtered m) (hasFilter m).
Definition set_currentScanStep (v : string) (m : model) : model :=
  Model (state m) (spinner m) (progress m) (table m) (versionTable m)
    (filterInput m) (scanning m) (results m) (baseResults m)
    (originalResults m) (selected m) (originalSelected m) (selectedShared m)
    (analyzer m) v (err m) (viewingSecret m) (versions m) (confirmDelete m)
    (deleteError m) (copiedMessage m) (lastCursorPos m) (filterMode m)
    (filtered m) (hasFilter m).
Definition set_err (v : option string) (m : model) : model :=
  Model (state m) (spinner m) (progress m) (table m) (versionTable m)
    (filterInput m) (scanning m) (results m) (baseResults m)
    (originalResults m) (selected m) (originalSelected m) (selectedShared m)
    (analyzer m) (currentScanStep m) v (viewingSecret m) (versions m)
    (confirmDelete m) (deleteError m) (copiedMessage m) (lastCursorPos m)
    (filterMode m) (filtered m) (hasFilter m).
Definition set_viewingSecret (v : string) (m : model) : model :=
  Model (state m) (spinner m) (progress m) (table m) (versionTable m)
    (filterInput m) (scanning m) (results m) (baseResults m)
    (originalResults m) (selected m) (originalSelected m) (selectedShared m)
    (analyzer m) (currentScanStep m) (err m) v (versions m)
    (confirmDelete m) (deleteError m) (copiedMessage m) (lastCursorPos m)
    (filterMode m) (filtered m) (hasFilter m).
Definition set_versions (v : list VersionInfo) (m : model) : model :=
  Model (state m) (spinner m) (progress m) (table m) (versionTable m)
    (filterInput m) (scanning m) (results m) (baseResults m)
    (originalResults m) (selected m) (originalSelected m) (selectedShared m)
    (analyzer m) (currentScanStep m) (err m) (viewingSecret m) v
    (confirmDelete m) (deleteError m) (copiedMessage m) (lastCursorPos m)
    (filterMode m) (filtered m) (hasFilter m).
Definition set_confirmDelete (v : bool) (m : model) : model :=
  Model (state m) (spinner m) (progress m) (table m) (versionTable m)
    (filterInput m) (scanning m) (results m) (baseResults m)
    (originalResults m) (selected m) (originalSelected m) (selectedShared m)
    (analyzer m) (currentScanStep m) (err m) (viewingSecret m) (versions m)
    v (deleteError m) (copiedMessage m) (lastCursorPos m) (filterMode m)
    (filtered m) (hasFilter m).
Definition set_deleteError (v : string) (m : model) : model :=
  Model (state m) (spinner m) (progress m) (table m) (versionTable m)
    (filterInput m) (scanning m) (results m) (baseResults m)
    (originalResults m) (selected m) (originalSelected m) (selectedShared m)
    (analyzer m) (currentScanStep m) (err m) (viewingSecret m) (versions m)
    (confirmDelete m) v (copiedMessage m) (lastCursorPos m) (filterMode m)
    (filtered m) (hasFilter m).
Definition set_copiedMessage (v : string) (m : model) : model :=
  Model (state m) (spinner m) (progress m) (table m) (versionTable m)
    (filterInput m) (scanning m) (results m) (baseResults m)
    (originalResults m) (selected m) (originalSelected m) (selectedShared m)
    (analyzer m) (currentScanStep m) (err m) (viewingSecret m) (versions m)
    (confirmDelete m) (deleteError m) v (lastCursorPos m) (filterMode m)
    (filtered m) (hasFilter m).
Definition set_lastCursorPos (v : Z) (m : model) : model :=
  Model (state m) (spinner m) (progress m) (table m) (versionTable m)
    (filterInput m) (scanning m) (results m) (baseResults m)
    (originalResults m) (selected m) (originalSelected m) (selectedShared m)
    (analyzer m) (currentScanStep m) (err m) (viewingSecret m) (versions m)
    (confirmDelete m) (deleteError m) (copiedMessage m) v (filterMode m)
    (filtered m) (hasFilter m).
Definition set_filtered (v : bool) (m : model) : model :=
  Model (state m) (spinner m) (progress m) (table m) (versionTable m)
    (filterInput m) (scanning m) (results m) (baseResults m)
    (originalResults m) (selected m) (originalSelected m) (selectedShared m)
    (analyzer m) (currentScanStep m) (err m) (viewingSecret m) (versions m)
    (confirmDelete m) (deleteError m) (copiedMessage m) (lastCursorPos m)
    (filterMode m) v (hasFilter m).
Definition set_hasFilter (v : bool) (m : model) : model :=
  Model (state m) (spinner m) (progress m) (table m) (versionTable m)
    (filterInput m) (scanning m) (results m) (baseResults m) (originalResults
    m) (selected m) (originalSelected m) (selectedShared m) (analyzer m)
    (currentScanStep m) (err m) (viewingSecret m) (versions m) (confirmDelete
    m) (deleteError m) (copiedMessage m) (lastCursorPos m) (filterMode m)
    (filtered m) v.

(** A [tea.Cmd].  A closure holds a copy of the model struct; the slices
    in the copy share their arrays with the model the program goes on
    with.  The one array that is written in place is the selection
    mask; what the delete command reads from it is modelled by
    [Deleting] below. *)
Inductive Cmd :=
| CmdNil
| CmdQuit
| CmdTickStartScan
| CmdTickClearCopied
| CmdStartRealScan (m : model)
| CmdFetchVersions (m : model)
| CmdRevealValue (m : model) (index : Z)
| CmdPerformDelete (m : model)
| CmdBatch (c1 c2 : Cmd)
| CmdWidget (c : WidgetCmd).

Inductive Msg :=
| keyMsg (msg : KeyMsg)
| startScanMsg
| analysisCompleteMsg (results : list SecretResult) (err : option string)
| versionsFetchedMsg (versions : list VersionInfo) (err : option string)
| valueRevealedMsg (index : Z) (value : string) (err : option string)
| deleteCompleteMsg (err : option string)
| clearCopiedMsg
| spinnerTickMsg (msg : TickMsg)
| progressFrameMsg (msg : FrameMsg)
| otherMsg.

Definition initialModel (analyzerErr : option string) : model :=
  {| state := StBanner; spinner := spinner_New; progress := progress_New;
     table := table_New; versionTable := table_New;
     filterInput := input_New; scanning := false;
     results := []; baseResults := []; originalResults := [];
     selected := []; originalSelected := []; selectedShared := false;
     analyzer := match analyzerErr with None => true | Some _ => false end;
     currentScanStep := "Ready to scan"; err := analyzerErr;
     viewingSecret := ""; versions := []; confirmDelete := false;
     deleteError := ""; copiedMessage := ""; lastCursorPos := 0;
     filterMode := ""; filtered := true; hasFilter := false |}.

(** [make([]bool, n)] *)
Definition make_bools (n : nat) : list bool := replicate n false.

(** [cursor >= 0 && cursor < n] *)
Definition in_bounds (cursor : Z) (n : nat) : bool :=
  (0 <=? cursor) && (cursor <? Z.of_nat n).

Definition formatResults (m : model) : list Row :=
  imap (fun i result =>
          [ (if bool_decide (i < length (selected m))%nat
                && default false (selected m !! i)
             then check_mark else " ");
            Name result; LastAccessed result ]) (results m).

Definition formatVersions (m : model) : list Row :=
  (fun v => [VersionId v; v_CreatedDate v; v_LastAccessed v; Stages v; Value v])
    <$> versions m.

(** The preview loop of the filter states. *)
Definition previewFilter (st : State) (filter_text : string)
    (originalResults : list SecretResult) : list SecretResult :=
  foldl (fun tempResults res =>
           let match_ := isFuzzyMatch filter_text (Name res) in
           if (bool_decide (st = StFilterInclude) && match_)
              || (bool_decide (st = StFilterExclude) && negb match_)
           then tempResults ++ [res] else tempResults)
        [] originalResults.

(** The loop [for _, sel := range m.selected] of the delete request. *)
Definition hasSelected (selected : list bool) : bool := existsb id selected.

(** The branch [key == " "] of the results state: the write
    [rows[cursor][0] = check] panics when the table has no such cell. *)
Definition toggle_selection (m : model) : option model :=
  let cursor := table_Cursor (table m) in
  if in_bounds cursor (length (selected m)) then
    let i := Z.to_nat cursor in
    sel ← selected m !! i;
    let m := set_selected (<[i := negb sel]> (selected m)) m in
    let m := if selectedShared m then set_originalSelected (selected m) m
             else m in
    let rows := table_Rows (table m) in
    let check := if negb sel then check_mark else " " in
    row ← rows !! i;
    match row with
    | [] => None
    | _ :: cells =>
        let rows := <[i := check :: cells]> rows in
        let m := set_table (table_SetRows rows (table m)) m in
        Some (set_table (table_SetCursor cursor (table m)) m)
    end
  else Some m.

(** The branch [key == "enter"] of the results state; [None] when it
    does not return. *)
Definition open_secret (m : model) : option (model * Cmd) :=
  let cursor := table_Cursor (table m) in
  if in_bounds cursor (length (results m)) then
    result ← results m !! Z.to_nat cursor;
    let m := set_lastCursorPos cursor m in
    let m := set_viewingSecret (Name result) m in
    let m := set_state StViewSecret m in
    Some (m, CmdFetchVersions m)
  else None.

(** The branch [key == "D"] of the results state. *)
Definition request_delete (m : model) : model :=
  if hasSelected (selected m) then
    set_state StConfirmDelete (set_confirmDelete true m)
  else m.

(** The branch [key == "y"] of the results state; [None] when it does
    not return. *)
Definition copy_name (m : model) : option (model * Cmd) :=
  let cursor := table_Cursor (table m) in
  if in_bounds cursor (length (results m)) then
    result ← results m !! Z.to_nat cursor;
    if clipboard_WriteAll (Name result) then
      Some (set_copiedMessage "Copied secret name to clipboard" m,
            CmdTickClearCopied)
    else None
  else None.

(** The branches [key == "/"] and [key == "?"]: both slices are copied. *)
Definition open_filter (st : State) (m : model) : model :=
  let m := set_state st m in
  let m := set_originalResults (results m) m in
  let m := set_originalSelected (selected m) m in
  let m := set_selectedShared false m in
  let m := set_filterInput (input_Reset (filterInput m)) m in
  set_filterInput (input_Focus (filterInput m)) m.

(** The branch [key == "esc"] of the results state. *)
Definition clear_filter (m : model) : model :=
  if hasFilter m then
    let m := set_results (baseResults m) m in
    let m := set_selected (make_bools (length (results m))) m in
    let m := set_selectedShared false m in
    let m := set_table (table_SetRows (formatResults m) (table m)) m in
    set_hasFilter false m
  else m.

Definition rescan (filtered : bool) (m : model) : model * Cmd :=
  let m := set_filtered filtered m in
  let m := set_state StBanner m in
  let m := set_scanning false m in
  (m, CmdTickStartScan).

Definition update_results (m : model) (msg : KeyMsg) (key : string)
  : option (model * Cmd) :=
  if key == "r" then Some (rescan true m)
  else if key == "R" then Some (rescan false m)
  else
    match (if key == "enter" then open_secret m else None) with
    | Some returned => Some returned
    | None =>
        m ← (if key == " " then toggle_selection m else Some m);
        let m := if key == "D" then request_delete m else m in
        match (if key == "y" then copy_name m else None) with
        | Some returned => Some returned
        | None =>
            if key == "/" then Some (open_filter StFilterInclude m, CmdNil)
            else if key == "?" then Some (open_filter StFilterExclude m, CmdNil)
            else
              let m := if key == "esc" then clear_filter m else m in
              let '(t, cmd) := table_Update msg (table m) in
              Some (set_table t m, CmdWidget cmd)
        end
    end.

Definition update_confirm_delete (m : model) (key : string) : model * Cmd :=
  if key == "y" then
    let m := set_confirmDelete false m in (m, CmdPerformDelete m)
  else if (key == "n") || (key == "esc") then
    let m := set_confirmDelete false m in
    let m := set_state StResults m in
    (set_deleteError "" m, CmdNil)
  else (m, CmdNil).

Definition update_filter (m : model) (msg : KeyMsg) (key : string)
  : model * Cmd :=
  let '(input, cmd) := input_Update msg (filterInput m) in
  let m := set_filterInput input m in
  let filter_text := input_Value (filterInput m) in
  let tempResults := previewFilter (state m) filter_text (originalResults m) in
  let m := set_results tempResults m in
  let m := set_selected (make_bools (length (results m))) m in
  let m := set_selectedShared false m in
  let m := set_table (table_SetRows (formatResults m) (table m)) m in
  if key == "esc" then
    let m := set_results (originalResults m) m in
    let m := set_selected (originalSelected m) m in
    let m := set_selectedShared true m in
    let m := set_table (table_SetRows (formatResults m) (table m)) m in
    (set_state StResults m, CmdNil)
  else if key == "enter" then
    let m := set_hasFilter true m in
    (set_state StResults m, CmdNil)
  else (m, CmdWidget cmd).

Definition update_view_secret (m : model) (msg : KeyMsg) (key : string)
  : model * Cmd :=
  if key == "esc" then
    let m := set_state StResults m in
    let m := set_viewingSecret "" m in
    let m := set_versions [] m in
    (set_table (table_SetCursor (lastCursorPos m) (table m)) m, CmdNil)
  else
    let cursor := table_Cursor (versionTable m) in
    if (key == "r") && in_bounds cursor (length (versions m))
       && negb (default true (Revealed <$> versions m !! Z.to_nat cursor))
    then (m, CmdRevealValue m cursor)
    else if (key == "y") && clipboard_WriteAll (viewingSecret m) then
      (set_copiedMessage "Copied secret name to clipboard" m,
       CmdTickClearCopied)
    else
      let '(t, cmd) := table_Update msg (versionTable m) in
      (set_versionTable t m, CmdWidget cmd).

Definition update_key (m : model) (msg : KeyMsg) : option (model * Cmd) :=
  let key := key_String msg in
  if (key == "q") || (key == "ctrl+c") then Some (m, CmdQuit)
  else
    match state m with
    | StConfirmDelete => Some (update_confirm_delete m key)
    | StFilterInclude | StFilterExclude => Some (update_filter m msg key)
    | StViewSecret => Some (update_view_secret m msg key)
    | StResults => update_results m msg key
    | _ => Some (m, CmdNil)
    end.

(** The loop of the [deleteCompleteMsg] case: the records that are not
    selected, in order, and a mask entry [false] for each;
    [m.results[i]] panics when the mask is longer than the results. *)
Fixpoint remove_selected (results : list SecretResult) (i : nat)
    (sels : list bool) (newResults : list SecretResult)
    (newSelected : list bool) : option (list SecretResult * list bool) :=
  match sels with
  | [] => Some (newResults, newSelected)
  | sel :: sels' =>
      if negb sel then
        result ← results !! i;
        remove_selected results (S i) sels' (newResults ++ [result])
                        (newSelected ++ [false])
      else remove_selected results (S i) sels' newResults newSelected
  end.

Definition update_deleteComplete (m : model) (err : option string)
  : option model :=
  match err with
  | Some e => Some (set_state StResults (set_deleteError e m))
  | None =>
      '(newResults, newSelected) ←
        remove_selected (results m) 0 (selected m) [] [];
      let m := set_results newResults m in
      let m := set_baseResults newResults m in
      let m := set_selected newSelected m in
      let m := set_selectedShared false m in
      let m := set_table (table_SetRows (formatResults m) (table m)) m in
      Some (set_state StResults m)
  end.

Definition update_analysisComplete (m : model)
    (msg_results : list SecretResult) (msg_err : option string) : model :=
  let m := set_scanning false m in
  let m := set_state StResults m in
  let m := set_baseResults msg_results m in
  let m := set_results msg_results m in
  let m := set_err msg_err m in
  match err m with
  | None =>
      let m := set_selected (make_bools (length (results m))) m in
      let m := set_selectedShared false m in
      let m := set_table (table_SetRows (formatResults m) (table m)) m in
      set_hasFilter false m
  | Some _ => m
  end.

(** [m.versions[msg.index].Value = msg.value] and the like. *)
Definition reveal_version (v : VersionInfo) (value : string) : VersionInfo :=
  {| VersionId := VersionId v; v_CreatedDate := v_CreatedDate v;
     v_LastAccessed := v_LastAccessed v; Stages := Stages v;
     Value := value; Revealed := true |}.

Definition Update (m : model) (msg : Msg) : option (model * Cmd) :=
  match msg with
  | keyMsg msg => update_key m msg
  | startScanMsg =>
      if negb (analyzer m) then Some (set_state StError m, CmdNil)
      else
        let m := set_state StScanning m in
        let m := set_scanning true m in
        let m := set_currentScanStep
                   "Connecting to AWS and analyzing secrets..." m in
        Some (m, CmdBatch (CmdWidget (spinner_Tick (spinner m)))
                          (CmdStartRealScan m))
  | analysisCompleteMsg msg_results msg_err =>
      Some (update_analysisComplete m msg_results msg_err, CmdNil)
  | versionsFetchedMsg msg_versions msg_err =>
      match msg_err with
      | Some e => Some (set_state StResults (set_err (Some e) m), CmdNil)
      | None =>
          let m := set_versions msg_versions m in
          Some (set_versionTable
                  (table_SetRows (formatVersions m) (versionTable m)) m,
                CmdNil)
      end
  | valueRevealedMsg index value msg_err =>
      match msg_err with
      | Some e => Some (set_err (Some e) m, CmdNil)
      | None =>
          if in_bounds index (length (versions m)) then
            v ← versions m !! Z.to_nat index;
            let m := set_versions
                       (<[Z.to_nat index := reveal_version v value]>
                          (versions m)) m in
            Some (set_versionTable
                    (table_SetRows (formatVersions m) (versionTable m)) m,
                  CmdNil)
          else None
      end
  | deleteCompleteMsg msg_err =>
      m ← update_deleteComplete m msg_err; Some (m, CmdNil)
  | clearCopiedMsg => Some (set_copiedMessage "" m, CmdNil)
  | spinnerTickMsg msg =>
      let '(s, cmd) := spinner_Update msg (spinner m) in
      Some (set_spinner s m, CmdWidget cmd)
  | progressFrameMsg msg =>
      let '(p, cmd) := progress_Update msg (progress m) in
      Some (set_progress p m, CmdWidget cmd)
  | otherMsg => Some (m, CmdNil)
  end.

(** The program's run: messages are handled one at a time, in order. *)
Fixpoint run (m : model) (msgs : list Msg) : option model :=
  match msgs with
  | [] => Some m
  | msg :: msgs' => '(m', _) ← Update m msg; run m' msgs'
  end.

(** The models the program can be in. *)
Inductive reachable : model -> Prop :=
| reachable_init analyzerErr : reachable (initialModel analyzerErr)
| reachable_step m msg m' cmd :
    reachable m -> Update m msg = Some (m', cmd) -> reachable m'.

(** ** The delete command *)

Section DeleteCommand.
Context `{SecretsClient}.

(** [AWSSecretsManager.DeleteSecret]: the client's error is wrapped. *)
Definition DeleteSecret (secretName : string) (store : Store)
  : Store * option string :=
  match client_DeleteSecret secretName store with
  | (store', Some e) =>
      (store', Some ("failed to delete secret " +:+ secretName +:+ ": " +:+ e))
  | (store', None) => (store', None)
  end.

(** The body of the loop of [performDelete] at index [i], where the
    loop reads the mask entry [sel]: the store and the text collected
    in [errStr] after it; [None] when [m.results[i]] panics. *)
Definition performDelete_body (results : list SecretResult) (i : nat)
    (sel : bool) (store : Store) (errStr : string)
  : option (Store * string) :=
  if sel then
    result ← results !! i;
    match DeleteSecret (Name result) store with
    | (store', Some e) =>
        Some (store', errStr +:+ Name result +:+ ": " +:+ e +:+ newline)
    | (store', None) => Some (store', errStr)
    end
  else Some (store, errStr).

(** The message [performDelete] returns after its loop. *)
Definition delete_completion (errStr : string) : Msg :=
  if (0 <? String.length errStr)%nat
  then deleteCompleteMsg (Some (fmt_Errorf errStr))
  else deleteCompleteMsg None.

(** The program while a delete command runs.  The command runs beside
    the program: between two iterations of its loop the program may
    handle messages.  The closure holds a copy of the model, so its
    [m.results] and [m.selected] are slices sharing their arrays with
    the model [live] the program goes on with.  No array of results is
    ever written in place.  The mask is: the selection key writes
    [m.selected[cursor]], and the loop [range m.selected], which fixes
    the length when it starts, reads each entry when it gets there.
    [cmd_mask] is the array the command ranges over; [live_selected]
    and [live_original] tell whether [selected] and [originalSelected]
    of the live model still are that array. *)
Record Deleting := {
  live : model;
  live_selected : bool;
  live_original : bool;
  cmd_mask : list bool;
  cmd_results : list SecretResult;
  cmd_next : nat;
  cmd_errStr : string;
  cmd_store : Store
}.

(** The command as issued by the model [m] (its closure holds [m]). *)
Definition start_delete (m : model) (store : Store) : Deleting :=
  {| live := m; live_selected := true; live_original := selectedShared m;
     cmd_mask := selected m; cmd_results := results m;
     cmd_next := 0; cmd_errStr := ""; cmd_store := store |}.

(** One thing that happens while the command runs: the program handles
    a message, or the command runs one iteration of its loop. *)
Inductive Event :=
| Handle (msg : Msg)
| Iterate.

(** Which of [selected] and [originalSelected] is the array of the
    command after the model [m] handled [msg]: [make] and the loop of
    the completion give [selected] a new array, opening a filter gives
    [originalSelected] a copy, and escape in a filter state assigns
    [originalSelected] to [selected]. *)
Definition relink (m : model) (msg : Msg) (sel orig : bool) : bool * bool :=
  match msg with
  | keyMsg k =>
      let key := key_String k in
      if (key == "q") || (key == "ctrl+c") then (sel, orig)
      else
        match state m with
        | StFilterInclude | StFilterExclude =>
            if key == "esc" then (orig, orig) else (false, orig)
        | StResults =>
            if (key == "/") || (key == "?") then (sel, false)
            else if (key == "esc") && hasFilter m then (false, orig)
            else (sel, orig)
        | _ => (sel, orig)
        end
  | analysisCompleteMsg _ None => (false, orig)
  | deleteCompleteMsg None => (false, orig)
  | _ => (sel, orig)
  end.

(** The array of the command after the model [m] handled [msg]: the
    selection key of the results state writes the entry under the
    cursor when [selected] is that array. *)
Definition write_mask (m : model) (msg : Msg) (sel : bool)
    (mask : list bool) : list bool :=
  match msg with
  | keyMsg k =>
      let key := key_String k in
      let cursor := table_Cursor (table m) in
      if sel && negb ((key == "q") || (key == "ctrl+c"))
         && bool_decide (state m = StResults) && (key == " ")
         && in_bounds cursor (length (selected m))
      then alter negb (Z.to_nat cursor) mask
      else mask
  | _ => mask
  end.

(** A step of the program and the command; [None] when the program or
    the command panics, or the loop of the command is over. *)
Definition deleting_step (s : Deleting) (ev : Event) : option Deleting :=
  match ev with
  | Handle msg =>
      '(m', _) ← Update (live s) msg;
      let links := relink (live s) msg (live_selected s) (live_original s) in
      Some {| live := m'; live_selected := links.1; live_original := links.2;
              cmd_mask := write_mask (live s) msg (live_selected s)
                            (cmd_mask s);
              cmd_results := cmd_results s; cmd_next := cmd_next s;
              cmd_errStr := cmd_errStr s; cmd_store := cmd_store s |}
  | Iterate =>
      sel ← cmd_mask s !! cmd_next s;
      '(store', errStr') ←
        performDelete_body (cmd_results s) (cmd_next s) sel (cmd_store s)
          (cmd_errStr s);
      Some {| live := live s; live_selected := live_selected s;
              live_original := live_original s; cmd_mask := cmd_mask s;
              cmd_results := cmd_results s; cmd_next := S (cmd_next s);
              cmd_errStr := errStr'; cmd_store := store' |}
  end.

Fixpoint deleting_run (s : Deleting) (events : list Event)
  : option Deleting :=
  match events with
  | [] => Some s
  | ev :: events' => s' ← deleting_step s ev; deleting_run s' events'
  end.

(** The message of the command once its loop is over. *)
Definition completion (s : Deleting) : option Msg :=
  if (cmd_next s <? length (cmd_mask s))%nat then None
  else Some (delete_completion (cmd_errStr s)).

(** The command returned by [performDelete], issued by the model [m]
    and run to its end while the program handles no message: the store
    after it and the message it delivers. *)
Definition performDelete (m : model) (store : Store) : option (Store * Msg) :=
  s ← deleting_run (start_delete m store)
        (replicate (length (selected m)) Iterate);
  msg ← completion s;
  Some (cmd_store s, msg).

End DeleteCommand.

End Program.

Arguments Update : simpl never.
Arguments run : simpl never.
Arguments update_key : simpl never.
Arguments update_results : simpl never.
Arguments update_filter : simpl never.
Arguments update_view_secret : simpl never.
Arguments update_confirm_delete : simpl never.
Arguments update_deleteComplete : simpl never.
Arguments update_analysisComplete : simpl never.
Arguments toggle_selection : simpl never.
Arguments open_secret : simpl never.
Arguments request_delete : simpl never.
Arguments copy_name : simpl never.
Arguments open_filter : simpl never.
Arguments clear_filter : simpl never.
Arguments rescan : simpl never.
Arguments in_bounds : simpl never.
Arguments formatResults : simpl never.
Arguments formatVersions : simpl never.
Arguments previewFilter : simpl never.
Arguments make_bools : simpl never.
Arguments relink : simpl never.
Arguments write_mask : simpl never.

(** ** The shape of a step in the results state *)

Section ResultsActions.
Context `{Unicode, Bubbles, Host}.

(** What a key does to the model in the results state, the table
    widget's own reaction to the key aside. *)
Inductive results_action (m : model) : model -> Prop :=
| act_none : results_action m m
| act_rescan filtered : results_action m (rescan filtered m).1
| act_open_secret m' cmd :
    open_secret m = Some (m', cmd) -> results_action m m'
| act_toggle m' : toggle_selection m = Some m' -> results_action m m'
| act_request_delete : results_action m (request_delete m)
| act_copy_name m' cmd : copy_name m = Some (m', cmd) -> results_action m m'
| act_open_filter st :
    is_filter_state st = true -> results_action m (open_filter st m)
| act_clear_filter : results_action m (clear_filter m).

End ResultsActions.

(** ** Notions the properties are stated with *)

(** The record the analyzer reports for an entry. *)
Definition to_result `{TimeFormat} (entry : SecretEntry) : SecretResult :=
  {| Name := entry_Name entry; LastAccessed := lastAccessedStr entry |}.

(** The elapsed time, in nanoseconds, since the last access of an entry
    or, when it was never accessed, since its creation. *)
Definition elapsed_age (now : Z) (entry : SecretEntry) : Z :=
  match entry_LastAccessedDate entry with
  | Some t => Since now t
  | None => Since now (entry_CreatedDate entry)
  end.

(** An entry the recency filter keeps. *)
Definition stale (now : Z) (entry : SecretEntry) : Prop :=
  recentThresholdDays < daysSinceAccess now entry.

#[global] Instance stale_dec now entry : Decision (stale now entry).
Proof. unfold stale. apply _. Defined.

(** The characters of a string after lowercasing, as the program sees
    them: the runes of a query, the bytes of a target. *)
Definition lower_runes `{Unicode} (s : string) : list Z :=
  runes (ToLower (bytes s)).
Definition lower_bytes `{Unicode} (s : string) : list Z := ToLower (bytes s).

Definition ascii_only (s : string) : Prop := isASCII (bytes s) = true.

(** The records a filter keeps, by mode. *)
Definition keeps `{Unicode} (st : State) (filter_text : string)
    (res : SecretResult) : bool :=
  (bool_decide (st = StFilterInclude) && isFuzzyMatch filter_text (Name res))
  || (bool_decide (st = StFilterExclude)
      && negb (isFuzzyMatch filter_text (Name res))).

(** A key that neither quits nor ends a filter session. *)
Definition filter_key `{Bubbles} (msg : KeyMsg) : bool :=
  negb ((key_String msg == "q") || (key_String msg == "ctrl+c")
        || (key_String msg == "esc") || (key_String msg == "enter")).

(** The mask agrees in length with the results it is about. *)
Definition mask_aligned `{Unicode, Bubbles, Host} (m : model) : Prop :=
  length (selected m) = length (results m).

(** The mask agrees with the results and, during a filter session, the
    saved mask with the saved results. *)
Definition aligned `{Unicode, Bubbles, Host} (m : model) : Prop :=
  mask_aligned m
  /\ (is_filter_state (state m) = true ->
      length (originalSelected m) = length (originalResults m)).

(** A message other than the completion of a scan that failed. *)
Definition not_failed_scan `{Unicode, Bubbles, Host} (msg : Msg) : Prop :=
  match msg with
  | analysisCompleteMsg _ (Some _) => False
  | _ => True
  end.



(** The records whose mask entry is [b], in order. *)
Definition marked (b : bool) (results : list SecretResult)
    (mask : list bool) : list SecretResult :=
  (List.filter (fun p => Bool.eqb p.2 b) (zip results mask)).*1.

(** The delete calls of a batch, in order, each with its outcome, and
    the store after them. *)
Fixpoint delete_calls `{SecretsClient} (names : list string) (store : Store)
  : list (string * option string) * Store :=
  match names with
  | [] => ([], store)
  | name :: names' =>
      let '(store', outcome) := DeleteSecret name store in
      let '(calls, store'') := delete_calls names' store' in
      ((name, outcome) :: calls, store'')
  end.

(** The calls that failed, with their errors. *)
Definition failures (calls : list (string * option string))
  : list (string * string) :=
  omap (fun call => match call.2 with
                    | Some e => Some (call.1, e)
                    | None => None
                    end) calls.

(** One line per failure: the name of the record and the error. *)
Definition failure_text (failed : list (string * string)) : string :=
  foldr (fun f text => f.1 +:+ ": " +:+ f.2 +:+ newline +:+ text) "" failed.

(** The text contains the character. *)
Definition has_char (c : ascii) (s : string) : bool :=
  existsb (Ascii.eqb c) (list_ascii_of_string s).

(** Nothing is listed: the sets and the mask are empty (and, during a
    filter session, so is the snapshot), and no delete is being
    confirmed. *)
Definition no_records `{Unicode, Bubbles, Host} (m : model) : Prop :=
  results m = [] /\ baseResults m = [] /\ selected m = []
  /\ (is_filter_state (state m) = true ->
      originalResults m = [] /\ originalSelected m = [])
  /\ state m <> StConfirmDelete.

(** A message that is not the completion of a scan that found records. *)
Definition brings_no_records `{Unicode, Bubbles, Host} (msg : Msg) : Prop :=
  match msg with
  | analysisCompleteMsg msg_results _ => msg_results = []
  | _ => True
  end.

(** ** A reference instance of the interfaces

    Small stand-ins for the libraries, on which the model runs: a key is
    a run of typed characters or a named key; the table keeps a cursor
    and its rows; the text input appends what is typed. *)

Module Ref.

(** Lowercasing of the letters of ASCII and Latin-1; other runes are
    left as they are. *)
Definition latin1_ToLower (r : Z) : Z :=
  if in_range 65 90 r || (in_range 0xC0 0xDE r && negb (r =? 0xD7))
  then r + 32 else r.

#[export] Instance unicode : Unicode := {| unicode_ToLower := latin1_ToLower |}.

(** Dates are not rendered: every date prints the same. *)
#[export] Instance time_format : TimeFormat :=
  {| Format_date := fun _ => "(date)" |}.

Inductive Key :=
| Runes (typed : string) (alt : bool)
| Special (name : string).

Definition Key_String (k : Key) : string :=
  match k with
  | Runes typed alt => if alt then "alt+" +:+ typed else typed
  | Special name => name
  end.

Record TableModel := { cursor : Z; rows : list Row }.

Definition clamp (v low high : Z) : Z := Z.min (Z.max v low) high.

Definition SetCursor (n : Z) (t : TableModel) : TableModel :=
  {| cursor := clamp n 0 (Z.of_nat (length (rows t)) - 1); rows := rows t |}.

Definition SetRows (r : list Row) (t : TableModel) : TableModel :=
  {| cursor := cursor t; rows := r |}.

Definition TableUpdate (k : Key) (t : TableModel) : TableModel * unit :=
  let key := Key_String k in
  if (key == "up") || (key == "k") then (SetCursor (cursor t - 1) t, tt)
  else if (key == "down") || (key == "j") then (SetCursor (cursor t + 1) t, tt)
  else (t, tt).

Definition drop_last (s : string) : string :=
  String.substring 0 (String.length s - 1) s.

Definition InputUpdate (k : Key) (value : string) : string * unit :=
  match k with
  | Runes typed _ => (value +:+ typed, tt)
  | Special name => if name == "backspace" then (drop_last value, tt)
                    else (value, tt)
  end.

#[export] Instance bubbles : Bubbles := {|
  KeyMsg := Key; key_String := Key_String; WidgetCmd := unit;
  Table := TableModel; table_New := {| cursor := 0; rows := [] |};
  table_Cursor := cursor; table_Rows := rows;
  table_SetRows := SetRows; table_SetCursor := SetCursor;
  table_Update := TableUpdate;
  TextInput := string; input_New := ""; input_Value := fun v => v;
  input_Reset := fun _ => ""; input_Focus := fun v => v;
  input_Update := InputUpdate;
  Spinner := unit; spinner_New := tt; TickMsg := unit;
  spinner_Tick := fun _ => tt; spinner_Update := fun _ s => (s, tt);
  Progress := unit; progress_New := tt; FrameMsg := unit;
  progress_Update := fun _ p => (p, tt)
|}.

#[export] Instance host : Host :=
  {| clipboard_WriteAll := fun _ => true; fmt_Errorf := fun text => text |}.

(** A store that refuses to delete the names it holds. *)
#[export] Instance client : SecretsClient := {|
  Store := list string;
  client_DeleteSecret := fun name denied =>
    (denied, if bool_decide (name ∈ denied)
             then Some "AccessDeniedException" else None)
|}.

(** An entry created at time 0 and never accessed. *)
Definition never_accessed : SecretEntry :=
  {| entry_Name := "db-password"; entry_CreatedDate := 0;
     entry_LastAccessedDate := None |}.


(** The letter e with an acute accent, U+00E9, in UTF-8. *)
Definition e_acute : string := String "195" (String "169" "").

Definition secret (name : string) : SecretResult :=
  {| Name := name; LastAccessed := "Never" |}.

(** A model in the results state showing [rs] with mask [sel]. *)
Definition showing (rs base : list SecretResult) (sel : list bool) : model :=
  let m := set_state StResults (initialModel None) in
  let m := set_results rs m in
  let m := set_baseResults base m in
  let m := set_selected sel m in
  set_table (SetRows (formatResults m) (table m)) m.

(** Five rows, the second one selected. *)
Definition five_rows_second_selected : model :=
  let rs := secret <$> ["alpha"; "beta"; "gamma"; "delta"; "epsilon"] in
  showing rs rs [false; true; false; false; false].

(** Five rows, none selected, the cursor on the second. *)
Definition five_rows_cursor_second : model :=
  let rs := secret <$> ["alpha"; "beta"; "gamma"; "delta"; "epsilon"] in
  let m := showing rs rs [false; false; false; false; false] in
  set_table (SetCursor 1 (table m)) m.

(** A filter session (include mode) just opened on three records. *)
Definition filtering_three : model :=
  let rs := secret <$> ["prod/db"; "dev/db"; "prod/api"] in
  open_filter StFilterInclude (showing rs rs [false; false; false]).

Definition key (typed : string) : Msg := keyMsg (Runes typed false).
Definition special (name : string) : Msg := keyMsg (Special name).

(** The model after a first scan found one record, the record was
    selected and a delete was requested. *)
Definition confirming : model :=
  default (initialModel None)
    (run (initialModel None)
         [startScanMsg; analysisCompleteMsg [secret "prod/db"] None;
          special " "; key "D"]).

(** A filter session in which the five characters of "quota" arrive in
    one key message (a paste). *)
Definition typed_quota : model :=
  default (initialModel None)
    (run (initialModel None)
         [startScanMsg; analysisCompleteMsg [secret "quota-service"] None;
          key "/"; keyMsg (Runes "quota" false)]).

(** Three records, the first two selected, the delete being confirmed. *)
Definition three_two_selected : model :=
  let rs := secret <$> ["alpha"; "beta"; "gamma"] in
  set_confirmDelete true
    (set_state StConfirmDelete (showing rs rs [true; true; false])).

(** A store that refuses to delete "beta". *)
Definition beta_denied : Store := ["beta"].

(** Three records scanned, the filter "dev" committed, the one record
    it shows selected, and the delete confirmed with "y". *)
Definition deleting_filtered : model :=
  default (initialModel None)
    (run (initialModel None)
         [startScanMsg;
          analysisCompleteMsg (secret <$> ["prod/db"; "dev/db"; "prod/api"])
                              None;
          key "/"; key "dev"; special "enter"; special " "; key "D"; key "y"]).

(** A scan found one record; the rescan failed. *)
Definition failed_rescan_msgs : list Msg :=
  [startScanMsg; analysisCompleteMsg [secret "prod/db"] None; key "r";
   startScanMsg; analysisCompleteMsg [] (Some "failed to fetch AWS secrets")].

Definition after_failed_rescan : model :=
  default (initialModel None) (run (initialModel None) failed_rescan_msgs).

(** The model after a scan that found nothing. *)
Definition empty_scan : model :=
  update_analysisComplete (initialModel None) [] None.

(** Keys pressed after it: select, delete, a cancelled filter, delete. *)
Definition keys_after_empty_scan : list Msg :=
  [special " "; key "D"; key "/"; key "x"; special "esc"; key "D"].

Definition after_empty_scan : model :=
  default empty_scan (run empty_scan keys_after_empty_scan).

End Ref.

(** ** The commands that read the secret source *)

(** [types.SecretVersionsListEntry] of the AWS SDK, as far as the
    program reads it. *)
Record SecretVersionsListEntry := {
  ver_VersionId : option string;
  ver_CreatedDate : option Z;
  ver_LastAccessedDate : option Z;
  ver_VersionStages : list string
}.

(** The read calls of the AWS client: the pages of the version listing
    of a secret, each one the page or the error of [NextPage], and the
    value of a version, whose [SecretString] may be nil. *)
Class SecretsReader := {
  client_ListSecretVersionIds :
    string -> list (result (list SecretVersionsListEntry));
  client_GetSecretValue : string -> string -> result (option string)
}.

(** The layout "2006-01-02 15:04" of the Go library. *)
Class DateTimeFormat := { Format_minutes : Z -> string }.

(** [strings.Join] *)
Fixpoint Join (elems : list string) (sep : string) : string :=
  match elems with
  | [] => ""
  | [e] => e
  | e :: rest => e +:+ sep +:+ Join rest sep
  end.

Definition masked : string := "********".

Section Commands.
Context `{Unicode, Bubbles, Host, TimeFormat, DateTimeFormat, SecretsReader}.

(** The page loop of [ListSecretVersions]. *)
Fixpoint ListSecretVersions_pages
    (pages : list (result (list SecretVersionsListEntry)))
    (versions : list SecretVersionsListEntry)
  : result (list SecretVersionsListEntry) :=
  match pages with
  | [] => Ok versions
  | Err e :: _ => Err ("failed to list secret versions: " +:+ e)
  | Ok page :: pages' => ListSecretVersions_pages pages' (versions ++ page)
  end.

Definition ListSecretVersions (secretName : string)
  : result (list SecretVersionsListEntry) :=
  ListSecretVersions_pages (client_ListSecretVersionIds secretName) [].

(** The body of the loop of [fetchVersions]; [*v.VersionId] panics on a
    nil pointer. *)
Definition version_info (v : SecretVersionsListEntry) : option VersionInfo :=
  id ← ver_VersionId v;
  Some {| VersionId := id;
          v_CreatedDate := match ver_CreatedDate v with
                           | Some t => Format_minutes t
                           | None => ""
                           end;
          v_LastAccessed := match ver_LastAccessedDate v with
                            | Some t => Format_date t
                            | None => "Never"
                            end;
          Stages := Join (ver_VersionStages v) ", ";
          Value := masked;
          Revealed := false |}.

(** The command returned by [fetchVersions], run on the model it
    captured: the message it delivers; a nil analyzer panics. *)
Definition fetchVersions (m : model) : option Msg :=
  if analyzer m then
    match ListSecretVersions (viewingSecret m) with
    | Err e => Some (versionsFetchedMsg [] (Some e))
    | Ok versionsRaw =>
        versions ← mapM version_info versionsRaw;
        Some (versionsFetchedMsg versions None)
    end
  else None.

(** [AWSSecretsManager.GetSecretValue]; [*output.SecretString] panics
    when the secret has no string value. *)
Definition GetSecretValue (secretName versionId : string)
  : option (result string) :=
  match client_GetSecretValue secretName versionId with
  | Err e => Some (Err ("failed to get secret value: " +:+ e))
  | Ok (Some secretString) => Some (Ok secretString)
  | Ok None => None
  end.

(** The command returned by [revealValue]; a nil analyzer and an index
    off the versions panic. *)
Definition revealValue (m : model) (index : Z) : option Msg :=
  if analyzer m && in_bounds index (length (versions m)) then
    v ← versions m !! Z.to_nat index;
    fetched ← GetSecretValue (viewingSecret m) (VersionId v);
    match fetched with
    | Err e => Some (valueRevealedMsg index "" (Some e))
    | Ok value => Some (valueRevealedMsg index value None)
    end
  else None.

(** The command returned by [startRealScan], given the pages the
    listing yields and the clock; a nil analyzer panics. *)
Definition startRealScan (m : model)
    (pages : list (result (list SecretListEntry))) (now : Z) : option Msg :=
  if analyzer m then
    match AnalyzeSecrets (ListSecrets pages) now (filtered m) with
    | Ok results => Some (analysisCompleteMsg results None)
    | Err e => Some (analysisCompleteMsg [] (Some e))
    end
  else None.

End Commands.

(** ** More notions the properties are stated with *)

(** The table shows the current results and mask. *)
Definition rendered `{Unicode, Bubbles, Host} (m : model) : Prop :=
  table_Rows (table m) = formatResults m.

(** What the program expects of the table widget: it keeps the rows it
    is given, and moving the cursor or handling a key leaves them. *)
Definition table_keeps_rows `{Bubbles} : Prop :=
  table_Rows table_New = []
  /\ (forall rows t, table_Rows (table_SetRows rows t) = rows)
  /\ (forall cursor t, table_Rows (table_SetCursor cursor t) = table_Rows t)
  /\ (forall k t, table_Rows (table_Update k t).1 = table_Rows t).

(** A version of the detail view as fetched: masked and not revealed. *)
Definition is_masked (v : VersionInfo) : Prop :=
  Value v = masked /\ Revealed v = false.

(** A state in which keys other than the quit keys do nothing. *)
Definition idle_state (s : State) : bool :=
  match s with StBanner | StScanning | StError => true | _ => false end.

Definition quit_key `{Bubbles} (k : KeyMsg) : bool :=
  (key_String k == "q") || (key_String k == "ctrl+c").

(** ** More of the reference instance *)

Module RefMore.
Import Ref.

(** A key message of typed characters, and a named key. *)
Definition typed (chars : string) : KeyMsg := Runes chars false.
Definition named (name : string) : KeyMsg := Special name.

#[export] Instance datetime_format : DateTimeFormat :=
  {| Format_minutes := fun _ => "(date and time)" |}.

(** Every secret has the same two versions; the value of the version
    "v-denied" cannot be read and the version "v-binary" has no string
    value. *)
Definition two_versions : list SecretVersionsListEntry :=
  [ {| ver_VersionId := Some "v-current"; ver_CreatedDate := Some 0;
       ver_LastAccessedDate := None;
       ver_VersionStages := ["AWSCURRENT"] |};
    {| ver_VersionId := Some "v-denied"; ver_CreatedDate := None;
       ver_LastAccessedDate := Some 0;
       ver_VersionStages := ["AWSPREVIOUS"; "old"] |} ].

#[export] Instance reader : SecretsReader := {|
  client_ListSecretVersionIds := fun name =>
    if name == "gone" then [Err "ResourceNotFoundException"]
    else [Ok two_versions];
  client_GetSecretValue := fun name versionId =>
    if versionId == "v-denied" then Err "AccessDeniedException"
    else if versionId == "v-binary" then Ok None
    else Ok (Some ("value of " +:+ versionId))
|}.

(** A page of the secret listing: two secrets, a configuration secret
    and an entry without creation date. *)
Definition one_page : list SecretListEntry :=
  [ {| aws_Name := Some "db-password"; aws_CreatedDate := Some 0;
       aws_LastAccessedDate := None |};
    {| aws_Name := Some "app-configuration"; aws_CreatedDate := Some 0;
       aws_LastAccessedDate := None |};
    {| aws_Name := Some "api-key"; aws_CreatedDate := Some 0;
       aws_LastAccessedDate := Some (19 * Day) |};
    {| aws_Name := Some "half-made"; aws_CreatedDate := None;
       aws_LastAccessedDate := None |} ].

(** The first of the two versions as fetched. *)
Definition version_current : VersionInfo :=
  {| VersionId := "v-current"; v_CreatedDate := "(date and time)";
     v_LastAccessed := "Never"; Stages := "AWSCURRENT";
     Value := masked; Revealed := false |}.

(** The detail view of "prod/db" with its two versions as fetched. *)
Definition viewing_versions : model :=
  let rs := secret <$> ["prod/db"; "dev/db"] in
  let m := showing rs rs [false; false] in
  let m := set_state StViewSecret (set_viewingSecret "prod/db" m) in
  set_versions (default [] (mapM version_info two_versions)) m.

(** The same view after the first version was revealed. *)
Definition viewing_revealed : model :=
  set_versions
    (((fun v => reveal_version v "value of v-current")
        <$> take 1 (versions viewing_versions))
     ++ drop 1 (versions viewing_versions))
    viewing_versions.

(** The results with the cursor on "gone", whose versions cannot be
    listed. *)
Definition viewing_gone : model :=
  set_viewingSecret "gone" viewing_versions.




End RefMore.

(** * The first version of the program *)

(** The file opens with the first version of the program: one table of
    all the secrets, sorted by last access, with a selection flag on
    each secret and a confirmation before the forced deletion.  Times
    are instants, as in the analyzer. *)

Module Legacy.

Record Secret := {
  Name : string;
  Description : string;
  LastAccessed : option Z;
  CreatedDate : option Z;
  Selected : bool
}.

Definition set_Selected (b : bool) (s : Secret) : Secret :=
  {| Name := Name s; Description := Description s;
     LastAccessed := LastAccessed s; CreatedDate := CreatedDate s;
     Selected := b |}.

(** [Time.Before]. *)
Definition Before (t u : Z) : bool := t <? u.

(** The function given to [sort.Slice] in [loadSecrets]; [None] when it
    does not return: an index out of range, or a secret without
    creation date where the creation dates are compared. *)
Definition less (secrets : list Secret) (i j : nat) : option bool :=
  si ← secrets !! i;
  sj ← secrets !! j;
  match LastAccessed si, LastAccessed sj with
  | None, None =>
      ci ← CreatedDate si;
      cj ← CreatedDate sj;
      Some (Before ci cj)
  | None, Some _ => Some false
  | Some _, None => Some true
  | Some ti, Some tj => Some (Before ti tj)
  end.

(** The delete call of the AWS client with its two inputs, the secret
    and [ForceDeleteWithoutRecovery]. *)
Class DeleteAPI := {
  Vault : Type;
  api_DeleteSecret : string -> bool -> Vault -> Vault * option string
}.

(** The cursor moves of the table, and the table [setupTable] makes. *)
Class TableMoves `{Bubbles} := {
  table_New5 : Table;
  table_MoveUp : Z -> Table -> Table;
  table_MoveDown : Z -> Table -> Table
}.

Section Program.
Context `{Bubbles, !TableMoves, TimeFormat, DeleteAPI}.

Record model := {
  secrets : list Secret;
  table : Table;
  loading : bool;
  err : option string;
  confirmed : bool;
  deleting : bool;
  deleted : list string
}.

Definition set_secrets (v : list Secret) (m : model) : model :=
  {| secrets := v; table := table m; loading := loading m; err := err m;
     confirmed := confirmed m; deleting := deleting m;
     deleted := deleted m |}.

Definition set_table (v : Table) (m : model) : model :=
  {| secrets := secrets m; table := v; loading := loading m; err := err m;
     confirmed := confirmed m; deleting := deleting m;
     deleted := deleted m |}.

Definition set_loading (v : bool) (m : model) : model :=
  {| secrets := secrets m; table := table m; loading := v; err := err m;
     confirmed := confirmed m; deleting := deleting m;
     deleted := deleted m |}.

Definition set_err (v : option string) (m : model) : model :=
  {| secrets := secrets m; table := table m; loading := loading m; err := v;
     confirmed := confirmed m; deleting := deleting m;
     deleted := deleted m |}.

Definition set_confirmed (v : bool) (m : model) : model :=
  {| secrets := secrets m; table := table m; loading := loading m;
     err := err m; confirmed := v; deleting := deleting m;
     deleted := deleted m |}.

Definition set_deleting (v : bool) (m : model) : model :=
  {| secrets := secrets m; table := table m; loading := loading m;
     err := err m; confirmed := confirmed m; deleting := v;
     deleted := deleted m |}.

Definition set_deleted (v : list string) (m : model) : model :=
  {| secrets := secrets m; table := table m; loading := loading m;
     err := err m; confirmed := confirmed m; deleting := deleting m;
     deleted := v |}.

Record keyMap := {
  Up : list string;
  Down : list string;
  Select : list string;
  Delete : list string;
  Confirm : list string;
  Quit : list string
}.

(** The keys of the bindings; the help texts are left out. *)
Definition keys : keyMap :=
  {| Up := ["up"; "k"]; Down := ["down"; "j"]; Select := [" "; "enter"];
     Delete := ["d"]; Confirm := ["y"]; Quit := ["q"; "ctrl+c"] |}.

(** [key.Matches] on a binding that is enabled: the text of the key is
    one of the keys of the binding. *)
Definition Matches (msg : KeyMsg) (binding : list string) : bool :=
  existsb (fun v => key_String msg == v) binding.

Inductive Cmd :=
| CmdNil
| CmdQuit
| CmdDeleteSelected (m : model).

Inductive Msg :=
| keyMsg (msg : KeyMsg)
| secretsLoadedMsg (secrets : list Secret)
| deleteCompleteMsg (deleted : list string)
| errMsg (err : string)
| otherMsg.

Definition selected_mark : string := "[" +:+ String "195" (String "151" "]").

(** The body of the loop of [updateTable]. *)
Definition table_row (secret : Secret) : Row :=
  let selected := if Selected secret then selected_mark else "[ ]" in
  let lastAccessed := match LastAccessed secret with
                      | Some t => Format_date t
                      | None => "Never"
                      end in
  let created := match CreatedDate secret with
                 | Some t => Format_date t
                 | None => ""
                 end in
  let description := Description secret in
  let description :=
    if (47 <? String.length description)%nat
    then String.substring 0 47 description +:+ "..."
    else description in
  [selected; Name secret; description; lastAccessed; created].

Definition updateTable (m : model) : model :=
  set_table (table_SetRows (table_row <$> secrets m) (table m)) m.

Definition setupTable (m : model) : model :=
  updateTable (set_table table_New5 m).

Definition getSelectedSecrets (m : model) : list Secret :=
  List.filter Selected (secrets m).

(** The branch of the selection keys; [None] when the cursor of the
    table is no index of the secrets. *)
Definition toggle_selected (m : model) : option model :=
  if (0 <? length (secrets m))%nat then
    let idx := table_Cursor (table m) in
    if in_bounds idx (length (secrets m)) then
      secret ← secrets m !! Z.to_nat idx;
      let secret := set_Selected (negb (Selected secret)) secret in
      Some (updateTable (set_secrets (<[Z.to_nat idx := secret]> (secrets m))
                           m))
    else None
  else Some m.

(** The last [switch] of the key case, on the bindings. *)
Definition update_bindings (m : model) (msg : KeyMsg) : option (model * Cmd) :=
  if Matches msg (Quit keys) then Some (m, CmdQuit)
  else if Matches msg (Select keys) then
    m ← toggle_selected m; Some (m, CmdNil)
  else if Matches msg (Delete keys) then
    let selected := getSelectedSecrets m in
    if (0 <? length selected)%nat then Some (set_confirmed true m, CmdNil)
    else Some (m, CmdNil)
  else if Matches msg (Up keys) then
    Some (set_table (table_MoveUp 1 (table m)) m, CmdNil)
  else if Matches msg (Down keys) then
    Some (set_table (table_MoveDown 1 (table m)) m, CmdNil)
  else Some (m, CmdNil).

Definition update_key (m : model) (msg : KeyMsg) : option (model * Cmd) :=
  let key := key_String msg in
  if loading m then
    if (key == "ctrl+c") || (key == "q") then Some (m, CmdQuit)
    else Some (m, CmdNil)
  else if confirmed m && negb (deleting m) && (key == "y") then
    let m := set_deleting true m in
    Some (m, CmdDeleteSelected m)
  else if confirmed m && negb (deleting m)
          && ((key == "n") || (key == "q") || (key == "ctrl+c")) then
    Some (set_confirmed false m, CmdNil)
  else if deleting m then
    if (key == "q") || (key == "ctrl+c") then Some (m, CmdQuit)
    else Some (m, CmdNil)
  else update_bindings m msg.

(** [Update]; [None] when it does not return. *)
Definition Update (m : model) (msg : Msg) : option (model * Cmd) :=
  match msg with
  | keyMsg msg => update_key m msg
  | secretsLoadedMsg secrets =>
      let m := set_secrets secrets m in
      let m := set_loading false m in
      Some (setupTable m, CmdNil)
  | deleteCompleteMsg deleted =>
      let m := set_deleted deleted m in
      let m := set_deleting false m in
      Some (set_confirmed false m, CmdNil)
  | errMsg e =>
      let m := set_err (Some e) m in
      Some (set_loading false m, CmdNil)
  | otherMsg => Some (m, CmdNil)
  end.

Fixpoint run (m : model) (msgs : list Msg) : option model :=
  match msgs with
  | [] => Some m
  | msg :: msgs' => '(m', _) ← Update m msg; run m' msgs'
  end.

(** The loop of [deleteSelected]: the vault after the calls, the lines
    printed and the names collected in [deleted]. *)
Fixpoint deleteSelected_loop (secrets : list Secret) (vault : Vault)
    (printed : list string) (deleted : list string)
  : Vault * list string * list string :=
  match secrets with
  | [] => (vault, printed, deleted)
  | secret :: secrets' =>
      if Selected secret then
        match api_DeleteSecret (Name secret) true vault with
        | (vault', Some e) =>
            deleteSelected_loop secrets' vault'
              (printed ++ ["Error deleting " +:+ Name secret +:+ ": " +:+ e
                           +:+ newline])
              deleted
        | (vault', None) =>
            deleteSelected_loop secrets' vault' printed
              (deleted ++ [Name secret])
        end
      else deleteSelected_loop secrets' vault printed deleted
  end.

(** The command returned by [deleteSelected], run on the model it
    captured: the vault after it, what it printed and its message. *)
Definition deleteSelected (m : model) (vault : Vault)
  : Vault * list string * Msg :=
  let '(vault', printed, deleted) :=
    deleteSelected_loop (secrets m) vault [] [] in
  (vault', printed, deleteCompleteMsg deleted).

(** The model [main] starts the program on, given the zero value of
    the table. *)
Definition initialModel (zero : Table) : model :=
  {| secrets := []; table := zero; loading := true; err := None;
     confirmed := false; deleting := false; deleted := [] |}.

End Program.

#[global] Arguments Update : simpl never.
#[global] Arguments update_key : simpl never.
#[global] Arguments update_bindings : simpl never.
#[global] Arguments toggle_selected : simpl never.

(** ** Notions used by the properties *)

(** A secret the comparison can be computed on: one that was accessed,
    or has a creation date. *)
Definition dated (s : Secret) : Prop :=
  is_Some (LastAccessed s) \/ is_Some (CreatedDate s).

(** The forced delete calls for a list of names, in order, each with
    its outcome, and the vault after them. *)
Fixpoint forced_calls `{DeleteAPI} (names : list string) (vault : Vault)
  : list (string * option string) * Vault :=
  match names with
  | [] => ([], vault)
  | name :: names' =>
      let '(vault', outcome) := api_DeleteSecret name true vault in
      let '(calls, vault'') := forced_calls names' vault' in
      ((name, outcome) :: calls, vault'')
  end.

Definition succeeded (calls : list (string * option string)) : list string :=
  omap (fun call => match call.2 with
                    | None => Some call.1
                    | Some _ => None
                    end) calls.

Definition error_lines (calls : list (string * option string))
  : list string :=
  omap (fun call => match call.2 with
                    | Some e => Some ("Error deleting " +:+ call.1 +:+ ": "
                                      +:+ e +:+ newline)
                    | None => None
                    end) calls.

(** The table shows the secrets and their selection. *)
Definition shows_secrets `{Bubbles, !TableMoves, TimeFormat} (m : model)
  : Prop :=
  table_Rows (table m) = table_row <$> secrets m.

(** What the first version expects of the table: it keeps the rows it
    is given, and moving the cursor leaves them. *)
Definition moves_keep_rows `{Bubbles, !TableMoves} : Prop :=
  (forall rows t, table_Rows (table_SetRows rows t) = rows)
  /\ (forall n t, table_Rows (table_MoveUp n t) = table_Rows t)
  /\ (forall n t, table_Rows (table_MoveDown n t) = table_Rows t).

(** Two secrets that differ at most in the selection flag. *)
Definition same_secret (a b : Secret) : Prop :=
  Name a = Name b /\ Description a = Description b
  /\ LastAccessed a = LastAccessed b /\ CreatedDate a = CreatedDate b.

(** A message other than the delivery of the loaded secrets. *)
Definition not_loaded `{Bubbles} (msg : Msg) : Prop :=
  match msg with secretsLoadedMsg _ => False | _ => True end.

End Legacy.

(** ** Reference instances for the first version *)

Module RefLegacy.
Import Ref RefMore.

#[export] Instance moves : Legacy.TableMoves := {|
  Legacy.table_New5 := {| cursor := 0; rows := [] |};
  Legacy.table_MoveUp := fun n t => SetCursor (cursor t - n) t;
  Legacy.table_MoveDown := fun n t => SetCursor (cursor t + n) t
|}.

(** A vault that refuses to delete the names it holds and records the
    forced deletions it carried out. *)
#[export] Instance vault : Legacy.DeleteAPI := {|
  Legacy.Vault := list string * list string;
  Legacy.api_DeleteSecret := fun name force v =>
    if bool_decide (name ∈ v.1) then (v, Some "AccessDeniedException")
    else ((v.1, if force then v.2 ++ [name] else v.2), None)
|}.

Definition legacy_secret (name : string) (accessed created : option Z)
    (selected : bool) : Legacy.Secret :=
  {| Legacy.Name := name; Legacy.Description := "";
     Legacy.LastAccessed := accessed; Legacy.CreatedDate := created;
     Legacy.Selected := selected |}.

(** Three secrets: one never accessed, two accessed. *)
Definition three_secrets : list Legacy.Secret :=
  [ legacy_secret "never" None (Some 5) false;
    legacy_secret "old" (Some 1) (Some 0) false;
    legacy_secret "new" (Some 9) None false ].

Section Models.
Import Legacy.

(** A secret with a description of 52 bytes. *)
Definition wordy : Secret :=
  {| Name := "wordy";
     Description := "0123456789012345678901234567890123456789012345678901";
     LastAccessed := None; CreatedDate := Some 2; Selected := false |}.

(** The table of the first version after loading two secrets, the
    second with a long description, and selecting the first. *)
Definition legacy_loaded : Legacy.model :=
  default (initialModel table_New)
    (run (initialModel table_New)
       [secretsLoadedMsg
          [legacy_secret "old" (Some 1) (Some 0) false;
           wordy];
        keyMsg (named " ")]).

Definition legacy_confirming : Legacy.model :=
  default legacy_loaded (run legacy_loaded [keyMsg (typed "d")]).

End Models.

End RefLegacy.

(** * Properties *)

(** ** The fuzzy match *)

Section FuzzyMatch.
Context `{Unicode}.

Lemma scan_found rest i c i' :
  scan rest i c = Some i' ->
  exists pre post,
    rest = pre ++ c :: post /\ (c ∉ pre) /\ i' = (i + S (length pre))%nat.
Proof.
  revert i. induction rest as [|b rest IH]; intros i Hs; simpl in Hs.
  - discriminate.
  - destruct (Z.eqb_spec b c) as [->|Hne].
    + injection Hs as <-. exists [], rest. simpl.
      split; [done|]. split; [apply not_elem_of_nil | lia].
    + destruct (IH _ Hs) as (pre & post & -> & Hpre & ->).
      exists (b :: pre), post. simpl. split; [done|].
      split; [|lia]. rewrite not_elem_of_cons. split; [congruence | done].
Qed.

Lemma scan_none rest i c : scan rest i c = None -> c ∉ rest.
Proof.
  revert i. induction rest as [|b rest IH]; intros i Hs; simpl in Hs.
  - apply not_elem_of_nil.
  - destruct (Z.eqb_spec b c) as [->|Hne]; [discriminate|].
    rewrite not_elem_of_cons. split; [congruence | eauto].
Qed.

(** The first occurrence is as good as any: what follows a later
    occurrence also follows the first. *)
Lemma sublist_skip_absent (c : Z) (q pre post : list Z) :
  c ∉ pre -> c :: q `sublist_of` pre ++ c :: post -> q `sublist_of` post.
Proof.
  induction pre as [|b pre IH]; simpl; intros Hc Hsub.
  - apply sublist_cons_r in Hsub as [Hsub | (q' & [= <-] & Hsub)]; [|done].
    apply sublist_cons_l in Hsub as (l1 & l2 & -> & Hsub).
    by apply sublist_inserts_l, sublist_cons.
  - apply not_elem_of_cons in Hc as [Hne Hc].
    apply sublist_cons_r in Hsub as [Hsub | (q' & [= Heq _] & _)];
      [by apply IH | congruence].
Qed.

Lemma match_from_sublist (query target : list Z) (i : nat) :
  match_from target i query = true <-> query `sublist_of` drop i target.
Proof.
  revert i. induction query as [|c query IH]; intros i; simpl.
  - split; [intros _; apply sublist_nil_l | done].
  - destruct (scan (drop i target) i c) as [i'|] eqn:Hs.
    + apply scan_found in Hs as (pre & post & Hrest & Hpre & ->).
      assert (drop (i + S (length pre)) target = post) as Hpost.
      { rewrite <- drop_drop, Hrest.
        change (c :: post) with ([c] ++ post). rewrite app_assoc.
        rewrite drop_app_length'; [done|]. rewrite length_app. simpl. lia. }
      rewrite IH, Hpost, Hrest. split.
      * intros Hq. apply sublist_inserts_l. by apply sublist_skip.
      * by apply sublist_skip_absent.
    + apply scan_none in Hs. split; [done|]. intros Hsub. exfalso.
      apply Hs. apply (sublist_subseteq _ _ Hsub). apply list_elem_of_here.
Qed.

Lemma runes_from_ascii (p : list Z) (steps : nat) :
  isASCII p = true -> (length p <= steps)%nat -> runes_from steps p = p.
Proof.
  revert steps. induction p as [|b p IH]; intros steps Ha Hlen.
  - by destruct steps.
  - simpl in Ha. apply andb_true_iff in Ha as [Hb Ha].
    destruct steps as [|steps]; simpl in Hlen; [lia|].
    simpl. rewrite Hb. simpl. rewrite drop_0. f_equal. apply IH; [done | lia].
Qed.

Lemma runes_ascii (p : list Z) : isASCII p = true -> runes p = p.
Proof. intros Ha. by apply runes_from_ascii. Qed.

Lemma lowerASCII_ascii (c : Z) :
  (c <? RuneSelf) = true -> (lowerASCII c <? RuneSelf) = true.
Proof.
  unfold lowerASCII, isUpperASCII, in_range, RuneSelf. intros Hc.
  destruct (_ && _) eqn:Hu; [|done].
  apply andb_true_iff in Hu as [_ Hu]. apply Z.ltb_lt.
  apply Z.leb_le in Hu. lia.
Qed.

Lemma ToLower_ascii (p : list Z) :
  isASCII p = true -> isASCII (ToLower p) = true.
Proof.
  intros Ha. unfold ToLower. rewrite Ha. destruct (hasUpper p); [|done].
  unfold isASCII in *. rewrite forallb_forall in *.
  intros c Hc. apply in_map_iff in Hc as (b & <- & Hb).
  apply lowerASCII_ascii. by apply Ha.
Qed.

Lemma isFuzzyMatch_bytes (query target : string) :
  isFuzzyMatch query target = true <->
  lower_runes query `sublist_of` lower_bytes target.
Proof.
  unfold isFuzzyMatch, lower_runes, lower_bytes.
  rewrite match_from_sublist. by rewrite drop_0.
Qed.

Lemma isFuzzyMatch_empty (target : string) : isFuzzyMatch "" target = true.
Proof. reflexivity. Qed.

End FuzzyMatch.

(** C4 (as amended).  The match succeeds exactly when the runes of the
    lowercased query occur, in order and not necessarily next to each
    other, among the bytes of the lowercased target; for a target of
    ASCII characters these bytes are its characters.  The query "scrt"
    matches "my-secret-name", the queries "src" and "xyz" do not, and
    the empty query matches every target. *)
Theorem isFuzzyMatch_subsequence `{Unicode} :
  (forall query target,
     isFuzzyMatch query target = true <->
     lower_runes query `sublist_of` lower_bytes target)
  /\ (forall query target,
        ascii_only target ->
        (isFuzzyMatch query target = true <->
         lower_runes query `sublist_of` lower_runes target))
  /\ isFuzzyMatch "scrt" "my-secret-name" = true
  /\ isFuzzyMatch "src" "my-secret-name" = false
  /\ isFuzzyMatch "xyz" "my-secret-name" = false
  /\ (forall target, isFuzzyMatch "" target = true).
Proof.
  split; [apply isFuzzyMatch_bytes|].
  split; [|repeat split; try reflexivity].
  intros query target Hascii. rewrite isFuzzyMatch_bytes.
  unfold lower_runes, lower_bytes.
  rewrite (runes_ascii (ToLower (bytes target))); [done|].
  by apply ToLower_ascii.
Qed.

Section FuzzyMatchExamples.
Import Ref.

Lemma isFuzzyMatch_subsequence_witness :
  ascii_only "My-Secret-Name"
  /\ (isFuzzyMatch "sCrT" "My-Secret-Name" = true <->
      lower_runes "sCrT" `sublist_of` lower_runes "My-Secret-Name").
Proof.
  split; [reflexivity|].
  apply (proj1 (proj2 isFuzzyMatch_subsequence)). reflexivity.
Defined.

(** C4, as stated, fails: "src" is not matched in "my-secret-name" (no
    "c" follows the "r"), and a query of one accented letter is not
    matched in the target made of that same letter, whose two bytes both
    differ from the letter's code point. *)
Lemma isFuzzyMatch_counterexample :
  isFuzzyMatch "src" "my-secret-name" = false
  /\ lower_runes Ref.e_acute `sublist_of` lower_runes Ref.e_acute
  /\ isFuzzyMatch Ref.e_acute Ref.e_acute = false.
Proof.
  split; [reflexivity|]. split; [|reflexivity].
  vm_compute. apply sublist_skip, sublist_nil.
Qed.

End FuzzyMatchExamples.

(** ** The analyzer *)

Section AnalyzerProperties.
Context `{TimeFormat}.


Lemma daysSinceAccess_age (now : Z) (entry : SecretEntry) :
  daysSinceAccess now entry = whole_days (elapsed_age now entry).
Proof.
  unfold daysSinceAccess, elapsed_age. by destruct entry_LastAccessedDate.
Qed.

Lemma analyze_entries_filtered (now : Z) (entries : list SecretEntry)
    (acc : list SecretResult) :
  foldl (analyze_entry now true) acc entries
  = acc ++ (to_result <$> filter (stale now) entries).
Proof.
  revert acc. induction entries as [|e entries IH]; intros acc; simpl.
  - by rewrite app_nil_r.
  - rewrite IH, filter_cons. unfold analyze_entry. simpl.
    destruct (Z.leb_spec (daysSinceAccess now e) recentThresholdDays).
    + rewrite decide_False by (unfold stale; lia). done.
    + rewrite decide_True by (unfold stale; lia).
      by rewrite fmap_cons, <- app_assoc.
Qed.

Lemma analyze_entries_all (now : Z) (entries : list SecretEntry)
    (acc : list SecretResult) :
  foldl (analyze_entry now false) acc entries = acc ++ (to_result <$> entries).
Proof.
  revert acc. induction entries as [|e entries IH]; intros acc; simpl.
  - by rewrite app_nil_r.
  - rewrite IH. unfold analyze_entry. simpl. by rewrite <- app_assoc.
Qed.


End AnalyzerProperties.

Section AnalyzerExamples.
Import Ref.



End AnalyzerExamples.

(** ** Keys *)

Lemma streq_eq (a b : string) : (a == b) = true <-> a = b.
Proof. apply String.eqb_eq. Qed.

Lemma streq_refl (a : string) : (a == a) = true.
Proof. apply String.eqb_refl. Qed.

(** Case analysis on a key test; a key that is known is substituted, so
    that the tests that follow compute. *)
Ltac case_key :=
  match goal with
  | |- context [streq ?k ?s] =>
      let E := fresh "Hkey" in
      destruct (streq k s) eqn:E;
      [apply streq_eq in E; try (rewrite E in *; clear E); simpl | simpl]
  end.

Section Sessions.
Context `{Unicode, Bubbles, Host}.

Lemma run_cons (m : model) (msg : Msg) (msgs : list Msg) :
  run m (msg :: msgs) = '(m', _) ← Update m msg; run m' msgs.
Proof. reflexivity. Qed.

Lemma run_app (m : model) (msgs1 msgs2 : list Msg) :
  run m (msgs1 ++ msgs2) = m' ← run m msgs1; run m' msgs2.
Proof.
  revert m. induction msgs1 as [|msg msgs1 IH]; intros m; [done|].
  rewrite <- app_comm_cons, !run_cons.
  destruct (Update m msg) as [[m1 c]|]; simpl; [apply IH | done].
Qed.

(** ** Filter sessions *)

Lemma previewFilter_acc (st : State) (q : string)
    (base acc : list SecretResult) :
  foldl (fun tempResults res =>
           if keeps st q res then tempResults ++ [res] else tempResults)
        acc base
  = acc ++ List.filter (keeps st q) base.
Proof.
  revert acc. induction base as [|r base IH]; intros acc; simpl.
  - by rewrite app_nil_r.
  - rewrite IH. destruct (keeps st q r); [|done]. by rewrite <- app_assoc.
Qed.

Lemma previewFilter_filter (st : State) (q : string)
    (base : list SecretResult) :
  previewFilter st q base = List.filter (keeps st q) base.
Proof. apply (previewFilter_acc st q base []). Qed.

Lemma filter_keeps_idempotent (st : State) (q : string)
    (base : list SecretResult) :
  List.filter (keeps st q) (List.filter (keeps st q) base)
  = List.filter (keeps st q) base.
Proof.
  induction base as [|r base IH]; simpl; [done|].
  destruct (keeps st q r) eqn:Hk; simpl; [|done]. by rewrite Hk, IH.
Qed.

(** One keystroke of a filter session: the preview is computed from the
    snapshot, which is left as it is. *)
Lemma filter_keystroke (m : model) (k : KeyMsg) :
  is_filter_state (state m) = true -> filter_key k = true ->
  exists m' cmd,
    Update m (keyMsg k) = Some (m', cmd)
    /\ state m' = state m
    /\ filterInput m' = (input_Update k (filterInput m)).1
    /\ results m'
       = previewFilter (state m) (input_Value (filterInput m'))
                       (originalResults m)
    /\ selected m' = make_bools (length (results m'))
    /\ originalResults m' = originalResults m
    /\ originalSelected m' = originalSelected m
    /\ baseResults m' = baseResults m
    /\ hasFilter m' = hasFilter m.
Proof.
  intros Hst Hk. unfold filter_key in Hk.
  apply negb_true_iff in Hk.
  apply orb_false_iff in Hk as [Hk Henter].
  apply orb_false_iff in Hk as [Hk Hesc].
  unfold Update, update_key. rewrite Hk. simpl.
  assert (Update_filter : forall st, state m = st ->
            is_filter_state st = true ->
            (match st with
             | StConfirmDelete => Some (update_confirm_delete m (key_String k))
             | StFilterInclude | StFilterExclude =>
                 Some (update_filter m k (key_String k))
             | StViewSecret => Some (update_view_secret m k (key_String k))
             | StResults => update_results m k (key_String k)
             | _ => Some (m, CmdNil)
             end) = Some (update_filter m k (key_String k))).
  { intros st _ Hf. by destruct st. }
  rewrite (Update_filter _ eq_refl Hst).
  unfold update_filter.
  destruct (input_Update k (filterInput m)) as [input cmd].
  rewrite Hesc, Henter. simpl. eauto 12.
Qed.

(** A run of keystrokes of a filter session. *)
Lemma filter_keystrokes (keys : list KeyMsg) (m : model) :
  is_filter_state (state m) = true -> forallb filter_key keys = true ->
  exists m',
    run m (keyMsg <$> keys) = Some m'
    /\ state m' = state m
    /\ originalResults m' = originalResults m
    /\ originalSelected m' = originalSelected m
    /\ baseResults m' = baseResults m
    /\ hasFilter m' = hasFilter m
    /\ (keys <> [] ->
        results m'
        = previewFilter (state m) (input_Value (filterInput m'))
                        (originalResults m)
        /\ selected m' = make_bools (length (results m'))).
Proof.
  revert m. induction keys as [|k keys IH]; intros m Hst Hks.
  - exists m. repeat split; done.
  - simpl in Hks. apply andb_true_iff in Hks as [Hk Hks].
    destruct (filter_keystroke m k Hst Hk)
      as (m1 & cmd & HU & Hs1 & Hin1 & Hr1 & Hsel1 & Hor1 & Hos1 & Hb1 & Hf1).
    destruct (IH m1) as (m' & Hrun & Hs' & Hor' & Hos' & Hb' & Hf' & Hres');
      [congruence | done |].
    exists m'. rewrite fmap_cons, run_cons, HU. simpl.
    split; [done|]. repeat split; try congruence.
    + destruct keys as [|k' keys'].
      * injection Hrun as <-. done.
      * destruct Hres' as [Hres' _]; [done|]. rewrite Hres'. congruence.
    + destruct keys as [|k' keys'].
      * injection Hrun as <-. done.
      * by destruct Hres' as [_ Hres'].
Qed.

(** Opening a filter from the results state takes the snapshot. *)
Lemma open_filter_key (m : model) (k : KeyMsg) :
  state m = StResults ->
  key_String k = "/" \/ key_String k = "?" ->
  exists m',
    Update m (keyMsg k) = Some (m', CmdNil)
    /\ state m'
       = (if key_String k == "/" then StFilterInclude else StFilterExclude)
    /\ originalResults m' = results m
    /\ originalSelected m' = selected m
    /\ results m' = results m
    /\ selected m' = selected m
    /\ baseResults m' = baseResults m
    /\ hasFilter m' = hasFilter m
    /\ filterInput m' = input_Focus (input_Reset (filterInput m)).
Proof.
  intros Hst Hk. unfold Update, update_key, update_results. rewrite Hst.
  destruct Hk as [-> | ->]; simpl; eauto 12.
Qed.

(** Escape in a filter session puts the snapshot back. *)
Lemma filter_escape (m : model) (k : KeyMsg) :
  is_filter_state (state m) = true -> key_String k = "esc" ->
  exists m',
    Update m (keyMsg k) = Some (m', CmdNil)
    /\ state m' = StResults
    /\ results m' = originalResults m
    /\ selected m' = originalSelected m
    /\ baseResults m' = baseResults m
    /\ hasFilter m' = hasFilter m.
Proof.
  intros Hst Hk. unfold Update, update_key. rewrite Hk. simpl.
  destruct (state m) eqn:Hs; try discriminate Hst;
    unfold update_filter; destruct (input_Update k (filterInput m));
    simpl; eauto 10.
Qed.

(** A whole cancelled session: open, type, escape. *)
Lemma filter_session_cancelled (m : model) (open : KeyMsg)
    (keys : list KeyMsg) (esc : KeyMsg) :
  state m = StResults ->
  key_String open = "/" \/ key_String open = "?" ->
  forallb filter_key keys = true ->
  key_String esc = "esc" ->
  exists m',
    run m (keyMsg open :: (keyMsg <$> keys) ++ [keyMsg esc]) = Some m'
    /\ state m' = StResults
    /\ results m' = results m
    /\ selected m' = selected m
    /\ baseResults m' = baseResults m
    /\ hasFilter m' = hasFilter m.
Proof.
  intros Hst Hopen Hkeys Hesc.
  destruct (open_filter_key m open Hst Hopen)
    as (m1 & HU1 & Hs1 & Hor1 & Hos1 & _ & _ & Hb1 & Hf1 & _).
  assert (is_filter_state (state m1) = true) as Hfs1.
  { rewrite Hs1. by destruct (key_String open == "/"). }
  destruct (filter_keystrokes keys m1 Hfs1 Hkeys)
    as (m2 & Hrun & Hs2 & Hor2 & Hos2 & Hb2 & Hf2 & _).
  assert (is_filter_state (state m2) = true) as Hfs2 by congruence.
  destruct (filter_escape m2 esc Hfs2 Hesc)
    as (m3 & HU3 & Hs3 & Hr3 & Hsel3 & Hb3 & Hf3).
  exists m3. rewrite run_cons, HU1. simpl. rewrite run_app, Hrun. simpl.
  rewrite run_cons, HU3. simpl. repeat split; congruence.
Qed.

End Sessions.

Section FilterClaims.
Context `{Unicode, Bubbles, Host}.

(** C5.  Opening a filter from the results state saves the current
    ResultSet and selection mask; after any keystrokes of the filter
    session, escape returns to the results state with exactly that
    ResultSet and that mask (the selections toggled before the filter
    was opened included), whatever the previews showed in between. *)
Theorem filter_cancel_restores (m : model) (open : KeyMsg)
    (keys : list KeyMsg) (esc : KeyMsg) :
  state m = StResults ->
  key_String open = "/" \/ key_String open = "?" ->
  forallb filter_key keys = true ->
  key_String esc = "esc" ->
  exists snapshot preview m',
    Update m (keyMsg open) = Some (snapshot, CmdNil)
    /\ is_filter_state (state snapshot) = true
    /\ originalResults snapshot = results m
    /\ originalSelected snapshot = selected m
    /\ run snapshot (keyMsg <$> keys) = Some preview
    /\ is_filter_state (state preview) = true
    /\ (keys <> [] -> selected preview = make_bools (length (results preview)))
    /\ Update preview (keyMsg esc) = Some (m', CmdNil)
    /\ state m' = StResults
    /\ results m' = results m
    /\ selected m' = selected m.
Proof.
  intros Hst Hopen Hkeys Hesc.
  destruct (open_filter_key m open Hst Hopen)
    as (m1 & HU1 & Hs1 & Hor1 & Hos1 & _).
  assert (is_filter_state (state m1) = true) as Hfs1.
  { rewrite Hs1. by destruct (key_String open == "/"). }
  destruct (filter_keystrokes keys m1 Hfs1 Hkeys)
    as (m2 & Hrun & Hs2 & Hor2 & Hos2 & _ & _ & Hprev).
  assert (is_filter_state (state m2) = true) as Hfs2 by congruence.
  destruct (filter_escape m2 esc Hfs2 Hesc)
    as (m3 & HU3 & Hs3 & Hr3 & Hsel3 & _).
  exists m1, m2, m3. repeat split; try done; try congruence.
  intros Hne. by destruct (Hprev Hne).
Qed.

(** C7.  After the keystrokes of a filter session the view is the
    filter of the snapshot taken when the session began, by the mode of
    the session and the text typed so far, and the snapshot is
    unchanged: a preview never starts from an earlier preview.  So two
    sessions with the same snapshot, mode and text show the same
    results, and filtering a result again by the same text and mode
    changes nothing. *)
Theorem filter_preview_from_baseline :
  (forall (m : model) (keys : list KeyMsg),
     is_filter_state (state m) = true ->
     forallb filter_key keys = true -> keys <> [] ->
     exists m',
       run m (keyMsg <$> keys) = Some m'
       /\ originalResults m' = originalResults m
       /\ results m'
          = List.filter (keeps (state m) (input_Value (filterInput m')))
                        (originalResults m))
  /\ (forall (m1 m2 m1' m2' : model) (keys1 keys2 : list KeyMsg),
        is_filter_state (state m1) = true -> state m1 = state m2 ->
        originalResults m1 = originalResults m2 ->
        forallb filter_key keys1 = true -> keys1 <> [] ->
        forallb filter_key keys2 = true -> keys2 <> [] ->
        run m1 (keyMsg <$> keys1) = Some m1' ->
        run m2 (keyMsg <$> keys2) = Some m2' ->
        input_Value (filterInput m1') = input_Value (filterInput m2') ->
        results m1' = results m2')
  /\ (forall (st : State) (query : string) (baseline : list SecretResult),
        List.filter (keeps st query) (List.filter (keeps st query) baseline)
        = List.filter (keeps st query) baseline).
Proof.
  split; [|split].
  - intros m keys Hst Hkeys Hne.
    destruct (filter_keystrokes keys m Hst Hkeys)
      as (m' & Hrun & _ & Hor & _ & _ & _ & Hres).
    destruct (Hres Hne) as [Hres' _].
    exists m'. rewrite <- previewFilter_filter. done.
  - intros m1 m2 m1' m2' keys1 keys2 Hst1 Hst Hor Hk1 Hne1 Hk2 Hne2 Hr1 Hr2 Hv.
    assert (is_filter_state (state m2) = true) as Hst2 by congruence.
    destruct (filter_keystrokes keys1 m1 Hst1 Hk1)
      as (n1 & Hrun1 & _ & _ & _ & _ & _ & Hres1).
    destruct (filter_keystrokes keys2 m2 Hst2 Hk2)
      as (n2 & Hrun2 & _ & _ & _ & _ & _ & Hres2).
    assert (n1 = m1') as -> by congruence.
    assert (n2 = m2') as -> by congruence.
    destruct (Hres1 Hne1) as [-> _]. destruct (Hres2 Hne2) as [-> _].
    congruence.
  - apply filter_keeps_idempotent.
Qed.

End FilterClaims.

Section FilterExamples.
Import Ref.

Lemma filter_cancel_restores_witness :
  state five_rows_second_selected = StResults
  /\ (key_String (Runes "/" false) = "/" \/ key_String (Runes "/" false) = "?")
  /\ forallb filter_key [Runes "s" false; Runes "x" false] = true
  /\ key_String (Special "esc") = "esc"
  /\ exists snapshot preview m',
       Update five_rows_second_selected (keyMsg (Runes "/" false))
       = Some (snapshot, CmdNil)
       /\ is_filter_state (state snapshot) = true
       /\ originalResults snapshot = results five_rows_second_selected
       /\ originalSelected snapshot = selected five_rows_second_selected
       /\ run snapshot (keyMsg <$> [Runes "s" false; Runes "x" false])
          = Some preview
       /\ is_filter_state (state preview) = true
       /\ ([Runes "s" false; Runes "x" false] <> [] ->
           selected preview = make_bools (length (results preview)))
       /\ Update preview (keyMsg (Special "esc")) = Some (m', CmdNil)
       /\ state m' = StResults
       /\ results m' = results five_rows_second_selected
       /\ selected m' = selected five_rows_second_selected.
Proof.
  split; [reflexivity|]. split; [left; reflexivity|].
  split; [reflexivity|]. split; [reflexivity|].
  apply (filter_cancel_restores five_rows_second_selected (Runes "/" false)
           [Runes "s" false; Runes "x" false] (Special "esc"));
    [reflexivity | left; reflexivity | reflexivity | reflexivity].
Defined.

Lemma filter_preview_from_baseline_witness :
  is_filter_state (state filtering_three) = true
  /\ forallb filter_key [Runes "d" false; Runes "b" false] = true
  /\ [Runes "d" false; Runes "b" false] <> []
  /\ exists m',
       run filtering_three (keyMsg <$> [Runes "d" false; Runes "b" false])
       = Some m'
       /\ originalResults m' = originalResults filtering_three
       /\ results m'
          = List.filter
              (keeps (state filtering_three) (input_Value (filterInput m')))
              (originalResults filtering_three).
Proof.
  split; [reflexivity|]. split; [reflexivity|]. split; [discriminate|].
  apply (proj1 filter_preview_from_baseline filtering_three
           [Runes "d" false; Runes "b" false]);
    [reflexivity | reflexivity | discriminate].
Defined.

End FilterExamples.

(** ** Selection *)

Section Selection.
Context `{Unicode, Bubbles, Host}.

Lemma in_bounds_of_nat (i n : nat) :
  in_bounds (Z.of_nat i) n = bool_decide (i < n)%nat.
Proof.
  unfold in_bounds. case_bool_decide.
  - apply andb_true_iff. split; [apply Z.leb_le | apply Z.ltb_lt]; lia.
  - apply andb_false_iff. right. apply Z.ltb_ge. lia.
Qed.

(** The space key in the results state, with the cursor on a row. *)
Lemma toggle_key (m : model) (space : KeyMsg) (i : nat) (row : Row) :
  state m = StResults ->
  key_String space = " " ->
  table_Cursor (table m) = Z.of_nat i ->
  (i < length (selected m))%nat ->
  table_Rows (table m) !! i = Some row -> row <> [] ->
  exists m' cmd b,
    Update m (keyMsg space) = Some (m', cmd)
    /\ selected m !! i = Some b
    /\ selected m' = <[i := negb b]> (selected m)
    /\ results m' = results m
    /\ baseResults m' = baseResults m
    /\ hasFilter m' = hasFilter m
    /\ state m' = StResults.
Proof.
  intros Hst Hkey Hcur Hlt Hrow Hne.
  destruct (lookup_lt_is_Some_2 (selected m) i Hlt) as [b Hb].
  unfold Update, update_key. rewrite Hkey, Hst. simpl.
  unfold update_results. simpl. unfold toggle_selection.
  rewrite Hcur, in_bounds_of_nat, bool_decide_eq_true_2 by done.
  rewrite Nat2Z.id, Hb. simpl.
  destruct (selectedShared m); simpl; rewrite Hrow; simpl;
    (destruct row as [|cell cells]; [done|]); simpl;
    destruct (table_Update space _) as [t cmd];
    eexists _, _, b; (split; [reflexivity|]); repeat split; done.
Qed.

(** C8.  With the cursor on a row of the results, the space key flips
    the mask entry of that row and no other, and leaves the ResultSet,
    the base set and the filter-active flag as they are; opening a
    filter afterwards and escaping it leaves the row as toggled and the
    filter-active flag unchanged. *)
Theorem toggle_selection_frame (m : model) (space : KeyMsg) (i : nat)
    (row : Row) :
  state m = StResults ->
  key_String space = " " ->
  table_Cursor (table m) = Z.of_nat i ->
  (i < length (selected m))%nat ->
  table_Rows (table m) !! i = Some row -> row <> [] ->
  exists m' cmd b,
    Update m (keyMsg space) = Some (m', cmd)
    /\ selected m !! i = Some b
    /\ selected m' !! i = Some (negb b)
    /\ (forall j, j <> i -> selected m' !! j = selected m !! j)
    /\ length (selected m') = length (selected m)
    /\ results m' = results m
    /\ baseResults m' = baseResults m
    /\ hasFilter m' = hasFilter m
    /\ state m' = StResults
    /\ (forall (open esc : KeyMsg) (keys : list KeyMsg),
          key_String open = "/" \/ key_String open = "?" ->
          forallb filter_key keys = true ->
          key_String esc = "esc" ->
          exists m'',
            run m' (keyMsg open :: (keyMsg <$> keys) ++ [keyMsg esc])
            = Some m''
            /\ state m'' = StResults
            /\ selected m'' !! i = Some (negb b)
            /\ selected m'' = selected m'
            /\ results m'' = results m
            /\ hasFilter m'' = hasFilter m).
Proof.
  intros Hst Hkey Hcur Hlt Hrow Hne.
  destruct (toggle_key m space i row Hst Hkey Hcur Hlt Hrow Hne)
    as (m' & cmd & b & HU & Hb & Hsel & Hres & Hbase & Hf & Hst').
  exists m', cmd, b. split; [done|]. split; [done|].
  assert (selected m' !! i = Some (negb b)) as Hi.
  { rewrite Hsel. by apply list_lookup_insert_eq. }
  split; [done|]. split.
  { intros j Hj. rewrite Hsel. by apply list_lookup_insert_ne. }
  split; [by rewrite Hsel, length_insert|].
  repeat (split; [done|]).
  intros open esc keys Hopen Hkeys Hesc.
  destruct (filter_session_cancelled m' open keys esc Hst' Hopen Hkeys Hesc)
    as (m'' & Hrun & Hs'' & Hr'' & Hsel'' & _ & Hf'').
  exists m''. repeat split; congruence.
Qed.

End Selection.

Section SelectionExamples.
Import Ref.

Lemma toggle_selection_frame_witness :
  state five_rows_cursor_second = StResults
  /\ key_String (Special " ") = " "
  /\ table_Cursor (table five_rows_cursor_second) = Z.of_nat 1
  /\ (1 < length (selected five_rows_cursor_second))%nat
  /\ table_Rows (table five_rows_cursor_second) !! 1%nat
     = Some [" "; "beta"; "Never"]
  /\ [" "; "beta"; "Never"] <> []
  /\ exists m' cmd b,
       Update five_rows_cursor_second (keyMsg (Special " ")) = Some (m', cmd)
       /\ selected five_rows_cursor_second !! 1%nat = Some b
       /\ selected m' !! 1%nat = Some (negb b)
       /\ (forall j, j <> 1%nat ->
           selected m' !! j = selected five_rows_cursor_second !! j)
       /\ length (selected m') = length (selected five_rows_cursor_second)
       /\ results m' = results five_rows_cursor_second
       /\ baseResults m' = baseResults five_rows_cursor_second
       /\ hasFilter m' = hasFilter five_rows_cursor_second
       /\ state m' = StResults
       /\ (forall (open esc : KeyMsg) (keys : list KeyMsg),
             key_String open = "/" \/ key_String open = "?" ->
             forallb filter_key keys = true ->
             key_String esc = "esc" ->
             exists m'',
               run m' (keyMsg open :: (keyMsg <$> keys) ++ [keyMsg esc])
               = Some m''
               /\ state m'' = StResults
               /\ selected m'' !! 1%nat = Some (negb b)
               /\ selected m'' = selected m'
               /\ results m'' = results five_rows_cursor_second
               /\ hasFilter m'' = hasFilter five_rows_cursor_second).
Proof.
  split; [reflexivity|]. split; [reflexivity|]. split; [reflexivity|].
  split; [vm_compute; lia|]. split; [reflexivity|]. split; [discriminate|].
  apply (toggle_selection_frame five_rows_cursor_second (Special " ") 1
           [" "; "beta"; "Never"]);
    [reflexivity | reflexivity | reflexivity | vm_compute; lia
    | reflexivity | discriminate].
Defined.

(** The scenario of the specification, run: row 2 of 5 is toggled, a
    filter is opened, some text is typed, and escape is pressed. *)
Example toggle_then_cancelled_filter :
  exists m',
    run five_rows_cursor_second
        [special " "; key "/"; key "a"; key "l"; special "esc"] = Some m'
    /\ state m' = StResults
    /\ selected m' = [false; true; false; false; false]
    /\ results m' = results five_rows_cursor_second
    /\ hasFilter m' = false.
Proof. eexists. split; [vm_compute; reflexivity|]. repeat split. Qed.

End SelectionExamples.

(** ** The shape of a step *)

(** The handlers of the other states, by cases on the key tests. *)
Ltac key_tests :=
  repeat match goal with
         | |- context [streq ?k ?s] => destruct (streq k s)
         | |- context [if ?b then _ else _] => destruct b
         end.

Section Steps.
Context `{Unicode, Bubbles, Host}.

Lemma update_results_cases (m m' : model) (k : KeyMsg) (key : string)
    (cmd : Cmd) :
  update_results m k key = Some (m', cmd) ->
  exists core,
    results_action m core /\ (m' = core \/ exists t, m' = set_table t core).
Proof.
  unfold update_results. intros HU.
  destruct (key == "r") eqn:Hr.
  { injection HU as <- <-. eexists. split; [apply (act_rescan m true)|auto]. }
  destruct (key == "R") eqn:HR.
  { injection HU as <- <-. eexists. split; [apply (act_rescan m false)|auto]. }
  destruct (key == "enter") eqn:Henter.
  { apply streq_eq in Henter as ->. simpl in HU.
    destruct (open_secret m) as [[m1 c1]|] eqn:Hopen.
    - injection HU as <- <-. eexists. split; [by eapply act_open_secret|auto].
    - destruct (table_Update k (table m)) as [t c]. injection HU as <- <-.
      eexists. split; [apply act_none|eauto]. }
  destruct (key == " ") eqn:Hspace.
  { apply streq_eq in Hspace as ->. simpl in HU.
    destruct (toggle_selection m) as [m1|] eqn:Htoggle; [|done]. simpl in HU.
    destruct (table_Update k (table m1)) as [t c]. injection HU as <- <-.
    eexists. split; [by apply act_toggle|eauto]. }
  simpl in HU.
  destruct (key == "D") eqn:HD.
  { apply streq_eq in HD as ->. simpl in HU.
    destruct (table_Update k _) as [t c]. injection HU as <- <-.
    eexists. split; [apply act_request_delete|eauto]. }
  destruct (key == "y") eqn:Hy.
  { apply streq_eq in Hy as ->. simpl in HU.
    destruct (copy_name m) as [[m1 c1]|] eqn:Hcopy.
    - injection HU as <- <-. eexists. split; [by eapply act_copy_name|auto].
    - destruct (table_Update k (table m)) as [t c]. injection HU as <- <-.
      eexists. split; [apply act_none|eauto]. }
  destruct (key == "/") eqn:Hinc.
  { injection HU as <- <-. eexists.
    split; [by apply (act_open_filter m StFilterInclude)|auto]. }
  destruct (key == "?") eqn:Hexc.
  { injection HU as <- <-. eexists.
    split; [by apply (act_open_filter m StFilterExclude)|auto]. }
  destruct (key == "esc") eqn:Hesc.
  - destruct (table_Update k _) as [t c]. injection HU as <- <-.
    eexists. split; [apply act_clear_filter|eauto].
  - destruct (table_Update k (table m)) as [t c]. injection HU as <- <-.
    eexists. split; [apply act_none|eauto].
Qed.


Lemma update_key_cases (m m' : model) (k : KeyMsg) (cmd : Cmd) :
  Update m (keyMsg k) = Some (m', cmd) ->
  m' = m
  \/ (state m = StResults
      /\ update_results m k (key_String k) = Some (m', cmd))
  \/ (is_filter_state (state m) = true
      /\ (m', cmd) = update_filter m k (key_String k))
  \/ (state m = StViewSecret
      /\ (m', cmd) = update_view_secret m k (key_String k))
  \/ (state m = StConfirmDelete
      /\ (m', cmd) = update_confirm_delete m (key_String k)).
Proof.
  unfold Update, update_key. intros HU.
  destruct ((key_String k == "q") || (key_String k == "ctrl+c")).
  { injection HU as <- <-. auto. }
  destruct (state m) eqn:Hs; try (injection HU as <- <-; auto; fail).
  - auto.
  - right. right. left. split; [done|]. congruence.
  - right. right. left. split; [done|]. congruence.
  - right. right. right. left. split; [done|]. congruence.
  - right. right. right. right. split; [done|]. congruence.
Qed.

(** The fields after the completion of a scan. *)
Lemma state_analysisComplete (m : model) rs e :
  state (update_analysisComplete m rs e) = StResults.
Proof. unfold update_analysisComplete. by destruct e. Qed.

Lemma results_analysisComplete (m : model) rs e :
  results (update_analysisComplete m rs e) = rs
  /\ baseResults (update_analysisComplete m rs e) = rs.
Proof. unfold update_analysisComplete. by destruct e. Qed.

Lemma selected_analysisComplete (m : model) rs e :
  selected (update_analysisComplete m rs e)
  = match e with
    | None => make_bools (length rs)
    | Some _ => selected m
    end.
Proof. unfold update_analysisComplete. by destruct e. Qed.

(** A step that ends in the confirmation state either selected
    something or was taken from that state without touching the mask. *)
Lemma confirm_delete_step (m m' : model) (msg : Msg) (cmd : Cmd) :
  Update m msg = Some (m', cmd) ->
  state m' = StConfirmDelete ->
  hasSelected (selected m') = true
  \/ (state m = StConfirmDelete /\ selected m' = selected m).
Proof.
  intros HU Hst.
  destruct msg as [k| |rs e|vs e|index value e|e| |tick|frame|].
  - apply update_key_cases in HU
      as [-> | [[Hs HU] | [[Hs HU] | [[Hs HU] | [Hs HU]]]]].
    + auto.
    + apply update_results_cases in HU as (core & Hcore & Hm').
      assert (state m' = state core /\ selected m' = selected core)
        as [Hst' Hsel'].
      { destruct Hm' as [-> | [t ->]]; done. }
      rewrite Hst' in Hst. rewrite Hsel'. clear Hm' Hst' Hsel'.
      destruct Hcore as [ | filtered | core c Hopen | core Htoggle |
                          | core c Hcopy | st Hfs | ].
      * congruence.
      * discriminate Hst.
      * unfold open_secret in Hopen. destruct in_bounds; [|done].
        destruct (results m !! _); [|done]. simpl in Hopen.
        injection Hopen as <- <-. discriminate Hst.
      * unfold toggle_selection in Htoggle. destruct in_bounds.
        -- destruct (selected m !! _) as [sel|]; [|done]. simpl in Htoggle.
           destruct (table_Rows _ !! _) as [[|cell cells]|]; try done.
           simpl in Htoggle. injection Htoggle as <-.
           destruct (selectedShared m); simpl in Hst; congruence.
        -- injection Htoggle as <-. congruence.
      * unfold request_delete in *.
        destruct (hasSelected (selected m)) eqn:Hsel; [by left | congruence].
      * unfold copy_name in Hcopy. destruct in_bounds; [|done].
        destruct (results m !! _); [|done]. simpl in Hcopy.
        destruct clipboard_WriteAll; [|done].
        injection Hcopy as <- <-. simpl in Hst. congruence.
      * unfold open_filter in Hst. simpl in Hst. subst st. done.
      * unfold clear_filter in Hst. destruct (hasFilter m); simpl in Hst;
          congruence.
    + exfalso. revert HU Hst. unfold update_filter.
      destruct (input_Update k (filterInput m)) as [input c].
      key_tests; intros [= -> _]; simpl; intros Hst;
        rewrite ?Hst in Hs; done.
    + exfalso. revert HU Hst. unfold update_view_secret.
      destruct (table_Update k (versionTable m)) as [t c].
      key_tests; intros [= -> _]; simpl; congruence.
    + revert HU Hst. unfold update_confirm_delete.
      key_tests; intros [= -> _]; simpl; auto; done.
  - unfold Update in HU. destruct (negb (analyzer m));
      injection HU as <- <-; discriminate Hst.
  - unfold Update in HU. injection HU as <- <-.
    rewrite state_analysisComplete in Hst. discriminate Hst.
  - unfold Update in HU. destruct e; injection HU as <- <-.
    + discriminate Hst.
    + right. done.
  - unfold Update in HU. destruct e.
    + injection HU as <- <-. right. done.
    + destruct in_bounds; [|done]. destruct (versions m !! _); [|done].
      simpl in HU. injection HU as <- <-. right. done.
  - unfold Update, update_deleteComplete in HU. destruct e.
    + simpl in HU. injection HU as <- <-. discriminate Hst.
    + destruct remove_selected as [[newResults newSelected]|]; [|done].
      simpl in HU. injection HU as <- <-. discriminate Hst.
  - unfold Update in HU. injection HU as <- <-. right. done.
  - unfold Update in HU. destruct spinner_Update.
    injection HU as <- <-. right. done.
  - unfold Update in HU. destruct progress_Update.
    injection HU as <- <-. right. done.
  - unfold Update in HU. injection HU as <- <-. right. done.
Qed.

Lemma run_reachable (msgs : list Msg) (m m' : model) :
  reachable m -> run m msgs = Some m' -> reachable m'.
Proof.
  revert m. induction msgs as [|msg msgs IH]; intros m Hm Hrun.
  - injection Hrun as <-. done.
  - rewrite run_cons in Hrun.
    destruct (Update m msg) as [[m1 cmd]|] eqn:HU; [|done].
    simpl in Hrun. eapply IH; [|done]. by eapply reachable_step.
Qed.

Lemma confirm_delete_selected (m : model) :
  reachable m -> state m = StConfirmDelete -> hasSelected (selected m) = true.
Proof.
  induction 1 as [analyzerErr | m msg m' cmd Hm IH HU]; intros Hst.
  - discriminate Hst.
  - destruct (confirm_delete_step m m' msg cmd HU Hst) as [Hsel | [Hs Hsel]];
      [done|]. rewrite Hsel. by apply IH.
Qed.

End Steps.

Section Handlers.
Context `{Unicode, Bubbles, Host}.

Lemma in_bounds_0 (cursor : Z) : in_bounds cursor 0 = false.
Proof.
  unfold in_bounds. apply andb_false_iff.
  destruct (Z.leb_spec 0 cursor); [right | by left]. apply Z.ltb_ge. simpl. lia.
Qed.

(** What a keystroke of a filter state does to the sets and the mask. *)
Lemma update_filter_fields (m m' : model) (k : KeyMsg) (key : string)
    (cmd : Cmd) :
  (m', cmd) = update_filter m k key ->
  originalResults m' = originalResults m
  /\ originalSelected m' = originalSelected m
  /\ baseResults m' = baseResults m
  /\ filterInput m' = (input_Update k (filterInput m)).1
  /\ ((state m' = StResults /\ results m' = originalResults m
       /\ selected m' = originalSelected m /\ hasFilter m' = hasFilter m)
      \/ (results m'
          = previewFilter (state m) (input_Value (filterInput m'))
                          (originalResults m)
          /\ selected m' = make_bools (length (results m'))
          /\ ((state m' = StResults /\ hasFilter m' = true)
              \/ (state m' = state m /\ hasFilter m' = hasFilter m)))).
Proof.
  unfold update_filter. destruct (input_Update k (filterInput m)) as [input c].
  destruct (key == "esc"); [|destruct (key == "enter")];
    intros [= -> _]; simpl; repeat split; auto 10.
Qed.

Lemma update_view_secret_fields (m m' : model) (k : KeyMsg) (key : string)
    (cmd : Cmd) :
  (m', cmd) = update_view_secret m k key ->
  results m' = results m /\ baseResults m' = baseResults m
  /\ selected m' = selected m /\ originalResults m' = originalResults m
  /\ originalSelected m' = originalSelected m /\ hasFilter m' = hasFilter m
  /\ filterInput m' = filterInput m
  /\ (state m' = StResults \/ state m' = state m).
Proof.
  unfold update_view_secret.
  destruct (table_Update k (versionTable m)) as [t c].
  key_tests; intros [= -> _]; simpl; repeat split; auto.
Qed.

Lemma update_confirm_delete_fields (m m' : model) (key : string) (cmd : Cmd) :
  (m', cmd) = update_confirm_delete m key ->
  results m' = results m /\ baseResults m' = baseResults m
  /\ selected m' = selected m /\ originalResults m' = originalResults m
  /\ originalSelected m' = originalSelected m /\ hasFilter m' = hasFilter m
  /\ filterInput m' = filterInput m
  /\ (state m' = StResults \/ state m' = state m).
Proof.
  unfold update_confirm_delete.
  key_tests; intros [= -> _]; simpl; repeat split; auto.
Qed.

(** The toggle either leaves the model alone (cursor off the mask) or
    flips the entry under the cursor. *)
Lemma toggle_selection_fields (m m' : model) :
  toggle_selection m = Some m' ->
  state m' = state m /\ results m' = results m
  /\ baseResults m' = baseResults m /\ originalResults m' = originalResults m
  /\ hasFilter m' = hasFilter m /\ filterInput m' = filterInput m
  /\ (m' = m
      \/ exists i b, selected m !! i = Some b
                     /\ selected m' = <[i := negb b]> (selected m)).
Proof.
  unfold toggle_selection. destruct in_bounds.
  - destruct (selected m !! _) as [sel|] eqn:Hsel; [|done]. simpl.
    destruct (selectedShared m);
      (destruct (table_Rows _ !! _) as [[|cell cells]|]; try done);
      simpl; intros [= <-]; simpl; repeat split; eauto.
  - intros [= <-]. repeat split; auto.
Qed.

Lemma open_secret_fields (m m' : model) (cmd : Cmd) :
  open_secret m = Some (m', cmd) ->
  state m' = StViewSecret /\ results m' = results m
  /\ baseResults m' = baseResults m /\ selected m' = selected m
  /\ originalResults m' = originalResults m
  /\ originalSelected m' = originalSelected m
  /\ hasFilter m' = hasFilter m /\ filterInput m' = filterInput m.
Proof.
  unfold open_secret. destruct in_bounds; [|done].
  destruct (results m !! _); [|done]. simpl. intros [= <- _]. done.
Qed.

Lemma copy_name_fields (m m' : model) (cmd : Cmd) :
  copy_name m = Some (m', cmd) ->
  state m' = state m /\ results m' = results m
  /\ baseResults m' = baseResults m /\ selected m' = selected m
  /\ originalResults m' = originalResults m
  /\ originalSelected m' = originalSelected m
  /\ hasFilter m' = hasFilter m /\ filterInput m' = filterInput m.
Proof.
  unfold copy_name. destruct in_bounds; [|done].
  destruct (results m !! _); [|done]. simpl.
  destruct clipboard_WriteAll; [|done]. intros [= <- _]. done.
Qed.

Lemma remove_selected_nil (rs : list SecretResult) (i : nat) acc1 acc2 :
  remove_selected rs i [] acc1 acc2 = Some (acc1, acc2).
Proof. reflexivity. Qed.

(** ** Nothing listed, nothing to delete *)

Lemma no_records_step (m m' : model) (msg : Msg) (cmd : Cmd) :
  no_records m -> brings_no_records msg ->
  Update m msg = Some (m', cmd) -> no_records m'.
Proof.
  intros (Hr & Hb & Hsel & Horig & Hst) Hmsg HU. unfold no_records.
  destruct msg as [k| |rs e|vs e|index value e|e| |tick|frame|].
  - apply update_key_cases in HU
      as [-> | [[Hs HU] | [[Hs HU] | [[Hs HU] | [Hs HU]]]]]; [done| | | |done].
    + apply update_results_cases in HU as (core & Hcore & Hm').
      assert (no_records core) as Hcore';
        [|destruct Hm' as [-> | [t ->]]; done].
      unfold no_records. clear Hm'.
      destruct Hcore as [ | filtered | core c Hopen | core Htoggle |
                          | core c Hcopy | st Hfs | ].
      * done.
      * simpl. done.
      * apply open_secret_fields in Hopen
          as (-> & -> & -> & -> & -> & -> & _). done.
      * apply toggle_selection_fields in Htoggle
          as (-> & -> & -> & -> & _ & _ & [-> | (i & b & Hi & _)]).
        -- done.
        -- rewrite Hsel in Hi. done.
      * unfold request_delete. rewrite Hsel. done.
      * apply copy_name_fields in Hcopy
          as (-> & -> & -> & -> & -> & -> & _). done.
      * unfold open_filter. simpl. split_and!; try done. by destruct st.
      * unfold clear_filter. destruct (hasFilter m); [|done]. simpl.
        rewrite Hb. split_and!; done.
    + destruct (Horig Hs) as [Hor Hos].
      apply update_filter_fields in HU
        as (Hor' & Hos' & -> & _ & [(-> & -> & -> & _) | (Hres & -> & Hstate)]).
      * done.
      * rewrite Hor in Hres. rewrite Hres.
        assert (state m' <> StConfirmDelete).
        { destruct Hstate as [[-> _] | [-> _]]; [done|].
          by destruct (state m). }
        split_and!; try done. intros _. split; congruence.
    + apply update_view_secret_fields in HU
        as (-> & -> & -> & -> & -> & _ & _ & [-> | ->]); done.
  - unfold Update in HU. destruct (negb (analyzer m)); injection HU as <- <-;
      done.
  - unfold Update in HU. injection HU as <- <-. simpl in Hmsg. subst rs.
    destruct (results_analysisComplete m [] e) as [-> ->].
    rewrite selected_analysisComplete, state_analysisComplete.
    split_and!; try done. by destruct e.
  - unfold Update in HU. destruct e; injection HU as <- <-; done.
  - unfold Update in HU. destruct e.
    + injection HU as <- <-. done.
    + destruct in_bounds; [|done]. destruct (versions m !! _); [|done].
      simpl in HU. injection HU as <- <-. done.
  - unfold Update, update_deleteComplete in HU. destruct e.
    + simpl in HU. injection HU as <- <-. done.
    + rewrite Hsel in HU. simpl in HU. injection HU as <- <-. done.
  - unfold Update in HU. injection HU as <- <-. done.
  - unfold Update in HU. destruct spinner_Update. injection HU as <- <-. done.
  - unfold Update in HU. destruct progress_Update. injection HU as <- <-. done.
  - unfold Update in HU. injection HU as <- <-. done.
Qed.

Lemma no_records_run (msgs : list Msg) (m m' : model) :
  no_records m -> Forall brings_no_records msgs ->
  run m msgs = Some m' -> no_records m'.
Proof.
  revert m. induction msgs as [|msg msgs IH]; intros m Hm Hmsgs Hrun.
  - injection Hrun as <-. done.
  - rewrite run_cons in Hrun. apply Forall_cons in Hmsgs as [Hmsg Hmsgs].
    destruct (Update m msg) as [[m1 cmd]|] eqn:HU; [|done].
    simpl in Hrun. eapply IH; [|done|done]. by eapply no_records_step.
Qed.

Lemma no_records_after_empty_scan (m : model) :
  no_records (update_analysisComplete m [] None).
Proof.
  unfold no_records. destruct (results_analysisComplete m [] None) as [-> ->].
  rewrite selected_analysisComplete, state_analysisComplete. done.
Qed.


Lemma hasSelected_lookup (mask : list bool) :
  hasSelected mask = true <-> exists i, mask !! i = Some true.
Proof.
  unfold hasSelected. rewrite existsb_exists. split.
  - intros (sel & Hin & Hsel). unfold id in Hsel. subst sel.
    apply list_elem_of_In, list_elem_of_lookup in Hin. done.
  - intros (i & Hi). exists true. split; [|done].
    apply list_elem_of_In, list_elem_of_lookup. eauto.
Qed.

(** C9.  In every model the program can reach, the confirmation state
    comes with at least one selected record.  After a scan that returned
    zero records nothing is listed and the mask is empty, and this stays
    so, with the confirmation state never entered, whatever messages
    follow, until a scan brings records. *)
Theorem confirm_delete_needs_selection :
  (forall m : model,
     reachable m -> state m = StConfirmDelete ->
     exists i, selected m !! i = Some true)
  /\ (forall (m scanned m' : model) (cmd : Cmd) (msgs : list Msg),
        Update m (analysisCompleteMsg [] None) = Some (scanned, cmd) ->
        Forall brings_no_records msgs ->
        run scanned msgs = Some m' ->
        state scanned = StResults
        /\ results m' = [] /\ selected m' = []
        /\ state m' <> StConfirmDelete).
Proof.
  split.
  - intros m Hm Hst. apply hasSelected_lookup.
    by apply confirm_delete_selected.
  - intros m scanned m' cmd msgs HU Hmsgs Hrun.
    unfold Update in HU. injection HU as <- _.
    split; [apply state_analysisComplete|].
    pose proof (no_records_after_empty_scan m) as Hnone.
    destruct (no_records_run msgs _ m' Hnone Hmsgs Hrun)
      as (Hr & _ & Hsel & _ & Hst).
    done.
Qed.

End Handlers.

Section ReachabilityExamples.
Import Ref.

Lemma confirm_delete_needs_selection_witness :
  reachable confirming
  /\ state confirming = StConfirmDelete
  /\ (exists i, selected confirming !! i = Some true)
  /\ Update (initialModel None) (analysisCompleteMsg [] None)
     = Some (empty_scan, CmdNil)
  /\ Forall brings_no_records keys_after_empty_scan
  /\ run empty_scan keys_after_empty_scan = Some after_empty_scan
  /\ state empty_scan = StResults
  /\ results after_empty_scan = [] /\ selected after_empty_scan = []
  /\ state after_empty_scan <> StConfirmDelete.
Proof.
  assert (reachable confirming) as Hreach.
  { apply (run_reachable
             [startScanMsg; analysisCompleteMsg [secret "prod/db"] None;
              special " "; key "D"] (initialModel None));
      [apply reachable_init | vm_compute; reflexivity]. }
  assert (state confirming = StConfirmDelete) as Hstate
    by (vm_compute; reflexivity).
  assert (Update (initialModel None) (analysisCompleteMsg [] None)
          = Some (empty_scan, CmdNil)) as Hscan by (vm_compute; reflexivity).
  assert (Forall brings_no_records keys_after_empty_scan)
    as Hmsgs by (repeat constructor).
  assert (run empty_scan keys_after_empty_scan = Some after_empty_scan)
    as Hrun by (vm_compute; reflexivity).
  split; [exact Hreach|]. split; [exact Hstate|].
  split; [exact (proj1 confirm_delete_needs_selection confirming Hreach
                   Hstate)|].
  split; [exact Hscan|]. split; [exact Hmsgs|]. split; [exact Hrun|].
  exact (proj2 confirm_delete_needs_selection (initialModel None) empty_scan
           after_empty_scan CmdNil _ Hscan Hmsgs Hrun).
Defined.

End ReachabilityExamples.

(** ** The quit keys *)

Section Quit.
Context `{Unicode, Bubbles, Host}.

Lemma filterInput_analysisComplete (m : model) rs e :
  filterInput (update_analysisComplete m rs e) = filterInput m.
Proof. unfold update_analysisComplete. by destruct e. Qed.

Lemma results_action_filterInput (m core : model) :
  results_action m core ->
  filterInput core = filterInput m
  \/ filterInput core = input_Focus (input_Reset (filterInput m)).
Proof.
  intros [ | filtered | core' c Hopen | core' Htoggle |
           | core' c Hcopy | st Hfs | ].
  - by left.
  - by left.
  - left. by apply open_secret_fields in Hopen as (_&_&_&_&_&_&_&?).
  - left. by apply toggle_selection_fields in Htoggle as (_&_&_&_&_&?&_).
  - left. unfold request_delete. by destruct hasSelected.
  - left. by apply copy_name_fields in Hcopy as (_&_&_&_&_&_&_&?).
  - by right.
  - left. unfold clear_filter. by destruct hasFilter.
Qed.

(** C10 (as amended).  In every state a key message whose string is "q"
    or "ctrl+c" quits at once and leaves the model as it is, so it is
    never handed to the filter input.  The filter input changes only
    when a key message with another string is handled: in a filter
    state, where the input widget receives it, or in the results state,
    where opening a filter resets the input. *)
Theorem quit_keys_first :
  (forall (m : model) (k : KeyMsg),
     key_String k = "q" \/ key_String k = "ctrl+c" ->
     Update m (keyMsg k) = Some (m, CmdQuit))
  /\ (forall (m m' : model) (msg : Msg) (cmd : Cmd),
        Update m msg = Some (m', cmd) ->
        filterInput m' <> filterInput m ->
        exists k,
          msg = keyMsg k
          /\ key_String k <> "q" /\ key_String k <> "ctrl+c"
          /\ ((is_filter_state (state m) = true
               /\ filterInput m' = (input_Update k (filterInput m)).1)
              \/ (state m = StResults
                  /\ filterInput m'
                     = input_Focus (input_Reset (filterInput m))))).
Proof.
  split.
  - intros m k Hk. unfold Update, update_key.
    destruct Hk as [-> | ->]; reflexivity.
  - intros m m' msg cmd HU Hchanged.
    destruct msg as [k| |rs e|vs e|index value e|e| |tick|frame|].
    + exists k. split; [done|].
      destruct (key_String k == "q") eqn:Hq.
      { exfalso. apply Hchanged. unfold Update, update_key in HU.
        rewrite Hq in HU. simpl in HU. by injection HU as <- _. }
      destruct (key_String k == "ctrl+c") eqn:Hc.
      { exfalso. apply Hchanged. unfold Update, update_key in HU.
        rewrite Hq, Hc in HU. simpl in HU. by injection HU as <- _. }
      split; [intros Heq; apply streq_eq in Heq; congruence|].
      split; [intros Heq; apply streq_eq in Heq; congruence|].
      apply update_key_cases in HU
        as [-> | [[Hs HU] | [[Hs HU] | [[Hs HU] | [Hs HU]]]]].
      * done.
      * right. split; [done|].
        apply update_results_cases in HU as (core & Hcore & Hm').
        assert (filterInput m' = filterInput core) as Hsame.
        { destruct Hm' as [-> | [t ->]]; done. }
        destruct (results_action_filterInput m core Hcore); congruence.
      * left. split; [done|].
        by apply update_filter_fields in HU as (_ & _ & _ & -> & _).
      * exfalso. apply Hchanged.
        by apply update_view_secret_fields in HU as (_&_&_&_&_&_& -> &_).
      * exfalso. apply Hchanged.
        by apply update_confirm_delete_fields in HU as (_&_&_&_&_&_& -> &_).
    + exfalso. apply Hchanged. unfold Update in HU.
      destruct (negb (analyzer m)); by injection HU as <- _.
    + exfalso. apply Hchanged. unfold Update in HU. injection HU as <- _.
      apply filterInput_analysisComplete.
    + exfalso. apply Hchanged. unfold Update in HU.
      destruct e; by injection HU as <- _.
    + exfalso. apply Hchanged. unfold Update in HU. destruct e.
      * by injection HU as <- _.
      * destruct in_bounds; [|done]. destruct (versions m !! _); [|done].
        simpl in HU. by injection HU as <- _.
    + exfalso. apply Hchanged. unfold Update, update_deleteComplete in HU.
      destruct e.
      * simpl in HU. by injection HU as <- _.
      * destruct remove_selected as [[newResults newSelected]|]; [|done].
        simpl in HU. by injection HU as <- _.
    + exfalso. apply Hchanged. unfold Update in HU. by injection HU as <- _.
    + exfalso. apply Hchanged. unfold Update in HU.
      destruct spinner_Update. by injection HU as <- _.
    + exfalso. apply Hchanged. unfold Update in HU.
      destruct progress_Update. by injection HU as <- _.
    + exfalso. apply Hchanged. unfold Update in HU. by injection HU as <- _.
Qed.

End Quit.

Section QuitExamples.
Import Ref.

Lemma quit_keys_first_witness :
  (key_String (Runes "q" false) = "q"
   \/ key_String (Runes "q" false) = "ctrl+c")
  /\ Update filtering_three (keyMsg (Runes "q" false))
     = Some (filtering_three, CmdQuit).
Proof.
  split; [left; reflexivity|].
  apply (proj1 quit_keys_first filtering_three (Runes "q" false)).
  left. reflexivity.
Defined.

(** C10, as stated, fails: the program reaches a filter state whose
    text contains the character q, typed within a key message whose
    string is not "q" (here the pasted word "quota"). *)
Lemma quit_keys_counterexample :
  reachable typed_quota
  /\ state typed_quota = StFilterInclude
  /\ input_Value (filterInput typed_quota) = "quota"
  /\ has_char "q" (input_Value (filterInput typed_quota)) = true.
Proof.
  split; [|vm_compute; done].
  apply (run_reachable
           [startScanMsg; analysisCompleteMsg [secret "quota-service"] None;
            key "/"; key "quota"] (initialModel None));
    [apply reachable_init | vm_compute; reflexivity].
Qed.

End QuitExamples.

(** ** Batch delete *)

Lemma append_nil_r (s : string) : s +:+ "" = s.
Proof.
  induction s as [|c s' IH]; [done|].
  change (String c (s' +:+ "") = String c s'). by rewrite IH.
Qed.

Lemma append_assoc (a b c : string) : (a +:+ b) +:+ c = a +:+ (b +:+ c).
Proof.
  induction a as [|x a' IH]; [done|].
  change (String x ((a' +:+ b) +:+ c) = String x (a' +:+ (b +:+ c))).
  by rewrite IH.
Qed.

Lemma length_append (a b : string) :
  String.length (a +:+ b) = (String.length a + String.length b)%nat.
Proof.
  induction a as [|x a' IH]; [done|].
  change (S (String.length (a' +:+ b))
          = S (String.length a' + String.length b)). by rewrite IH.
Qed.

Lemma marked_nil_r (b : bool) (rs : list SecretResult) : marked b rs [] = [].
Proof. by destruct rs. Qed.

Lemma marked_cons (b sel : bool) (r : SecretResult) rs sels :
  marked b (r :: rs) (sel :: sels)
  = if Bool.eqb sel b then r :: marked b rs sels else marked b rs sels.
Proof. unfold marked. simpl. by destruct (Bool.eqb sel b). Qed.

Lemma marked_elem_of (b : bool) (rs : list SecretResult) (sels : list bool)
    (r : SecretResult) :
  r ∈ marked b rs sels -> r ∈ rs.
Proof.
  revert sels. induction rs as [|r0 rs IH]; intros [|sel sels] Hin;
    try by (rewrite ?marked_nil_r in Hin; apply elem_of_nil in Hin).
  rewrite marked_cons in Hin. destruct (Bool.eqb sel b).
  - apply elem_of_cons in Hin as [-> | Hin]; [left | right; eauto].
  - right. eauto.
Qed.

(** A record marked for deletion is not among the records kept, when
    no record is listed twice. *)
Lemma marked_disjoint (rs : list SecretResult) (sels : list bool)
    (r : SecretResult) :
  NoDup rs -> r ∈ marked true rs sels -> r ∉ marked false rs sels.
Proof.
  revert sels. induction rs as [|r0 rs IH]; intros [|sel sels] Hnd Hin;
    try by (rewrite ?marked_nil_r in Hin; apply elem_of_nil in Hin).
  apply NoDup_cons in Hnd as [Hr0 Hnd].
  rewrite marked_cons in Hin. rewrite marked_cons. destruct sel; simpl in *.
  - apply elem_of_cons in Hin as [-> | Hin]; [|by apply IH].
    intros Hkept. apply Hr0. by eapply marked_elem_of.
  - intros Hkept. apply elem_of_cons in Hkept as [-> | Hkept].
    + apply Hr0. by eapply marked_elem_of.
    + by apply (IH sels Hnd Hin).
Qed.


Section DeleteLoops.
Context `{Unicode, Bubbles, Host, SecretsClient}.

(** The loop of the completion handler keeps the unselected records. *)
Lemma remove_selected_marked (sels : list bool) (rs : list SecretResult)
    (i : nat) (acc1 : list SecretResult) (acc2 : list bool) :
  (i + length sels <= length rs)%nat ->
  remove_selected rs i sels acc1 acc2
  = Some (acc1 ++ marked false (drop i rs) sels,
          acc2 ++ make_bools (length (marked false (drop i rs) sels))).
Proof.
  revert i acc1 acc2. induction sels as [|sel sels IH]; intros i acc1 acc2 Hlen.
  - simpl. by rewrite marked_nil_r, !app_nil_r.
  - simpl in Hlen.
    destruct (lookup_lt_is_Some_2 rs i ltac:(lia)) as [r Hr].
    rewrite (drop_S _ _ _ Hr), marked_cons. simpl. destruct sel; simpl.
    + apply IH. lia.
    + rewrite Hr. simpl. rewrite IH by lia.
      by rewrite <- !app_assoc.
Qed.

(** The loop of the delete command, run from index [i] to its end with
    no message handled in between, calls the store once for every
    record whose mask entry is set, in order, and collects the
    failures. *)
Lemma iterate_run (m : model) (sl ol : bool) (msk : list bool)
    (rs : list SecretResult) (k i : nat) (e : string) (st : Store) :
  (i + k = length msk)%nat -> (length msk <= length rs)%nat ->
  deleting_run
    {| live := m; live_selected := sl; live_original := ol; cmd_mask := msk;
       cmd_results := rs; cmd_next := i; cmd_errStr := e; cmd_store := st |}
    (replicate k Iterate)
  = Some
      {| live := m; live_selected := sl; live_original := ol;
         cmd_mask := msk; cmd_results := rs; cmd_next := length msk;
         cmd_errStr :=
           e +:+ failure_text
                   (failures
                      (delete_calls
                         (Name <$> marked true (drop i rs) (drop i msk))
                         st).1);
         cmd_store :=
           (delete_calls (Name <$> marked true (drop i rs) (drop i msk))
              st).2 |}.
Proof.
  revert i e st. induction k as [|k IH]; intros i e st Hi Hlen.
  - rewrite (drop_ge msk) by lia. rewrite marked_nil_r. simpl.
    rewrite append_nil_r. by replace i with (length msk) by lia.
  - destruct (lookup_lt_is_Some_2 msk i ltac:(lia)) as [sel Hsel].
    destruct (lookup_lt_is_Some_2 rs i ltac:(lia)) as [r Hr].
    rewrite (drop_S _ _ _ Hr), (drop_S _ _ _ Hsel), marked_cons.
    cbn [replicate deleting_run deleting_step mbind option_bind cmd_mask
         cmd_next cmd_results cmd_store cmd_errStr live live_selected
         live_original].
    rewrite Hsel. cbn [mbind option_bind]. unfold performDelete_body.
    destruct sel; cbn [Bool.eqb].
    + rewrite Hr. cbn [mbind option_bind fmap list_fmap delete_calls].
      destruct (DeleteSecret (Name r) st) as [st' [err|]] eqn:Hdel;
        cbn [mbind option_bind]; rewrite IH by lia;
        destruct (delete_calls _ st') as [calls st''];
        cbn [fst snd failures omap failure_text foldr]; [|done].
      by rewrite !append_assoc.
    + cbn [mbind option_bind]. by rewrite IH by lia.
Qed.


(** The delete command issued by a model with an aligned mask and run
    while the program handles no message. *)
Lemma performDelete_calls (m : model) (store : Store) :
  mask_aligned m ->
  deleting_run (start_delete m store)
    (replicate (length (selected m)) Iterate)
  = Some
      {| live := m; live_selected := true;
         live_original := selectedShared m; cmd_mask := selected m;
         cmd_results := results m; cmd_next := length (selected m);
         cmd_errStr :=
           failure_text
             (failures
                (delete_calls
                   (Name <$> marked true (results m) (selected m)) store).1);
         cmd_store :=
           (delete_calls (Name <$> marked true (results m) (selected m))
              store).2 |}.
Proof.
  intros Hal. unfold start_delete.
  rewrite (iterate_run m true (selectedShared m) (selected m) (results m)
             (length (selected m)) 0 "" store)
    by (unfold mask_aligned in Hal; lia).
  by rewrite !drop_0.
Qed.



(** The completion handler on a model whose mask is aligned. *)
Lemma deleteComplete_ok (m : model) :
  mask_aligned m ->
  exists m',
    Update m (deleteCompleteMsg None) = Some (m', CmdNil)
    /\ state m' = StResults
    /\ results m' = marked false (results m) (selected m)
    /\ baseResults m' = results m'
    /\ selected m' = make_bools (length (results m'))
    /\ deleteError m' = deleteError m.
Proof.
  intros Hal. unfold Update, update_deleteComplete.
  rewrite (remove_selected_marked (selected m) (results m) 0 [] [])
    by (unfold mask_aligned in Hal; lia).
  rewrite drop_0. simpl. eauto 10.
Qed.

Lemma deleteComplete_failed (m : model) (e : string) :
  exists m',
    Update m (deleteCompleteMsg (Some e)) = Some (m', CmdNil)
    /\ state m' = StResults
    /\ deleteError m' = e
    /\ results m' = results m
    /\ baseResults m' = baseResults m
    /\ selected m' = selected m.
Proof. unfold Update, update_deleteComplete. simpl. eauto 10. Qed.

End DeleteLoops.

(** ** The length of the mask *)

Section MaskLength.
Context `{Unicode, Bubbles, Host}.

Lemma length_make_bools (n : nat) : length (make_bools n) = n.
Proof. apply length_replicate. Qed.

Lemma results_action_aligned (m core : model) :
  state m = StResults -> mask_aligned m -> results_action m core ->
  aligned core.
Proof.
  unfold aligned, mask_aligned. intros Hs Hal Hcore.
  destruct Hcore as [ | filtered | core c Hopen | core Htoggle |
                      | core c Hcopy | st Hfs | ].
  - rewrite Hs. done.
  - simpl. done.
  - apply open_secret_fields in Hopen as (-> & -> & _ & -> & _). done.
  - apply toggle_selection_fields in Htoggle
      as (-> & -> & _ & _ & _ & _ & [-> | (i & b & _ & ->)]);
      rewrite Hs; [done|]. by rewrite length_insert.
  - unfold request_delete. destruct hasSelected; simpl; rewrite ?Hs; done.
  - apply copy_name_fields in Hcopy as (-> & -> & _ & -> & _).
    rewrite Hs. done.
  - unfold open_filter. simpl. done.
  - unfold clear_filter. destruct hasFilter; simpl; rewrite Hs; [|done].
    by rewrite length_make_bools.
Qed.

(** Every step but the completion of a failed scan keeps the mask as
    long as the results. *)
Lemma aligned_step (m m' : model) (msg : Msg) (cmd : Cmd) :
  aligned m -> not_failed_scan msg ->
  Update m msg = Some (m', cmd) -> aligned m'.
Proof.
  intros [Hal Horig] Hmsg HU.
  destruct msg as [k| |rs e|vs e|index value e|e| |tick|frame|].
  - apply update_key_cases in HU
      as [-> | [[Hs HU] | [[Hs HU] | [[Hs HU] | [Hs HU]]]]]; [done| | | |].
    + apply update_results_cases in HU as (core & Hcore & Hm').
      pose proof (results_action_aligned m core Hs Hal Hcore) as Hcore'.
      destruct Hm' as [-> | [t ->]]; done.
    + unfold aligned, mask_aligned in *.
      apply update_filter_fields in HU
        as (-> & -> & _ & _ & [(-> & -> & -> & _) | (_ & -> & Hstate)]).
      * split; [by apply Horig | done].
      * rewrite length_make_bools. split; [done|]. intros _. by apply Horig.
    + unfold aligned, mask_aligned in *.
      apply update_view_secret_fields in HU
        as (-> & _ & -> & -> & -> & _ & _ & [-> | ->]); [done|].
      rewrite Hs. done.
    + unfold aligned, mask_aligned in *.
      apply update_confirm_delete_fields in HU
        as (-> & _ & -> & -> & -> & _ & _ & [-> | ->]); [done|].
      rewrite Hs. done.
  - unfold Update in HU.
    destruct (negb (analyzer m)); injection HU as <- <-; done.
  - unfold Update in HU. injection HU as <- <-. destruct e; [done|].
    unfold aligned, mask_aligned.
    destruct (results_analysisComplete m rs None) as [-> _].
    rewrite selected_analysisComplete, state_analysisComplete.
    by rewrite length_make_bools.
  - unfold Update in HU. destruct e; injection HU as <- <-; done.
  - unfold Update in HU. destruct e.
    + injection HU as <- <-. done.
    + destruct in_bounds; [|done]. destruct (versions m !! _); [|done].
      simpl in HU. injection HU as <- <-. done.
  - destruct e as [e|].
    + destruct (deleteComplete_failed m e)
        as (n & Hn & Hst & _ & Hr & _ & Hsel).
      assert (n = m') as -> by congruence.
      unfold aligned, mask_aligned. rewrite Hr, Hsel, Hst. done.
    + destruct (deleteComplete_ok m Hal) as (n & Hn & Hst & _ & _ & Hsel & _).
      assert (n = m') as -> by congruence.
      unfold aligned, mask_aligned. rewrite Hsel, Hst.
      by rewrite length_make_bools.
  - unfold Update in HU. injection HU as <- <-. done.
  - unfold Update in HU. destruct spinner_Update. injection HU as <- <-. done.
  - unfold Update in HU. destruct progress_Update. injection HU as <- <-. done.
  - unfold Update in HU. injection HU as <- <-. done.
Qed.

(** Committing a filter leaves a mask of the length of the filtered
    results, with every entry false. *)
Lemma filter_commit_mask (m : model) (k : KeyMsg) :
  is_filter_state (state m) = true -> key_String k = "enter" ->
  exists m',
    Update m (keyMsg k) = Some (m', CmdNil)
    /\ state m' = StResults /\ hasFilter m' = true
    /\ length (selected m') = length (results m')
    /\ Forall (fun sel => sel = false) (selected m').
Proof.
  intros Hst Hk. unfold Update, update_key. rewrite Hk. simpl.
  destruct (state m) eqn:Hs; try discriminate Hst;
    unfold update_filter; destruct (input_Update k (filterInput m));
    simpl; eexists; (split; [reflexivity|]); simpl;
    rewrite length_make_bools; split_and!; try done;
    apply Forall_replicate; done.
Qed.

(** The completion of a failed scan replaces the results and keeps the
    mask. *)
Lemma failed_scan_keeps_mask (m : model) (rs : list SecretResult) (e : string) :
  Update m (analysisCompleteMsg rs (Some e))
  = Some (update_analysisComplete m rs (Some e), CmdNil)
  /\ results (update_analysisComplete m rs (Some e)) = rs
  /\ selected (update_analysisComplete m rs (Some e)) = selected m.
Proof. done. Qed.

End MaskLength.

Section MaskLengthExamples.
Import Ref.

(** C6, on the code: the program reaches a model whose mask is longer
    than its results.  A scan finds one record; the rescan fails; the
    completion of the failed scan empties the results and keeps the mask
    of length one.  The row can then still be selected and its deletion
    confirmed, and the delete command reads a record that is not there
    (a run-time panic). *)
Theorem failed_rescan_misaligns_mask :
  run (initialModel None) failed_rescan_msgs = Some after_failed_rescan
  /\ reachable after_failed_rescan
  /\ state after_failed_rescan = StResults
  /\ length (results after_failed_rescan) = 0%nat
  /\ length (selected after_failed_rescan) = 1%nat
  /\ ~ mask_aligned after_failed_rescan
  /\ exists m' m'',
       run after_failed_rescan [special " "; key "D"] = Some m'
       /\ state m' = StConfirmDelete
       /\ Update m' (key "y") = Some (m'', CmdPerformDelete m'')
       /\ performDelete m'' beta_denied = None.
Proof.
  assert (run (initialModel None) failed_rescan_msgs
          = Some after_failed_rescan) as Hrun by (vm_compute; reflexivity).
  split; [exact Hrun|].
  split; [exact (run_reachable _ _ _ (reachable_init None) Hrun)|].
  split; [vm_compute; reflexivity|]. split; [vm_compute; reflexivity|].
  split; [vm_compute; reflexivity|]. split; [vm_compute; discriminate|].
  eexists _, _. split; [vm_compute; reflexivity|].
  split; [reflexivity|]. split; [vm_compute; reflexivity|].
  vm_compute. reflexivity.
Qed.

End MaskLengthExamples.

(** ** Delete: the command and its completion *)

Section DeleteClaims.
Context `{Unicode, Bubbles, Host, SecretsClient}.


(** C2 (as amended).  When a delete completes, the orchestrator goes to
    the results state.  A completion without error removes every
    selected record and its mask entry from the current ResultSet,
    leaves a mask of unselected entries, and leaves none of the removed
    records in the base set.  A completion with an error changes
    neither the current set, nor the base set, nor the mask: the
    records whose deletion failed stay listed and selected. *)
Theorem delete_complete_transition (m : model) :
  mask_aligned m ->
  (exists m',
     Update m (deleteCompleteMsg None) = Some (m', CmdNil)
     /\ state m' = StResults
     /\ results m' = marked false (results m) (selected m)
     /\ selected m' = make_bools (length (results m'))
     /\ (NoDup (results m) ->
         forall r, r ∈ marked true (results m) (selected m) ->
                   (r ∉ results m') /\ (r ∉ baseResults m')))
  /\ (forall e,
        exists m',
          Update m (deleteCompleteMsg (Some e)) = Some (m', CmdNil)
          /\ state m' = StResults
          /\ deleteError m' = e
          /\ results m' = results m
          /\ baseResults m' = baseResults m
          /\ selected m' = selected m).
Proof.
  intros Hal. split; [|apply deleteComplete_failed].
  destruct (deleteComplete_ok m Hal)
    as (m' & HU & Hst & Hres & Hbase & Hsel & _).
  exists m'. split_and!; try done.
  intros Hnd r Hr. rewrite Hbase, Hres.
  split; by apply marked_disjoint.
Qed.

End DeleteClaims.

Section DeleteExamples.
Import Ref.



Lemma delete_complete_transition_witness :
  mask_aligned three_two_selected
  /\ NoDup (results three_two_selected)
  /\ exists m',
       Update three_two_selected (deleteCompleteMsg None) = Some (m', CmdNil)
       /\ state m' = StResults
       /\ results m' = marked false (results three_two_selected)
                                    (selected three_two_selected)
       /\ selected m' = make_bools (length (results m'))
       /\ (NoDup (results three_two_selected) ->
           forall r,
             r ∈ marked true (results three_two_selected)
                             (selected three_two_selected) ->
             (r ∉ results m') /\ (r ∉ baseResults m')).
Proof.
  split; [reflexivity|].
  split; [apply (bool_decide_unpack _); vm_compute; exact I|].
  apply (proj1 (delete_complete_transition three_two_selected eq_refl)).
Defined.

(** C2, as stated, fails: after a completion that carries an error the
    record whose delete succeeded ("alpha") is still in the current and
    in the base set; and after a completion without error under an
    active filter, a record of the base set that the filter hid
    ("prod/db") is no longer in the base set. *)
Lemma delete_complete_counterexample :
  (exists m',
     Update three_two_selected
            (deleteCompleteMsg (Some "beta: AccessDeniedException"))
     = Some (m', CmdNil)
     /\ (secret "alpha" ∈ results m') /\ (secret "alpha" ∈ baseResults m'))
  /\ (exists m',
        hasFilter deleting_filtered = true
        /\ (secret "prod/db" ∈ baseResults deleting_filtered)
        /\ (secret "prod/db" ∉ results deleting_filtered)
        /\ selected deleting_filtered = [true]
        /\ Update deleting_filtered (deleteCompleteMsg None)
           = Some (m', CmdNil)
        /\ baseResults m' = []).
Proof.
  split.
  - eexists. split; [vm_compute; reflexivity|].
    split; apply (bool_decide_unpack _); vm_compute; exact I.
  - eexists. split; [vm_compute; reflexivity|].
    split; [apply (bool_decide_unpack _); vm_compute; exact I|].
    split; [apply (bool_decide_unpack _); vm_compute; exact I|].
    split; [vm_compute; reflexivity|]. split; vm_compute; reflexivity.
Qed.

End DeleteExamples.

(** * Further properties of the program *)

(** ** Listing the secrets *)

Lemma substring_all (s : string) : String.substring 0 (String.length s) s = s.
Proof.
  induction s as [|c s' IH]; [done|].
  change (String c (String.substring 0 (String.length s') s') = String c s').
  by rewrite IH.
Qed.

Lemma substring_append_r (p t : string) :
  String.substring (String.length p) (String.length t) (p +:+ t) = t.
Proof.
  induction p as [|c p' IH]; [apply substring_all|].
  change (String.substring (String.length p') (String.length t) (p' +:+ t) = t).
  exact IH.
Qed.

Lemma substring_split (s : string) (n : nat) :
  (n <= String.length s)%nat ->
  s = String.substring 0 n s
      +:+ String.substring n (String.length s - n) s.
Proof.
  revert n. induction s as [|c s' IH]; intros n Hn.
  - simpl in Hn. assert (n = 0%nat) as -> by lia. done.
  - destruct n as [|n'].
    + change (String c s'
              = String c (String.substring 0 (String.length s') s')).
      by rewrite substring_all.
    + simpl in Hn.
      change (String c s'
              = String c (String.substring 0 n' s'
                          +:+ String.substring n' (String.length s' - n') s')).
      rewrite <- IH by lia. done.
Qed.

Lemma HasSuffix_spec (s suffix : string) :
  HasSuffix s suffix = true <-> exists prefix, s = prefix +:+ suffix.
Proof.
  unfold HasSuffix. rewrite andb_true_iff, Nat.leb_le, streq_eq. split.
  - intros [Hle Hsub].
    pose proof (substring_split s (String.length s - String.length suffix)
                  ltac:(lia)) as Hs.
    replace (String.length s - (String.length s - String.length suffix))%nat
      with (String.length suffix) in Hs by lia.
    rewrite Hsub in Hs. eauto.
  - intros [prefix ->]. rewrite length_append. split; [lia|].
    replace (String.length prefix + String.length suffix
             - String.length suffix)%nat
      with (String.length prefix) by lia.
    apply substring_append_r.
Qed.

Lemma list_entry_Some (secret : SecretListEntry) (entry : SecretEntry) :
  list_entry secret = Some entry <->
  aws_Name secret = Some (entry_Name entry)
  /\ aws_CreatedDate secret = Some (entry_CreatedDate entry)
  /\ aws_LastAccessedDate secret = entry_LastAccessedDate entry
  /\ HasSuffix (entry_Name entry) "-configuration" = false.
Proof.
  unfold list_entry. destruct secret as [[name|] [created|] accessed]; simpl.
  - destruct (HasSuffix name "-configuration") eqn:Hsuf; simpl.
    + split; [done|]. intros ([= <-] & _ & _ & Hno). congruence.
    + split.
      * intros [= <-]. done.
      * destruct entry as [n c a]. simpl. intros ([= ->] & [= ->] & -> & _).
        done.
  - destruct (HasSuffix name "-configuration"); simpl;
      (split; [done|]); intros (_ & ? & _); done.
  - split; [done|]. intros (? & _); done.
  - split; [done|]. intros (? & _); done.
Qed.

Lemma ListSecrets_pages_ok (pages : list (list SecretListEntry))
    (acc : list SecretEntry) :
  ListSecrets_pages (Ok <$> pages) acc
  = Ok (acc ++ omap list_entry (concat pages)).
Proof.
  revert acc. induction pages as [|page pages IH]; intros acc; simpl.
  - by rewrite app_nil_r.
  - rewrite IH, omap_app. by rewrite <- app_assoc.
Qed.

(** X1.  When every page of the listing arrives, [ListSecrets] returns,
    in listing order, exactly the secrets that have a name and a
    creation date and whose name does not end in "-configuration", each
    with the name and the dates of the listing. *)
Theorem ListSecrets_keeps_named_created (pages : list (list SecretListEntry)) :
  exists secrets,
    ListSecrets (Ok <$> pages) = Ok secrets
    /\ secrets = omap list_entry (concat pages)
    /\ (forall entry,
          entry ∈ secrets <->
          exists secret,
            secret ∈ concat pages
            /\ aws_Name secret = Some (entry_Name entry)
            /\ aws_CreatedDate secret = Some (entry_CreatedDate entry)
            /\ aws_LastAccessedDate secret = entry_LastAccessedDate entry
            /\ ~ (exists prefix,
                    entry_Name entry = prefix +:+ "-configuration")).
Proof.
  eexists. split; [apply (ListSecrets_pages_ok pages [])|]. split; [done|].
  intros entry. simpl. rewrite list_elem_of_omap.
  split; intros (secret & Hin & Hentry); exists secret; (split; [done|]).
  - apply list_entry_Some in Hentry as (Hn & Hc & Ha & Hsuf).
    split_and!; try done. rewrite <- HasSuffix_spec. congruence.
  - destruct Hentry as (Hn & Hc & Ha & Hsuf). apply list_entry_Some.
    split_and!; try done. rewrite <- HasSuffix_spec in Hsuf.
    by destruct (HasSuffix (entry_Name entry) "-configuration").
Qed.

(** X2.  When a page of the listing fails, [ListSecrets] returns the
    error of the first failing page, wrapped, and none of the secrets of
    the pages read before it. *)
Theorem ListSecrets_first_error (before : list (list SecretListEntry))
    (e : string) (after : list (result (list SecretListEntry))) :
  ListSecrets ((Ok <$> before) ++ Err e :: after)
  = Err ("failed to list secrets: " +:+ e).
Proof.
  unfold ListSecrets. generalize (@nil SecretEntry) as acc.
  induction before as [|page before IH]; intros acc; simpl; [done|].
  apply IH.
Qed.

(** ** More on the analyzer *)

Section AnalyzerMore.
Context `{TimeFormat}.

Lemma whole_days_mono (d d' : Z) : d <= d' -> whole_days d <= whole_days d'.
Proof.
  intros Hle. unfold whole_days. apply Z.quot_le_mono; [|done].
  vm_compute. reflexivity.
Qed.

Lemma stale_later (now now' : Z) (entry : SecretEntry) :
  now <= now' -> stale now entry -> stale now' entry.
Proof.
  unfold stale. rewrite !daysSinceAccess_age. intros Hle Hstale.
  assert (elapsed_age now entry <= elapsed_age now' entry) as Hage.
  { unfold elapsed_age, Since. destruct entry_LastAccessedDate; lia. }
  pose proof (whole_days_mono _ _ Hage). lia.
Qed.

Lemma filter_stale_later (now now' : Z) (entries : list SecretEntry) :
  now <= now' ->
  filter (stale now) entries `sublist_of` filter (stale now') entries.
Proof.
  intros Hle. induction entries as [|e entries IH]; [done|].
  rewrite !filter_cons. destruct (decide (stale now e)) as [Hs|Hs].
  - rewrite decide_True by (by eapply stale_later). by apply sublist_skip.
  - destruct (decide (stale now' e)); [by apply sublist_cons | done].
Qed.

(** X3.  For one listing and one clock reading, the scan with the
    recency filter reports a subsequence of what the scan without it
    reports, and the scan without it reports one record per listed
    secret. *)
Theorem AnalyzeSecrets_filtered_subsequence (now : Z)
    (entries : list SecretEntry) :
  exists filtered_results all_results,
    AnalyzeSecrets (Ok entries) now true = Ok filtered_results
    /\ AnalyzeSecrets (Ok entries) now false = Ok all_results
    /\ filtered_results `sublist_of` all_results
    /\ length all_results = length entries.
Proof.
  exists (to_result <$> filter (stale now) entries), (to_result <$> entries).
  unfold AnalyzeSecrets. destruct entries as [|e entries].
  - repeat split; done.
  - change (length (e :: entries) =? 0)%nat with false. cbv iota.
    rewrite analyze_entries_filtered, analyze_entries_all.
    split_and!; try done.
    + apply fmap_sublist, sublist_filter.
    + by rewrite length_fmap.
Qed.

(** X4.  Staleness only grows with time: on the same listing, a
    filtered scan at a later clock reading reports every record that
    an earlier filtered scan reported, in the same order. *)
Theorem AnalyzeSecrets_later_scan (now now' : Z) (entries : list SecretEntry) :
  now <= now' ->
  exists earlier later,
    AnalyzeSecrets (Ok entries) now true = Ok earlier
    /\ AnalyzeSecrets (Ok entries) now' true = Ok later
    /\ earlier `sublist_of` later.
Proof.
  intros Hle.
  exists (to_result <$> filter (stale now) entries),
         (to_result <$> filter (stale now') entries).
  unfold AnalyzeSecrets. destruct entries as [|e entries].
  - repeat split; done.
  - change (length (e :: entries) =? 0)%nat with false. cbv iota.
    rewrite !analyze_entries_filtered. split_and!; try done.
    by apply fmap_sublist, filter_stale_later.
Qed.

End AnalyzerMore.

Section AnalyzerMoreExamples.
Import Ref.

Lemma AnalyzeSecrets_later_scan_witness :
  10 * Day <= 20 * Day
  /\ exists earlier later,
       AnalyzeSecrets (Ok [never_accessed]) (10 * Day) true = Ok earlier
       /\ AnalyzeSecrets (Ok [never_accessed]) (20 * Day) true = Ok later
       /\ earlier `sublist_of` later.
Proof.
  split; [vm_compute; discriminate|].
  apply (AnalyzeSecrets_later_scan (10 * Day) (20 * Day) [never_accessed]).
  vm_compute; discriminate.
Defined.

End AnalyzerMoreExamples.

(** ** More on the fuzzy match *)

Section FuzzyMore.
Context `{Unicode}.

Lemma bytes_append (a b : string) : bytes (a +:+ b) = bytes a ++ bytes b.
Proof.
  unfold bytes. induction a as [|c a' IH]; [done|].
  change (byte_val c :: (byte_val <$> list_ascii_of_string (a' +:+ b))
          = byte_val c :: ((byte_val <$> list_ascii_of_string a') ++
                           (byte_val <$> list_ascii_of_string b))).
  by rewrite IH.
Qed.

Lemma length_bytes (s : string) : length (bytes s) = String.length s.
Proof.
  unfold bytes. rewrite length_fmap.
  induction s as [|c s' IH]; [done|]. simpl. by rewrite IH.
Qed.

Lemma isASCII_app (p1 p2 : list Z) :
  isASCII (p1 ++ p2) = isASCII p1 && isASCII p2.
Proof. unfold isASCII. apply forallb_app. Qed.

Lemma ToLower_ascii_map (p : list Z) :
  isASCII p = true -> ToLower p = lowerASCII <$> p.
Proof.
  intros Ha. unfold ToLower. rewrite Ha.
  destruct (hasUpper p) eqn:Hup; [done|].
  unfold hasUpper in Hup. induction p as [|c p IH]; [done|].
  simpl in Hup, Ha. apply orb_false_iff in Hup as [Hc Hup].
  apply andb_true_iff in Ha as [_ Ha].
  rewrite fmap_cons. unfold lowerASCII at 1. rewrite Hc. f_equal. by apply IH.
Qed.

(** On ASCII strings the match is the subsequence test on the bytes
    lowered one by one. *)
Lemma isFuzzyMatch_ascii (query target : string) :
  ascii_only query -> ascii_only target ->
  isFuzzyMatch query target = true <->
  (lowerASCII <$> bytes query) `sublist_of` (lowerASCII <$> bytes target).
Proof.
  intros Hq Ht. rewrite isFuzzyMatch_bytes. unfold lower_runes, lower_bytes.
  rewrite (runes_ascii (ToLower (bytes query))) by (by apply ToLower_ascii).
  by rewrite !ToLower_ascii_map.
Qed.

Lemma filter_sublist_impl {A} (f g : A -> bool) (l : list A) :
  (forall x, x ∈ l -> f x = true -> g x = true) ->
  List.filter f l `sublist_of` List.filter g l.
Proof.
  induction l as [|x l IH]; intros Himpl; [done|]. simpl.
  assert (List.filter f l `sublist_of` List.filter g l) as IH'.
  { apply IH. intros y Hy. apply Himpl. by right. }
  destruct (f x) eqn:Hf.
  - rewrite (Himpl x) by (done || left). by apply sublist_skip.
  - destruct (g x); [by apply sublist_cons | done].
Qed.

Lemma keeps_include (q : string) (res : SecretResult) :
  keeps StFilterInclude q res = isFuzzyMatch q (Name res).
Proof. unfold keeps. by destruct (isFuzzyMatch q (Name res)). Qed.

Lemma keeps_exclude (q : string) (res : SecretResult) :
  keeps StFilterExclude q res = negb (isFuzzyMatch q (Name res)).
Proof. unfold keeps. by destruct (isFuzzyMatch q (Name res)). Qed.

(** X5.  Typing on narrows an include filter: for ASCII text, a target
    matched by a query that was extended is matched by the query before
    the extension, so each further keystroke shows a subsequence of the
    previous include preview, and the previous exclude preview is a
    subsequence of the next. *)
Theorem previewFilter_narrows (query more : string)
    (baseline : list SecretResult) :
  ascii_only (query +:+ more) ->
  Forall (fun res => ascii_only (Name res)) baseline ->
  (forall res, res ∈ baseline ->
     isFuzzyMatch (query +:+ more) (Name res) = true ->
     isFuzzyMatch query (Name res) = true)
  /\ previewFilter StFilterInclude (query +:+ more) baseline
     `sublist_of` previewFilter StFilterInclude query baseline
  /\ previewFilter StFilterExclude query baseline
     `sublist_of` previewFilter StFilterExclude (query +:+ more) baseline.
Proof.
  intros Hq Hbase. unfold ascii_only in Hq.
  rewrite bytes_append, isASCII_app in Hq.
  apply andb_true_iff in Hq as [Hq Hmore].
  assert (forall res, ascii_only (Name res) ->
            isFuzzyMatch (query +:+ more) (Name res) = true ->
            isFuzzyMatch query (Name res) = true) as Hnarrow.
  { intros res Hres.
    rewrite !isFuzzyMatch_ascii; try done.
    - rewrite bytes_append, fmap_app. intros Hsub.
      etrans; [|exact Hsub]. by apply sublist_inserts_r.
    - unfold ascii_only. rewrite bytes_append, isASCII_app. by rewrite Hq. }
  split.
  { intros res Hin. apply Hnarrow.
    by apply (proj1 (Forall_forall _ _) Hbase). }
  rewrite !previewFilter_filter. split; apply filter_sublist_impl.
  - intros res Hin. rewrite !keeps_include. apply Hnarrow.
    by apply (proj1 (Forall_forall _ _) Hbase).
  - intros res Hin. rewrite !keeps_exclude.
    destruct (isFuzzyMatch (query +:+ more) (Name res)) eqn:Hm; [|done].
    rewrite (Hnarrow res); [done| |done].
    by apply (proj1 (Forall_forall _ _) Hbase).
Qed.

(** X6.  An ASCII name is matched by itself as query, and no ASCII
    query longer than an ASCII target matches it. *)
Theorem isFuzzyMatch_self_and_length :
  (forall target, ascii_only target -> isFuzzyMatch target target = true)
  /\ (forall query target,
        ascii_only query -> ascii_only target ->
        (String.length target < String.length query)%nat ->
        isFuzzyMatch query target = false).
Proof.
  split.
  - intros target Ht. by apply isFuzzyMatch_ascii.
  - intros query target Hq Ht Hlen.
    destruct (isFuzzyMatch query target) eqn:Hm; [|done].
    apply isFuzzyMatch_ascii in Hm; [|done..].
    apply sublist_length in Hm. rewrite !length_fmap, !length_bytes in Hm. lia.
Qed.

End FuzzyMore.

Section FuzzyMoreExamples.
Import Ref.

Lemma previewFilter_narrows_witness :
  ascii_only ("pr" +:+ "od")
  /\ Forall (fun res => ascii_only (Name res)) (results filtering_three)
  /\ previewFilter StFilterInclude ("pr" +:+ "od") (results filtering_three)
     `sublist_of` previewFilter StFilterInclude "pr" (results filtering_three).
Proof.
  split; [reflexivity|].
  assert (Forall (fun res => ascii_only (Name res)) (results filtering_three))
    as Hbase by (repeat constructor).
  split; [exact Hbase|].
  apply (previewFilter_narrows "pr" "od" (results filtering_three));
    [reflexivity | exact Hbase].
Defined.

Lemma isFuzzyMatch_self_and_length_witness :
  ascii_only "prod/db" /\ isFuzzyMatch "prod/db" "prod/db" = true.
Proof.
  split; [reflexivity|].
  apply (proj1 isFuzzyMatch_self_and_length "prod/db"). reflexivity.
Defined.

End FuzzyMoreExamples.

(** ** More on the filter previews *)

Section PreviewMore.
Context `{Unicode, Bubbles, Host}.

Lemma filter_complement_Permutation {A} (f : A -> bool) (l : list A) :
  List.filter f l ++ List.filter (fun x => negb (f x)) l ≡ₚ l.
Proof.
  induction l as [|x l IH]; [done|]. simpl. destruct (f x); simpl.
  - by rewrite IH.
  - rewrite <- Permutation_middle. by rewrite IH.
Qed.

Lemma filter_sublist_bool {A} (f : A -> bool) (l : list A) :
  List.filter f l `sublist_of` l.
Proof.
  induction l as [|x l IH]; [done|]. simpl.
  destruct (f x); [by apply sublist_skip | by apply sublist_cons].
Qed.

(** X7.  For one text, the include and the exclude preview split the
    snapshot: each is a subsequence of it, a record is in the include
    preview exactly when its name matches and in the exclude preview
    exactly when it does not, and the two together are a rearrangement
    of the snapshot. *)
Theorem previewFilter_partition (filter_text : string)
    (baseline : list SecretResult) :
  previewFilter StFilterInclude filter_text baseline `sublist_of` baseline
  /\ previewFilter StFilterExclude filter_text baseline `sublist_of` baseline
  /\ (forall res,
        res ∈ previewFilter StFilterInclude filter_text baseline <->
        res ∈ baseline /\ isFuzzyMatch filter_text (Name res) = true)
  /\ (forall res,
        res ∈ previewFilter StFilterExclude filter_text baseline <->
        res ∈ baseline /\ isFuzzyMatch filter_text (Name res) = false)
  /\ previewFilter StFilterInclude filter_text baseline
       ++ previewFilter StFilterExclude filter_text baseline
     ≡ₚ baseline.
Proof.
  rewrite !previewFilter_filter.
  split; [apply filter_sublist_bool|]. split; [apply filter_sublist_bool|].
  split; [|split].
  - intros res. by rewrite !list_elem_of_In, filter_In, keeps_include.
  - intros res. rewrite !list_elem_of_In, filter_In, keeps_exclude.
    by rewrite negb_true_iff.
  - rewrite (filter_ext (keeps StFilterInclude filter_text)
               (fun res => isFuzzyMatch filter_text (Name res)))
      by (intros res; apply keeps_include).
    rewrite (filter_ext (keeps StFilterExclude filter_text)
               (fun res => negb (isFuzzyMatch filter_text (Name res))))
      by (intros res; apply keeps_exclude).
    apply filter_complement_Permutation.
Qed.

Lemma filter_all {A} (f : A -> bool) (l : list A) :
  (forall x, f x = true) -> List.filter f l = l.
Proof.
  intros Hall. induction l as [|x l IH]; [done|]. simpl.
  by rewrite Hall, IH.
Qed.

Lemma filter_none {A} (f : A -> bool) (l : list A) :
  (forall x, f x = false) -> List.filter f l = [].
Proof.
  intros Hnone. induction l as [|x l IH]; [done|]. simpl. by rewrite Hnone.
Qed.

(** X8.  While the filter text is empty, the preview of an include
    session is the whole snapshot and the preview of an exclude session
    is empty: a keystroke of a filter session that leaves the text
    empty shows exactly that. *)
Theorem empty_filter_text_preview (m : model) (k : KeyMsg) :
  is_filter_state (state m) = true -> filter_key k = true ->
  input_Value (input_Update k (filterInput m)).1 = "" ->
  exists m' cmd,
    Update m (keyMsg k) = Some (m', cmd)
    /\ state m' = state m
    /\ results m'
       = (if bool_decide (state m = StFilterInclude)
          then originalResults m else [])
    /\ selected m' = make_bools (length (results m')).
Proof.
  intros Hst Hk Hempty.
  destruct (filter_keystroke m k Hst Hk)
    as (m' & cmd & HU & Hs & Hin & Hres & Hsel & _).
  exists m', cmd. split_and!; try done.
  rewrite Hres, Hin, Hempty, previewFilter_filter.
  destruct (state m) eqn:Hstate; try discriminate Hst; simpl.
  - apply filter_all. intros res. by rewrite keeps_include.
  - apply filter_none. intros res. by rewrite keeps_exclude.
Qed.

End PreviewMore.

Section PreviewMoreExamples.
Import Ref.

Lemma empty_filter_text_preview_witness :
  is_filter_state (state filtering_three) = true
  /\ filter_key (Special "backspace") = true
  /\ input_Value (input_Update (Special "backspace")
                               (filterInput filtering_three)).1 = ""
  /\ exists m' cmd,
       Update filtering_three (keyMsg (Special "backspace")) = Some (m', cmd)
       /\ state m' = state filtering_three
       /\ results m'
          = (if bool_decide (state filtering_three = StFilterInclude)
             then originalResults filtering_three else [])
       /\ selected m' = make_bools (length (results m')).
Proof.
  split; [reflexivity|]. split; [reflexivity|]. split; [reflexivity|].
  apply (empty_filter_text_preview filtering_three (Special "backspace"));
    reflexivity.
Defined.

End PreviewMoreExamples.

(** ** States without key handling *)

Section Idle.
Context `{Unicode, Bubbles, Host}.

Lemma idle_key (m : model) (k : KeyMsg) :
  idle_state (state m) = true ->
  Update m (keyMsg k) = Some (m, if quit_key k then CmdQuit else CmdNil).
Proof.
  intros Hidle. unfold Update, update_key, quit_key.
  destruct ((key_String k == "q") || (key_String k == "ctrl+c")); [done|].
  by destruct (state m).
Qed.

Lemma idle_keys (keys : list KeyMsg) (m : model) :
  idle_state (state m) = true -> run m (keyMsg <$> keys) = Some m.
Proof.
  intros Hidle. induction keys as [|k keys IH]; [done|].
  rewrite fmap_cons, run_cons, idle_key by done. simpl. exact IH.
Qed.

(** X9.  In the banner, scanning and error states a key changes
    nothing: the quit keys quit, every other key is ignored.  When the
    analyzer could not be created, the scan request ends in the error
    state without issuing a scan, and no sequence of keys leaves that
    state. *)
Theorem idle_states_ignore_keys :
  (forall (m : model) (k : KeyMsg),
     idle_state (state m) = true ->
     Update m (keyMsg k) = Some (m, if quit_key k then CmdQuit else CmdNil))
  /\ (forall (m : model) (keys : list KeyMsg),
        analyzer m = false ->
        exists failed,
          Update m startScanMsg = Some (failed, CmdNil)
          /\ state failed = StError
          /\ run failed (keyMsg <$> keys) = Some failed).
Proof.
  split; [apply idle_key|].
  intros m keys Hnil. exists (set_state StError m).
  unfold Update. rewrite Hnil. simpl. split; [done|]. split; [done|].
  by apply idle_keys.
Qed.

End Idle.

Section IdleExamples.
Import Ref RefMore.

Lemma idle_states_ignore_keys_witness :
  idle_state (state (initialModel (Some "no credentials"))) = true
  /\ analyzer (initialModel (Some "no credentials")) = false
  /\ Update (initialModel (Some "no credentials")) (key "D")
     = Some (initialModel (Some "no credentials"),
             if quit_key (typed "D") then CmdQuit else CmdNil)
  /\ exists failed,
       Update (initialModel (Some "no credentials")) startScanMsg
       = Some (failed, CmdNil)
       /\ state failed = StError
       /\ run failed
              (keyMsg <$> [typed "r"; named "enter"])
          = Some failed.
Proof.
  split; [reflexivity|]. split; [reflexivity|].
  split.
  - apply (proj1 idle_states_ignore_keys
             (initialModel (Some "no credentials")) (typed "D")).
    reflexivity.
  - apply (proj2 idle_states_ignore_keys
             (initialModel (Some "no credentials"))
             [typed "r"; named "enter"]).
    reflexivity.
Defined.

End IdleExamples.

(** ** Requesting and aborting a delete *)

Section DeleteRequest.
Context `{Unicode, Bubbles, Host}.

Lemma request_delete_key (m : model) (k : KeyMsg) :
  state m = StResults -> key_String k = "D" ->
  Update m (keyMsg k)
  = Some (set_table (table_Update k (table (request_delete m))).1
                    (request_delete m),
          CmdWidget (table_Update k (table (request_delete m))).2).
Proof.
  intros Hst Hk. unfold Update, update_key, update_results.
  rewrite Hk, Hst. simpl. by destruct (table_Update k _).
Qed.

(** X10.  The delete key in the results state asks for confirmation
    exactly when a record is selected; otherwise it changes nothing but
    what the table widget does with the key.  In the confirmation "n"
    and escape go back to the results with the sets, the mask and the
    filter flag as they were and the delete error cleared, and issue no
    command; any key other than these, "y" and the quit keys is
    ignored. *)
Theorem delete_request_and_abort (m : model) (k : KeyMsg) :
  state m = StResults -> key_String k = "D" ->
  exists asked cmd,
    Update m (keyMsg k) = Some (asked, cmd)
    /\ results asked = results m /\ selected asked = selected m
    /\ baseResults asked = baseResults m /\ hasFilter asked = hasFilter m
    /\ state asked
       = (if hasSelected (selected m) then StConfirmDelete else StResults)
    /\ (hasSelected (selected m) = true ->
        (forall abort,
           key_String abort = "n" \/ key_String abort = "esc" ->
           exists back,
             Update asked (keyMsg abort) = Some (back, CmdNil)
             /\ state back = StResults
             /\ results back = results m /\ selected back = selected m
             /\ baseResults back = baseResults m
             /\ hasFilter back = hasFilter m
             /\ confirmDelete back = false /\ deleteError back = "")
        /\ (forall other,
              quit_key other = false ->
              key_String other <> "y" -> key_String other <> "n" ->
              key_String other <> "esc" ->
              Update asked (keyMsg other) = Some (asked, CmdNil))).
Proof.
  intros Hst Hk. rewrite (request_delete_key m k Hst Hk).
  eexists _, _. split; [reflexivity|].
  unfold request_delete. destruct (hasSelected (selected m)) eqn:Hsel; simpl.
  - split_and!; try done. intros _. split.
    + intros abort Habort. unfold Update, update_key. simpl.
      destruct Habort as [-> | ->]; simpl; eexists;
        (split; [reflexivity|]); done.
    + intros other Hq Hy Hn Hesc. unfold Update, update_key.
      unfold quit_key in Hq. rewrite Hq. simpl.
      unfold update_confirm_delete.
      destruct (key_String other == "y") eqn:Ey;
        [by apply streq_eq in Ey|].
      destruct (key_String other == "n") eqn:En;
        [by apply streq_eq in En|].
      destruct (key_String other == "esc") eqn:Eesc;
        [by apply streq_eq in Eesc|].
      done.
  - split_and!; done.
Qed.

End DeleteRequest.

Section DeleteRequestExamples.
Import Ref RefMore.

Lemma delete_request_and_abort_witness :
  state five_rows_second_selected = StResults
  /\ key_String (typed "D") = "D"
  /\ hasSelected (selected five_rows_second_selected) = true
  /\ exists asked cmd back,
       Update five_rows_second_selected (key "D") = Some (asked, cmd)
       /\ state asked = StConfirmDelete
       /\ Update asked (key "n") = Some (back, CmdNil)
       /\ state back = StResults
       /\ selected back = selected five_rows_second_selected.
Proof.
  split; [reflexivity|]. split; [reflexivity|]. split; [reflexivity|].
  destruct (delete_request_and_abort five_rows_second_selected
              (typed "D") eq_refl eq_refl)
    as (asked & cmd & HU & _ & _ & _ & _ & Hst & Hsel).
  destruct (proj1 (Hsel eq_refl) (typed "n")
              (or_introl eq_refl))
    as (back & HU' & Hst' & _ & Hsel' & _).
  exists asked, cmd, back. split_and!; done.
Defined.

End DeleteRequestExamples.

(** ** The detail view *)

Section DetailView.
Context `{Unicode, Bubbles, Host, TimeFormat, DateTimeFormat, SecretsReader}.

(** X11.  Enter on a row of the results opens the detail view of that
    record and asks for its versions; when they arrive they are shown;
    escape then goes back to the results, drops the versions and the
    name, puts the table cursor back on the row and leaves the sets,
    the mask and the filter flag as they were. *)
Theorem view_secret_round_trip (m : model) (enter esc : KeyMsg) (i : nat)
    (res : SecretResult) (vs : list VersionInfo) :
  state m = StResults ->
  key_String enter = "enter" -> key_String esc = "esc" ->
  table_Cursor (table m) = Z.of_nat i -> results m !! i = Some res ->
  exists viewing shown back,
    Update m (keyMsg enter) = Some (viewing, CmdFetchVersions viewing)
    /\ state viewing = StViewSecret
    /\ viewingSecret viewing = Name res
    /\ Update viewing (versionsFetchedMsg vs None) = Some (shown, CmdNil)
    /\ state shown = StViewSecret /\ versions shown = vs
    /\ Update shown (keyMsg esc) = Some (back, CmdNil)
    /\ state back = StResults
    /\ versions back = [] /\ viewingSecret back = ""
    /\ table back = table_SetCursor (Z.of_nat i) (table m)
    /\ results back = results m /\ selected back = selected m
    /\ baseResults back = baseResults m /\ hasFilter back = hasFilter m.
Proof.
  intros Hst Henter Hesc Hcur Hres.
  assert (open_secret m
          = Some (set_state StViewSecret
                    (set_viewingSecret (Name res)
                       (set_lastCursorPos (Z.of_nat i) m)),
                  CmdFetchVersions
                    (set_state StViewSecret
                       (set_viewingSecret (Name res)
                          (set_lastCursorPos (Z.of_nat i) m))))) as Hopen.
  { unfold open_secret.
    rewrite Hcur, in_bounds_of_nat, bool_decide_eq_true_2
      by (by eapply lookup_lt_Some).
    by rewrite Nat2Z.id, Hres. }
  eexists _, _, _. split.
  { unfold Update, update_key, update_results. rewrite Henter, Hst. simpl.
    rewrite Hopen. reflexivity. }
  split; [done|]. split; [done|]. split; [reflexivity|].
  split; [done|]. split; [done|]. split.
  { unfold Update, update_key, update_view_secret. rewrite Hesc. simpl.
    reflexivity. }
  split_and!; done.
Qed.

Lemma ListSecretVersions_pages_ok
    (pages : list (list SecretVersionsListEntry)) acc :
  ListSecretVersions_pages (Ok <$> pages) acc = Ok (acc ++ concat pages).
Proof.
  revert acc. induction pages as [|page pages IH]; intros acc; simpl.
  - by rewrite app_nil_r.
  - rewrite IH. by rewrite <- app_assoc.
Qed.

Lemma ListSecretVersions_pages_error
    (before : list (list SecretVersionsListEntry)) (e : string) after acc :
  ListSecretVersions_pages ((Ok <$> before) ++ Err e :: after) acc
  = Err ("failed to list secret versions: " +:+ e).
Proof.
  revert acc. induction before as [|page before IH]; intros acc; [done|].
  apply IH.
Qed.

Lemma version_info_masked (raw : SecretVersionsListEntry) (v : VersionInfo) :
  version_info raw = Some v ->
  ver_VersionId raw = Some (VersionId v) /\ is_masked v
  /\ Stages v = Join (ver_VersionStages raw) ", ".
Proof.
  unfold version_info. destruct (ver_VersionId raw) as [id|]; [|done].
  simpl. intros [= <-]. done.
Qed.

(** X12.  The version listing of the viewed secret, when every page
    arrives and every version has an id, is delivered as one message
    with one version per listed version, in listing order, each with
    its id, its stage labels joined by ", ", its value masked and not
    revealed; the model then holds exactly these versions. *)
Theorem fetchVersions_masked (m : model)
    (pages : list (list SecretVersionsListEntry)) :
  analyzer m = true ->
  client_ListSecretVersionIds (viewingSecret m) = Ok <$> pages ->
  Forall (fun raw => is_Some (ver_VersionId raw)) (concat pages) ->
  exists vs m',
    fetchVersions m = Some (versionsFetchedMsg vs None)
    /\ Forall2 (fun raw v =>
                  ver_VersionId raw = Some (VersionId v) /\ is_masked v
                  /\ Stages v = Join (ver_VersionStages raw) ", ")
               (concat pages) vs
    /\ Update m (versionsFetchedMsg vs None) = Some (m', CmdNil)
    /\ versions m' = vs /\ state m' = state m.
Proof.
  intros Han Hpages Hids.
  assert (exists vs, mapM version_info (concat pages) = Some vs) as [vs Hvs].
  { apply (mapM_is_Some_2 version_info).
    eapply Forall_impl; [exact Hids|]. intros raw [id Hid].
    unfold compose, version_info. rewrite Hid. by eexists. }
  exists vs. eexists. split.
  { unfold fetchVersions, ListSecretVersions.
    rewrite Han, Hpages, ListSecretVersions_pages_ok. simpl. by rewrite Hvs. }
  split.
  { apply mapM_Some in Hvs. eapply Forall2_impl; [exact Hvs|].
    intros raw v. apply version_info_masked. }
  split; [reflexivity|]. done.
Qed.

(** X13.  When a page of the version listing fails, the message carries
    the wrapped error of that page and no version; the orchestrator
    records the error and goes to the results state, leaving the
    versions, the sets and the mask as they are.  A version without id
    makes the command panic. *)
Theorem fetchVersions_failure (m : model) :
  analyzer m = true ->
  (forall before e after,
     client_ListSecretVersionIds (viewingSecret m)
     = (Ok <$> before) ++ Err e :: after ->
     exists m',
       fetchVersions m
       = Some (versionsFetchedMsg []
                 (Some ("failed to list secret versions: " +:+ e)))
       /\ Update m (versionsFetchedMsg []
                      (Some ("failed to list secret versions: " +:+ e)))
          = Some (m', CmdNil)
       /\ state m' = StResults
       /\ err m' = Some ("failed to list secret versions: " +:+ e)
       /\ versions m' = versions m /\ results m' = results m
       /\ selected m' = selected m)
  /\ (forall pages raw,
        client_ListSecretVersionIds (viewingSecret m) = Ok <$> pages ->
        raw ∈ concat pages -> ver_VersionId raw = None ->
        fetchVersions m = None).
Proof.
  intros Han. split.
  - intros before e after Hpages. eexists. split.
    + unfold fetchVersions, ListSecretVersions.
      by rewrite Han, Hpages, ListSecretVersions_pages_error.
    + split; [reflexivity|]. done.
  - intros pages raw Hpages Hin Hnil.
    unfold fetchVersions, ListSecretVersions.
    rewrite Han, Hpages, ListSecretVersions_pages_ok. simpl.
    destruct (mapM version_info (concat pages)) as [vs|] eqn:Hvs; [|done].
    exfalso. apply mapM_Some in Hvs.
    apply list_elem_of_lookup in Hin as [i Hi].
    destruct (Forall2_lookup_l _ _ _ _ _ Hvs Hi) as (v & _ & Hv).
    unfold version_info in Hv. by rewrite Hnil in Hv.
Qed.

(** X14.  The reveal key on a version that is not yet revealed asks for
    its value and changes nothing; when the value arrives, that version
    and no other gets the value and is marked revealed, and the state
    stays the detail view. *)
Theorem reveal_round_trip (m : model) (r : KeyMsg) (i : nat)
    (v : VersionInfo) (value : string) :
  state m = StViewSecret -> analyzer m = true -> key_String r = "r" ->
  table_Cursor (versionTable m) = Z.of_nat i ->
  versions m !! i = Some v -> Revealed v = false ->
  client_GetSecretValue (viewingSecret m) (VersionId v) = Ok (Some value) ->
  exists m',
    Update m (keyMsg r) = Some (m, CmdRevealValue m (Z.of_nat i))
    /\ revealValue m (Z.of_nat i)
       = Some (valueRevealedMsg (Z.of_nat i) value None)
    /\ Update m (valueRevealedMsg (Z.of_nat i) value None) = Some (m', CmdNil)
    /\ state m' = StViewSecret
    /\ length (versions m') = length (versions m)
    /\ (exists v', versions m' !! i = Some v'
                   /\ Value v' = value /\ Revealed v' = true
                   /\ VersionId v' = VersionId v /\ Stages v' = Stages v)
    /\ (forall j, j <> i -> versions m' !! j = versions m !! j).
Proof.
  intros Hst Han Hr Hcur Hv Hrev Hget.
  assert (in_bounds (Z.of_nat i) (length (versions m)) = true) as Hin.
  { rewrite in_bounds_of_nat. apply bool_decide_eq_true_2.
    by eapply lookup_lt_Some. }
  eexists. split.
  { unfold Update, update_key, update_view_secret. rewrite Hr, Hst. simpl.
    rewrite Hcur, Hin, Nat2Z.id, Hv. simpl. by rewrite Hrev. }
  split.
  { unfold revealValue, GetSecretValue. rewrite Han, Hin, Nat2Z.id, Hv. simpl.
    by rewrite Hget. }
  split.
  { unfold Update. rewrite Hin, Nat2Z.id, Hv. simpl. reflexivity. }
  simpl. split; [done|]. split; [by rewrite length_insert|]. split.
  - exists (reveal_version v value). split; [|done].
    apply list_lookup_insert_eq. by eapply lookup_lt_Some.
  - intros j Hj. by apply list_lookup_insert_ne.
Qed.

(** X15.  Revealing is done once: on a version that is already
    revealed the reveal key asks for nothing and leaves the model as it
    is, apart from what the version table does with the key.  When the
    value cannot be read, the error is recorded and the version stays
    as it was; when the secret has no string value, the command
    panics. *)
Theorem reveal_once_and_failures (m : model) (i : nat) (v : VersionInfo) :
  state m = StViewSecret -> analyzer m = true ->
  versions m !! i = Some v ->
  (forall r,
     key_String r = "r" -> table_Cursor (versionTable m) = Z.of_nat i ->
     Revealed v = true ->
     exists t c, Update m (keyMsg r) = Some (set_versionTable t m, CmdWidget c))
  /\ (forall e,
        client_GetSecretValue (viewingSecret m) (VersionId v) = Err e ->
        exists m',
          revealValue m (Z.of_nat i)
          = Some (valueRevealedMsg (Z.of_nat i) ""
                    (Some ("failed to get secret value: " +:+ e)))
          /\ Update m (valueRevealedMsg (Z.of_nat i) ""
                         (Some ("failed to get secret value: " +:+ e)))
             = Some (m', CmdNil)
          /\ err m' = Some ("failed to get secret value: " +:+ e)
          /\ versions m' = versions m /\ state m' = StViewSecret)
  /\ (client_GetSecretValue (viewingSecret m) (VersionId v) = Ok None ->
      revealValue m (Z.of_nat i) = None).
Proof.
  intros Hst Han Hv.
  assert (in_bounds (Z.of_nat i) (length (versions m)) = true) as Hin.
  { rewrite in_bounds_of_nat. apply bool_decide_eq_true_2.
    by eapply lookup_lt_Some. }
  split; [|split].
  - intros r Hr Hcur Hrev.
    unfold Update, update_key, update_view_secret. rewrite Hr, Hst. simpl.
    rewrite Hcur, Hin, Nat2Z.id, Hv. simpl. rewrite Hrev. simpl.
    destruct (table_Update r (versionTable m)) as [t c]. eauto.
  - intros e Hget. eexists. split.
    + unfold revealValue, GetSecretValue.
      rewrite Han, Hin, Nat2Z.id, Hv. simpl. by rewrite Hget.
    + split; [reflexivity|]. done.
  - intros Hget. unfold revealValue, GetSecretValue.
    rewrite Han, Hin, Nat2Z.id, Hv. simpl. by rewrite Hget.
Qed.

End DetailView.

Section DetailViewExamples.
Import Ref RefMore.

Lemma view_secret_round_trip_witness :
  state five_rows_cursor_second = StResults
  /\ key_String (named "enter") = "enter" /\ key_String (named "esc") = "esc"
  /\ table_Cursor (table five_rows_cursor_second) = Z.of_nat 1
  /\ results five_rows_cursor_second !! 1%nat = Some (secret "beta")
  /\ exists viewing shown back,
       Update five_rows_cursor_second (keyMsg (named "enter"))
       = Some (viewing, CmdFetchVersions viewing)
       /\ viewingSecret viewing = "beta"
       /\ Update viewing (versionsFetchedMsg (versions viewing_versions) None)
          = Some (shown, CmdNil)
       /\ Update shown (keyMsg (named "esc")) = Some (back, CmdNil)
       /\ state back = StResults
       /\ table back = table five_rows_cursor_second
       /\ selected back = selected five_rows_cursor_second.
Proof.
  split; [reflexivity|]. split; [reflexivity|]. split; [reflexivity|].
  split; [reflexivity|]. split; [reflexivity|].
  destruct (view_secret_round_trip five_rows_cursor_second (named "enter")
              (named "esc") 1 (secret "beta") (versions viewing_versions))
    as (viewing & shown & back & H1 & _ & H2 & H3 & _ & _ & H4 & H5 & _ & _
        & H6 & _ & H7 & _); [reflexivity..|].
  exists viewing, shown, back. split_and!; done.
Defined.

Lemma fetchVersions_masked_witness :
  analyzer viewing_versions = true
  /\ client_ListSecretVersionIds (viewingSecret viewing_versions)
     = Ok <$> [two_versions]
  /\ Forall (fun raw => is_Some (ver_VersionId raw)) (concat [two_versions])
  /\ exists vs m',
       fetchVersions viewing_versions = Some (versionsFetchedMsg vs None)
       /\ Forall is_masked vs
       /\ Update viewing_versions (versionsFetchedMsg vs None)
          = Some (m', CmdNil)
       /\ versions m' = vs.
Proof.
  assert (Forall (fun raw => is_Some (ver_VersionId raw))
            (concat [two_versions])) as Hids.
  { repeat constructor; by eexists. }
  split; [reflexivity|]. split; [reflexivity|]. split; [exact Hids|].
  destruct (fetchVersions_masked viewing_versions [two_versions])
    as (vs & m' & Hfetch & Hall & HU & Hvs & _);
    [reflexivity | reflexivity | exact Hids |].
  exists vs, m'. split_and!; try done.
  clear -Hall. induction Hall as [|raw v ? ? (_ & Hm & _) _ IH];
    constructor; done.
Defined.

Lemma fetchVersions_failure_witness :
  analyzer viewing_gone = true
  /\ client_ListSecretVersionIds (viewingSecret viewing_gone)
     = (Ok <$> []) ++ [Err "ResourceNotFoundException"]
  /\ exists m',
       fetchVersions viewing_gone
       = Some (versionsFetchedMsg []
                 (Some ("failed to list secret versions: "
                        +:+ "ResourceNotFoundException")))
       /\ Update viewing_gone
                 (versionsFetchedMsg []
                    (Some ("failed to list secret versions: "
                           +:+ "ResourceNotFoundException")))
          = Some (m', CmdNil)
       /\ state m' = StResults.
Proof.
  split; [reflexivity|]. split; [reflexivity|].
  destruct (fetchVersions_failure viewing_gone) as [Hfail _];
    [reflexivity|].
  destruct (Hfail [] "ResourceNotFoundException" [])
    as (m' & H1 & H2 & H3 & _); [reflexivity|].
  exists m'. split_and!; done.
Defined.

Lemma reveal_round_trip_witness :
  state viewing_versions = StViewSecret
  /\ analyzer viewing_versions = true
  /\ key_String (typed "r") = "r"
  /\ table_Cursor (versionTable viewing_versions) = Z.of_nat 0
  /\ (exists v,
        versions viewing_versions !! 0%nat = Some v /\ Revealed v = false
        /\ client_GetSecretValue (viewingSecret viewing_versions) (VersionId v)
           = Ok (Some "value of v-current"))
  /\ exists m',
       Update viewing_versions (keyMsg (typed "r"))
       = Some (viewing_versions, CmdRevealValue viewing_versions (Z.of_nat 0))
       /\ revealValue viewing_versions (Z.of_nat 0)
          = Some (valueRevealedMsg (Z.of_nat 0) "value of v-current" None)
       /\ Update viewing_versions
                 (valueRevealedMsg (Z.of_nat 0) "value of v-current" None)
          = Some (m', CmdNil)
       /\ length (versions m') = length (versions viewing_versions).
Proof.
  split; [reflexivity|]. split; [reflexivity|]. split; [reflexivity|].
  split; [reflexivity|].
  split; [eexists; split; [reflexivity|]; split; reflexivity|].
  edestruct (reveal_round_trip viewing_versions (typed "r") 0 version_current
               "value of v-current")
    as (m' & H1 & H2 & H3 & _ & H4 & _); [reflexivity..|].
  exists m'. split_and!; done.
Defined.

Lemma reveal_once_and_failures_witness :
  state viewing_revealed = StViewSecret
  /\ analyzer viewing_revealed = true
  /\ key_String (typed "r") = "r"
  /\ table_Cursor (versionTable viewing_revealed) = Z.of_nat 0
  /\ (exists v, versions viewing_revealed !! 0%nat = Some v
                /\ Revealed v = true)
  /\ exists t c,
       Update viewing_revealed (keyMsg (typed "r"))
       = Some (set_versionTable t viewing_revealed, CmdWidget c).
Proof.
  split; [reflexivity|]. split; [reflexivity|]. split; [reflexivity|].
  split; [reflexivity|].
  split; [eexists; split; reflexivity|].
  edestruct (reveal_once_and_failures viewing_revealed 0
               (reveal_version version_current "value of v-current"))
    as [Honce _];
    [reflexivity..|].
  apply (Honce (typed "r")); reflexivity.
Defined.

End DetailViewExamples.

(** ** Scanning again *)

Section Rescan.
Context `{Unicode, Bubbles, Host, TimeFormat, DateTimeFormat, SecretsReader}.

Lemma AnalyzeSecrets_ok (entries : list SecretEntry) (now : Z) (b : bool) :
  AnalyzeSecrets (Ok entries) now b
  = Ok (to_result <$> (if b then filter (stale now) entries else entries)).
Proof.
  unfold AnalyzeSecrets. destruct entries as [|e entries]; [by destruct b|].
  change (length (e :: entries) =? 0)%nat with false. cbv iota.
  destruct b; [by rewrite analyze_entries_filtered
              | by rewrite analyze_entries_all].
Qed.

(** X16.  A rescan, end to end: "r" (or "R") in the results state goes
    to the banner and schedules the scan request; the request starts
    the scan; when every page of the listing arrives, the completion
    shows, for "r", exactly the stale secrets of the listing and, for
    "R", all of them, as both the current and the base set, with
    nothing selected, no filter active and no error. *)
Theorem rescan_end_to_end (m : model) (k : KeyMsg)
    (pages : list (list SecretListEntry)) (now : Z) :
  state m = StResults -> analyzer m = true ->
  key_String k = "r" \/ key_String k = "R" ->
  exists waiting scan msg shown,
    Update m (keyMsg k) = Some (waiting, CmdTickStartScan)
    /\ state waiting = StBanner
    /\ Update waiting startScanMsg
       = Some (scan, CmdBatch (CmdWidget (spinner_Tick (spinner scan)))
                              (CmdStartRealScan scan))
    /\ state scan = StScanning
    /\ startRealScan scan (Ok <$> pages) now = Some msg
    /\ Update scan msg = Some (shown, CmdNil)
    /\ state shown = StResults
    /\ filtered shown = (key_String k == "r")
    /\ results shown
       = to_result <$>
           (if key_String k == "r"
            then filter (stale now) (omap list_entry (concat pages))
            else omap list_entry (concat pages))
    /\ baseResults shown = results shown
    /\ selected shown = make_bools (length (results shown))
    /\ hasFilter shown = false /\ err shown = None.
Proof.
  intros Hst Han Hk.
  set (b := key_String k == "r").
  assert (Update m (keyMsg k) = Some (rescan b m)) as Hkey.
  { unfold Update, update_key, update_results, b. rewrite Hst.
    destruct Hk as [-> | ->]; reflexivity. }
  set (waiting := (rescan b m).1).
  set (scan := set_currentScanStep "Connecting to AWS and analyzing secrets..."
                 (set_scanning true (set_state StScanning waiting))).
  set (rs := to_result <$>
               (if b then filter (stale now) (omap list_entry (concat pages))
                else omap list_entry (concat pages))).
  exists waiting, scan, (analysisCompleteMsg rs None),
         (update_analysisComplete scan rs None).
  split; [exact Hkey|]. split; [done|]. split.
  { unfold Update. change (analyzer waiting) with (analyzer m).
    rewrite Han. reflexivity. }
  split; [done|]. split.
  { unfold startRealScan. change (analyzer scan) with (analyzer m).
    rewrite Han. unfold ListSecrets.
    rewrite (ListSecrets_pages_ok pages []), app_nil_l.
    rewrite AnalyzeSecrets_ok. reflexivity. }
  split; [reflexivity|].
  rewrite state_analysisComplete, selected_analysisComplete.
  destruct (results_analysisComplete scan rs None) as [-> ->].
  split_and!; done.
Qed.

End Rescan.

Section RescanExamples.
Import Ref RefMore.

Lemma rescan_end_to_end_witness :
  state five_rows_cursor_second = StResults
  /\ analyzer five_rows_cursor_second = true
  /\ (key_String (typed "R") = "r" \/ key_String (typed "R") = "R")
  /\ exists waiting scan msg shown,
       Update five_rows_cursor_second (keyMsg (typed "R"))
       = Some (waiting, CmdTickStartScan)
       /\ Update waiting startScanMsg
          = Some (scan, CmdBatch (CmdWidget (spinner_Tick (spinner scan)))
                                 (CmdStartRealScan scan))
       /\ startRealScan scan (Ok <$> [one_page]) (20 * Day) = Some msg
       /\ Update scan msg = Some (shown, CmdNil)
       /\ state shown = StResults
       /\ Name <$> results shown = ["db-password"; "api-key"].
Proof.
  split; [reflexivity|]. split; [reflexivity|]. split; [right; reflexivity|].
  destruct (rescan_end_to_end five_rows_cursor_second (typed "R") [one_page]
              (20 * Day))
    as (waiting & scan & msg & shown & H1 & _ & H2 & _ & H3 & H4 & H5 & _
        & H6 & _); [reflexivity | reflexivity | right; reflexivity |].
  exists waiting, scan, msg, shown. split_and!; try done.
  rewrite H6. vm_compute. reflexivity.
Defined.

End RescanExamples.

(** ** The mask along a run *)

Section AlignedRuns.
Context `{Unicode, Bubbles, Host, SecretsClient}.

Lemma aligned_run (msgs : list Msg) (m m' : model) :
  aligned m -> Forall not_failed_scan msgs -> run m msgs = Some m' ->
  aligned m'.
Proof.
  revert m. induction msgs as [|msg msgs IH]; intros m Hm Hmsgs Hrun.
  - injection Hrun as <-. done.
  - rewrite run_cons in Hrun. apply Forall_cons in Hmsgs as [Hmsg Hmsgs].
    destruct (Update m msg) as [[m1 cmd]|] eqn:HU; [|done].
    simpl in Hrun. eapply IH; [|done|done]. by eapply aligned_step.
Qed.

(** X17.  As long as no scan fails, the mask is as long as the results
    in every model the program runs through (and, during a filter
    session, the saved mask as long as the saved results); in such a
    model neither the completion of a delete nor the delete command
    reads past the end of the results. *)
Theorem mask_aligned_while_scans_succeed (analyzerErr : option string)
    (msgs : list Msg) (m : model) :
  Forall not_failed_scan msgs ->
  run (initialModel analyzerErr) msgs = Some m ->
  aligned m
  /\ (forall e, is_Some (Update m (deleteCompleteMsg e)))
  /\ (forall store, is_Some (performDelete m store)).
Proof.
  intros Hmsgs Hrun.
  assert (aligned m) as [Hal Horig].
  { eapply aligned_run; [|exact Hmsgs|exact Hrun]. done. }
  split; [done|]. split.
  - intros [e|].
    + destruct (deleteComplete_failed m e) as (m' & -> & _). by eexists.
    + destruct (deleteComplete_ok m Hal) as (m' & -> & _). by eexists.
  - intros store. unfold performDelete.
    rewrite (performDelete_calls m store Hal). unfold completion.
    cbn [mbind option_bind cmd_next cmd_mask]. rewrite Nat.ltb_irrefl.
    by eexists.
Qed.

End AlignedRuns.

Section AlignedRunsExamples.
Import Ref RefMore.

Lemma mask_aligned_while_scans_succeed_witness :
  Forall not_failed_scan
    [startScanMsg; analysisCompleteMsg [secret "prod/db"] None;
     special " "; key "D"]
  /\ run (initialModel None)
         [startScanMsg; analysisCompleteMsg [secret "prod/db"] None;
          special " "; key "D"] = Some confirming
  /\ aligned confirming
  /\ is_Some (performDelete confirming beta_denied).
Proof.
  assert (Forall not_failed_scan
            [startScanMsg; analysisCompleteMsg [secret "prod/db"] None;
             special " "; key "D"]) as Hmsgs by (repeat constructor).
  assert (run (initialModel None)
              [startScanMsg; analysisCompleteMsg [secret "prod/db"] None;
               special " "; key "D"] = Some confirming) as Hrun
    by (vm_compute; reflexivity).
  split; [exact Hmsgs|]. split; [exact Hrun|].
  destruct (mask_aligned_while_scans_succeed None _ confirming Hmsgs Hrun)
    as (Hal & _ & Hdel).
  split; [exact Hal | apply Hdel].
Defined.

End AlignedRunsExamples.

(** ** Committing and clearing a filter *)

Section FilterCommit.
Context `{Unicode, Bubbles, Host}.

Lemma filter_enter (m : model) (k : KeyMsg) :
  is_filter_state (state m) = true -> key_String k = "enter" ->
  exists m',
    Update m (keyMsg k) = Some (m', CmdNil)
    /\ state m' = StResults /\ hasFilter m' = true
    /\ filterInput m' = (input_Update k (filterInput m)).1
    /\ results m'
       = List.filter (keeps (state m) (input_Value (filterInput m')))
                     (originalResults m)
    /\ selected m' = make_bools (length (results m'))
    /\ baseResults m' = baseResults m.
Proof.
  intros Hst Hk. unfold Update, update_key. rewrite Hk. simpl.
  destruct (state m) eqn:Hs; try discriminate Hst;
    unfold update_filter; destruct (input_Update k (filterInput m));
    simpl; eexists; (split; [reflexivity|]); simpl;
    rewrite previewFilter_filter, ?Hs; split_and!; done.
Qed.

Lemma clear_filter_key (m : model) (k : KeyMsg) :
  state m = StResults -> key_String k = "esc" ->
  exists m' cmd,
    Update m (keyMsg k) = Some (m', cmd)
    /\ state m' = StResults /\ hasFilter m' = false
    /\ baseResults m' = baseResults m
    /\ results m' = (if hasFilter m then baseResults m else results m)
    /\ selected m'
       = (if hasFilter m then make_bools (length (baseResults m))
          else selected m).
Proof.
  intros Hst Hk. unfold Update, update_key, update_results.
  rewrite Hk, Hst. simpl. unfold clear_filter.
  destruct (hasFilter m) eqn:Hf; simpl; destruct (table_Update k _);
    eexists _, _; (split; [reflexivity|]); simpl; split_and!; done.
Qed.

(** X18.  Enter in a filter session commits the preview: the results
    state shows the filter of the snapshot by the text and the mode,
    with nothing selected, the filter flag set and the base set as it
    was.  Escape in the results state then clears the filter: the
    whole base set is shown again with nothing selected and the flag
    dropped, and a further escape changes neither the set nor the
    mask. *)
Theorem filter_commit_then_clear (m : model) (enter esc : KeyMsg) :
  is_filter_state (state m) = true ->
  key_String enter = "enter" -> key_String esc = "esc" ->
  exists committed cleared again cmd cmd',
    Update m (keyMsg enter) = Some (committed, CmdNil)
    /\ state committed = StResults /\ hasFilter committed = true
    /\ results committed
       = List.filter
           (keeps (state m) (input_Value (filterInput committed)))
           (originalResults m)
    /\ selected committed = make_bools (length (results committed))
    /\ Update committed (keyMsg esc) = Some (cleared, cmd)
    /\ state cleared = StResults /\ hasFilter cleared = false
    /\ results cleared = baseResults m
    /\ selected cleared = make_bools (length (baseResults m))
    /\ Update cleared (keyMsg esc) = Some (again, cmd')
    /\ results again = results cleared /\ selected again = selected cleared
    /\ hasFilter again = false.
Proof.
  intros Hst Henter Hesc.
  destruct (filter_enter m enter Hst Henter)
    as (committed & HU1 & Hs1 & Hf1 & _ & Hr1 & Hsel1 & Hb1).
  destruct (clear_filter_key committed esc Hs1 Hesc)
    as (cleared & cmd & HU2 & Hs2 & Hf2 & Hb2 & Hr2 & Hsel2).
  destruct (clear_filter_key cleared esc Hs2 Hesc)
    as (again & cmd' & HU3 & Hs3 & Hf3 & Hb3 & Hr3 & Hsel3).
  rewrite Hf1 in Hr2, Hsel2. rewrite Hf2 in Hr3, Hsel3.
  exists committed, cleared, again, cmd, cmd'.
  split_and!; try done; congruence.
Qed.

(** X19.  A filter session that is committed narrows what was
    displayed when it was opened: the committed results are a
    subsequence of the results before the session (so a second
    committed filter applies within the first), every selection made
    before is dropped, and the base set is untouched. *)
Theorem filter_session_committed (m : model) (open : KeyMsg)
    (keys : list KeyMsg) (enter : KeyMsg) :
  state m = StResults ->
  key_String open = "/" \/ key_String open = "?" ->
  forallb filter_key keys = true ->
  key_String enter = "enter" ->
  exists m',
    run m (keyMsg open :: (keyMsg <$> keys) ++ [keyMsg enter]) = Some m'
    /\ state m' = StResults /\ hasFilter m' = true
    /\ results m'
       = List.filter
           (keeps (if key_String open == "/"
                   then StFilterInclude else StFilterExclude)
                  (input_Value (filterInput m')))
           (results m)
    /\ results m' `sublist_of` results m
    /\ selected m' = make_bools (length (results m'))
    /\ baseResults m' = baseResults m.
Proof.
  intros Hst Hopen Hkeys Henter.
  destruct (open_filter_key m open Hst Hopen)
    as (m1 & HU1 & Hs1 & Hor1 & _ & _ & _ & Hb1 & _).
  assert (is_filter_state (state m1) = true) as Hfs1.
  { rewrite Hs1. by destruct (key_String open == "/"). }
  destruct (filter_keystrokes keys m1 Hfs1 Hkeys)
    as (m2 & Hrun & Hs2 & Hor2 & _ & Hb2 & _).
  assert (is_filter_state (state m2) = true) as Hfs2 by congruence.
  destruct (filter_enter m2 enter Hfs2 Henter)
    as (m3 & HU3 & Hs3 & Hf3 & _ & Hr3 & Hsel3 & Hb3).
  exists m3. rewrite run_cons, HU1. simpl. rewrite run_app, Hrun. simpl.
  rewrite run_cons, HU3. simpl.
  assert (results m3
          = List.filter
              (keeps (if key_String open == "/"
                      then StFilterInclude else StFilterExclude)
                     (input_Value (filterInput m3)))
              (results m)) as Hres by congruence.
  split_and!; try done; try congruence.
  rewrite Hres. apply filter_sublist_bool.
Qed.

End FilterCommit.

Section FilterCommitExamples.
Import Ref RefMore.

Lemma filter_commit_then_clear_witness :
  is_filter_state (state filtering_three) = true
  /\ key_String (named "enter") = "enter" /\ key_String (named "esc") = "esc"
  /\ exists committed cleared cmd,
       Update filtering_three (keyMsg (named "enter"))
       = Some (committed, CmdNil)
       /\ hasFilter committed = true
       /\ Update committed (keyMsg (named "esc")) = Some (cleared, cmd)
       /\ results cleared = baseResults filtering_three
       /\ hasFilter cleared = false.
Proof.
  split; [reflexivity|]. split; [reflexivity|]. split; [reflexivity|].
  destruct (filter_commit_then_clear filtering_three (named "enter")
              (named "esc"))
    as (committed & cleared & again & cmd & cmd' & H1 & _ & H2 & _ & _ & H3
        & _ & H4 & H5 & _); [reflexivity..|].
  exists committed, cleared, cmd. split_and!; done.
Defined.

Lemma filter_session_committed_witness :
  state five_rows_second_selected = StResults
  /\ (key_String (typed "/") = "/" \/ key_String (typed "/") = "?")
  /\ forallb filter_key [typed "t"; typed "a"] = true
  /\ key_String (named "enter") = "enter"
  /\ exists m',
       run five_rows_second_selected
           (keyMsg (typed "/") :: (keyMsg <$> [typed "t"; typed "a"])
            ++ [keyMsg (named "enter")]) = Some m'
       /\ hasFilter m' = true
       /\ results m' `sublist_of` results five_rows_second_selected
       /\ selected m' = make_bools (length (results m')).
Proof.
  split; [reflexivity|]. split; [left; reflexivity|].
  split; [reflexivity|]. split; [reflexivity|].
  destruct (filter_session_committed five_rows_second_selected (typed "/")
              [typed "t"; typed "a"] (named "enter"))
    as (m' & H1 & _ & H2 & _ & H3 & H4 & _);
    [reflexivity | left; reflexivity | reflexivity | reflexivity |].
  exists m'. split_and!; done.
Defined.

End FilterCommitExamples.

(** ** Copying a name *)

Section CopyName.
Context `{Unicode, Bubbles, Host}.

(** X20.  The copy key on a row of the results writes the name of the
    record to the clipboard.  When the write succeeds a confirmation is
    set, its clearing is scheduled, and the clearing message empties
    it; when the write fails nothing is shown and nothing is recorded.
    In both cases the sets, the mask and the state stay as they are. *)
Theorem copy_name_feedback (m : model) (y : KeyMsg) (i : nat)
    (res : SecretResult) :
  state m = StResults -> key_String y = "y" ->
  table_Cursor (table m) = Z.of_nat i -> results m !! i = Some res ->
  (clipboard_WriteAll (Name res) = true ->
   exists copied cleared,
     Update m (keyMsg y) = Some (copied, CmdTickClearCopied)
     /\ copiedMessage copied = "Copied secret name to clipboard"
     /\ state copied = StResults
     /\ results copied = results m /\ selected copied = selected m
     /\ Update copied clearCopiedMsg = Some (cleared, CmdNil)
     /\ copiedMessage cleared = ""
     /\ results cleared = results m /\ selected cleared = selected m)
  /\ (clipboard_WriteAll (Name res) = false ->
      exists t cmd,
        Update m (keyMsg y) = Some (set_table t m, CmdWidget cmd)).
Proof.
  intros Hst Hy Hcur Hres.
  assert (in_bounds (Z.of_nat i) (length (results m)) = true) as Hin.
  { rewrite in_bounds_of_nat. apply bool_decide_eq_true_2.
    by eapply lookup_lt_Some. }
  split; intros Hclip.
  - eexists _, _. split.
    { unfold Update, update_key, update_results. rewrite Hy, Hst. simpl.
      unfold copy_name. rewrite Hcur, Hin, Nat2Z.id, Hres. simpl.
      rewrite Hclip. reflexivity. }
    split_and!; try done.
  - unfold Update, update_key, update_results. rewrite Hy, Hst. simpl.
    unfold copy_name. rewrite Hcur, Hin, Nat2Z.id, Hres. simpl.
    rewrite Hclip. destruct (table_Update y (table m)) as [t c]. eauto.
Qed.

End CopyName.

Section CopyNameExamples.
Import Ref RefMore.

Lemma copy_name_feedback_witness :
  state five_rows_cursor_second = StResults
  /\ key_String (typed "y") = "y"
  /\ table_Cursor (table five_rows_cursor_second) = Z.of_nat 1
  /\ results five_rows_cursor_second !! 1%nat = Some (secret "beta")
  /\ clipboard_WriteAll (Name (secret "beta")) = true
  /\ exists copied cleared,
       Update five_rows_cursor_second (keyMsg (typed "y"))
       = Some (copied, CmdTickClearCopied)
       /\ copiedMessage copied = "Copied secret name to clipboard"
       /\ Update copied clearCopiedMsg = Some (cleared, CmdNil)
       /\ copiedMessage cleared = "".
Proof.
  split; [reflexivity|]. split; [reflexivity|]. split; [reflexivity|].
  split; [reflexivity|]. split; [reflexivity|].
  destruct (copy_name_feedback five_rows_cursor_second (typed "y") 1
              (secret "beta")) as [Hok _]; [reflexivity..|].
  destruct (Hok eq_refl)
    as (copied & cleared & H1 & H2 & _ & _ & _ & H3 & H4 & _).
  exists copied, cleared. split_and!; done.
Defined.

End CopyNameExamples.

(** ** What the table shows *)

Section Rendering.
Context `{Unicode, Bubbles, Host}.

Lemma formatResults_ext (m1 m2 : model) :
  results m1 = results m2 -> selected m1 = selected m2 ->
  formatResults m1 = formatResults m2.
Proof. unfold formatResults. by intros -> ->. Qed.

Lemma formatResults_lookup (m : model) (j : nat) :
  formatResults m !! j
  = (fun result =>
       [ (if bool_decide (j < length (selected m))%nat
             && default false (selected m !! j)
          then check_mark else " ");
         Name result; LastAccessed result ]) <$> results m !! j.
Proof. unfold formatResults. apply list_lookup_imap. Qed.

(** The row the toggle writes is the row a fresh rendering gives. *)
Lemma formatResults_toggle (m : model) (i : nat) (b : bool)
    (cells : list string) (m' : model) :
  selected m !! i = Some b ->
  formatResults m !! i = Some cells ->
  results m' = results m -> selected m' = <[i := negb b]> (selected m) ->
  formatResults m'
  = <[i := (if negb b then check_mark else " ") :: tail cells]>
      (formatResults m).
Proof.
  intros Hb Hcells Hres Hsel. apply list_eq. intros j.
  destruct (decide (j = i)) as [->|Hne].
  - rewrite list_lookup_insert_eq by (by eapply lookup_lt_Some).
    rewrite formatResults_lookup in Hcells.
    rewrite formatResults_lookup, Hres, Hsel, length_insert.
    destruct (results m !! i) as [r|]; [|done]. simpl in *.
    injection Hcells as <-. simpl.
    rewrite list_lookup_insert_eq by (by eapply lookup_lt_Some).
    rewrite bool_decide_eq_true_2 by (by eapply lookup_lt_Some).
    simpl. by destruct b.
  - rewrite list_lookup_insert_ne by done.
    rewrite !formatResults_lookup, Hres, Hsel, length_insert.
    by rewrite list_lookup_insert_ne.
Qed.

Lemma toggle_selection_rendered (m core : model) :
  table_keeps_rows -> rendered m -> toggle_selection m = Some core ->
  rendered core.
Proof.
  intros (_ & Hset & Hcur & _) Hm. unfold rendered in *.
  unfold toggle_selection. destruct in_bounds; [|by intros [= <-]].
  destruct (selected m !! _) as [b|] eqn:Hb; [|done]. simpl.
  destruct (selectedShared m); simpl; rewrite Hm;
    (destruct (formatResults m !! _) as [[|cell cells]|] eqn:Hrow;
       [done| |done]);
    simpl; intros [= <-]; simpl; rewrite Hcur, Hset; symmetry;
    apply (formatResults_toggle m _ b (cell :: cells)); done.
Qed.

Lemma update_results_cases_table (m m' : model) (k : KeyMsg) (key : string)
    (cmd : Cmd) :
  update_results m k key = Some (m', cmd) ->
  exists core,
    results_action m core
    /\ (m' = core \/ m' = set_table (table_Update k (table core)).1 core).
Proof.
  unfold update_results. intros HU.
  destruct (key == "r") eqn:Hr.
  { injection HU as <- <-. eexists. split; [apply (act_rescan m true)|auto]. }
  destruct (key == "R") eqn:HR.
  { injection HU as <- <-. eexists. split; [apply (act_rescan m false)|auto]. }
  destruct (key == "enter") eqn:Henter.
  { apply streq_eq in Henter as ->. simpl in HU.
    destruct (open_secret m) as [[m1 c1]|] eqn:Hopen.
    - injection HU as <- <-. eexists. split; [by eapply act_open_secret|auto].
    - destruct (table_Update k (table m)) as [t c] eqn:Ht.
      injection HU as <- <-.
      eexists. split; [apply act_none|]. right. by rewrite Ht. }
  destruct (key == " ") eqn:Hspace.
  { apply streq_eq in Hspace as ->. simpl in HU.
    destruct (toggle_selection m) as [m1|] eqn:Htoggle; [|done]. simpl in HU.
    destruct (table_Update k (table m1)) as [t c] eqn:Ht.
    injection HU as <- <-.
    eexists. split; [by apply act_toggle|]. right. by rewrite Ht. }
  simpl in HU.
  destruct (key == "D") eqn:HD.
  { apply streq_eq in HD as ->. simpl in HU.
    destruct (table_Update k _) as [t c] eqn:Ht. injection HU as <- <-.
    eexists. split; [apply act_request_delete|]. right. by rewrite Ht. }
  destruct (key == "y") eqn:Hy.
  { apply streq_eq in Hy as ->. simpl in HU.
    destruct (copy_name m) as [[m1 c1]|] eqn:Hcopy.
    - injection HU as <- <-. eexists. split; [by eapply act_copy_name|auto].
    - destruct (table_Update k (table m)) as [t c] eqn:Ht.
      injection HU as <- <-.
      eexists. split; [apply act_none|]. right. by rewrite Ht. }
  destruct (key == "/") eqn:Hinc.
  { injection HU as <- <-. eexists.
    split; [by apply (act_open_filter m StFilterInclude)|auto]. }
  destruct (key == "?") eqn:Hexc.
  { injection HU as <- <-. eexists.
    split; [by apply (act_open_filter m StFilterExclude)|auto]. }
  destruct (key == "esc") eqn:Hesc.
  - destruct (table_Update k _) as [t c] eqn:Ht. injection HU as <- <-.
    eexists. split; [apply act_clear_filter|]. right. by rewrite Ht.
  - destruct (table_Update k (table m)) as [t c] eqn:Ht.
    injection HU as <- <-.
    eexists. split; [apply act_none|]. right. by rewrite Ht.
Qed.

Lemma results_action_rendered (m core : model) :
  table_keeps_rows -> rendered m -> results_action m core -> rendered core.
Proof.
  intros Hlaws Hm Hcore. pose proof Hlaws as (_ & Hset & Hcur & _).
  unfold rendered in *.
  destruct Hcore as [ | filtered | core c Hopen | core Htoggle |
                      | core c Hcopy | st Hfs | ].
  - done.
  - done.
  - unfold open_secret in Hopen. destruct in_bounds; [|done].
    destruct (results m !! _); [|done]. simpl in Hopen.
    injection Hopen as <- _. done.
  - by eapply toggle_selection_rendered.
  - unfold request_delete. by destruct hasSelected.
  - unfold copy_name in Hcopy. destruct in_bounds; [|done].
    destruct (results m !! _); [|done]. simpl in Hcopy.
    destruct clipboard_WriteAll; [|done]. injection Hcopy as <- _. done.
  - done.
  - unfold clear_filter. destruct hasFilter; [|done]. simpl.
    rewrite Hset. by apply formatResults_ext.
Qed.

(** Every step but the completion of a failed scan leaves the table
    showing the results and the mask. *)
Lemma rendered_step (m m' : model) (msg : Msg) (cmd : Cmd) :
  table_keeps_rows -> rendered m -> not_failed_scan msg ->
  Update m msg = Some (m', cmd) -> rendered m'.
Proof.
  intros Hlaws Hm Hmsg HU.
  pose proof Hlaws as (_ & Hset & Hcur & Hupd). unfold rendered in *.
  destruct msg as [k| |rs e|vs e|index value e|e| |tick|frame|].
  - apply update_key_cases in HU
      as [-> | [[Hs HU] | [[Hs HU] | [[Hs HU] | [Hs HU]]]]]; [done| | | |].
    + apply update_results_cases_table in HU as (core & Hcore & Hm').
      pose proof (results_action_rendered m core Hlaws Hm Hcore) as Hcore'.
      unfold rendered in Hcore'.
      destruct Hm' as [-> | ->]; [done|]. simpl. by rewrite Hupd.
    + revert HU. unfold update_filter.
      destruct (input_Update k (filterInput m)) as [input c].
      key_tests; intros [= -> _]; simpl; rewrite Hset;
        by apply formatResults_ext.
    + revert HU. unfold update_view_secret.
      destruct (table_Update k (versionTable m)) as [t c].
      key_tests; intros [= -> _]; simpl; rewrite ?Hcur; done.
    + revert HU. unfold update_confirm_delete.
      key_tests; intros [= -> _]; simpl; done.
  - unfold Update in HU.
    destruct (negb (analyzer m)); injection HU as <- <-; done.
  - unfold Update in HU. injection HU as <- <-. destruct e; [done|].
    unfold update_analysisComplete. simpl. rewrite Hset.
    by apply formatResults_ext.
  - unfold Update in HU. destruct e; injection HU as <- <-; done.
  - unfold Update in HU. destruct e.
    + injection HU as <- <-. done.
    + destruct in_bounds; [|done]. destruct (versions m !! _); [|done].
      simpl in HU. injection HU as <- <-. done.
  - unfold Update, update_deleteComplete in HU. destruct e.
    + simpl in HU. injection HU as <- <-. done.
    + destruct remove_selected as [[newResults newSelected]|]; [|done].
      simpl in HU. injection HU as <- <-. simpl. rewrite Hset.
      by apply formatResults_ext.
  - unfold Update in HU. injection HU as <- <-. done.
  - unfold Update in HU. destruct spinner_Update. injection HU as <- <-. done.
  - unfold Update in HU. destruct progress_Update. injection HU as <- <-. done.
  - unfold Update in HU. injection HU as <- <-. done.
Qed.

(** X21.  With a table widget that keeps the rows it is given, and as
    long as no scan fails, the table shows in every model the program
    runs through one row per current result, with the name, the
    last-accessed label and a check mark exactly on the selected rows:
    the cell the selection key edits in place is the cell a fresh
    rendering gives. *)
Theorem table_shows_results (analyzerErr : option string) (msgs : list Msg)
    (m : model) :
  table_keeps_rows ->
  Forall not_failed_scan msgs ->
  run (initialModel analyzerErr) msgs = Some m ->
  table_Rows (table m) = formatResults m
  /\ length (table_Rows (table m)) = length (results m)
  /\ (forall i res,
        results m !! i = Some res ->
        table_Rows (table m) !! i
        = Some [ (if bool_decide (selected m !! i = Some true)
                  then check_mark else " ");
                 Name res; LastAccessed res ]).
Proof.
  intros Hlaws Hmsgs Hrun.
  assert (rendered m /\ aligned m) as [Hr [Hal _]].
  { assert (rendered (initialModel analyzerErr)
            /\ aligned (initialModel analyzerErr)) as Hinit.
    { split; [|done]. unfold rendered. simpl. by destruct Hlaws as [-> _]. }
    revert Hinit Hmsgs Hrun. generalize (initialModel analyzerErr) as m0.
    induction msgs as [|msg msgs IH]; intros m0 [Hr0 Ha0] Hmsgs Hrun.
    - injection Hrun as <-. done.
    - rewrite run_cons in Hrun. apply Forall_cons in Hmsgs as [Hmsg Hmsgs].
      destruct (Update m0 msg) as [[m1 cmd]|] eqn:HU; [|done].
      simpl in Hrun. apply (IH m1); [|done|done]. split.
      + by eapply rendered_step.
      + by eapply aligned_step. }
  unfold rendered in Hr. split; [done|]. rewrite Hr. split.
  - unfold formatResults. apply length_imap.
  - intros i res Hres. rewrite formatResults_lookup, Hres. simpl.
    do 2 f_equal.
    assert (i < length (selected m))%nat as Hlt.
    { unfold mask_aligned in Hal. rewrite Hal. by eapply lookup_lt_Some. }
    rewrite bool_decide_eq_true_2 by done. simpl.
    destruct (lookup_lt_is_Some_2 _ _ Hlt) as [[] ->]; done.
Qed.

End Rendering.

Section RenderingExamples.
Import Ref RefMore.

Lemma table_shows_results_witness :
  table_keeps_rows
  /\ Forall not_failed_scan
       [startScanMsg; analysisCompleteMsg [secret "prod/db"] None;
        special " "; key "D"]
  /\ run (initialModel None)
         [startScanMsg; analysisCompleteMsg [secret "prod/db"] None;
          special " "; key "D"] = Some confirming
  /\ table_Rows (table confirming) = formatResults confirming
  /\ table_Rows (table confirming) !! 0%nat
     = Some [check_mark; "prod/db"; "Never"].
Proof.
  assert (table_keeps_rows) as Hlaws.
  { split; [reflexivity|]. split; [reflexivity|]. split; [reflexivity|].
    intros k t. unfold table_Update. simpl. unfold TableUpdate.
    repeat (destruct (_ || _); [reflexivity|]). reflexivity. }
  assert (Forall not_failed_scan
            [startScanMsg; analysisCompleteMsg [secret "prod/db"] None;
             special " "; key "D"]) as Hmsgs by (repeat constructor).
  assert (run (initialModel None)
              [startScanMsg; analysisCompleteMsg [secret "prod/db"] None;
               special " "; key "D"] = Some confirming) as Hrun
    by (vm_compute; reflexivity).
  split; [exact Hlaws|]. split; [exact Hmsgs|]. split; [exact Hrun|].
  destruct (table_shows_results None _ confirming Hlaws Hmsgs Hrun)
    as (Hrows & _ & Hrow).
  split; [exact Hrows|].
  apply (Hrow 0%nat (secret "prod/db")). vm_compute. reflexivity.
Defined.

End RenderingExamples.

(** * The first version of the program *)

Section LegacyOrder.
Import Legacy.

Lemma less_lookup (secrets : list Secret) (i j : nat) (si sj : Secret) :
  secrets !! i = Some si -> secrets !! j = Some sj ->
  less secrets i j
  = match LastAccessed si, LastAccessed sj with
    | None, None =>
        ci ← CreatedDate si; cj ← CreatedDate sj; Some (Before ci cj)
    | None, Some _ => Some false
    | Some _, None => Some true
    | Some ti, Some tj => Some (Before ti tj)
    end.
Proof. unfold less. by intros -> ->. Qed.

(** X22.  On secrets that were accessed or have a creation date, the
    comparison given to the sort always returns and is a strict weak
    order (irreflexive, transitive, with a transitive incomparability),
    as the sort requires; it puts every accessed secret before every
    secret that was never accessed. *)
Theorem less_strict_weak_order (secrets : list Secret) (i j k : nat)
    (si sj sk : Secret) :
  Forall dated secrets ->
  secrets !! i = Some si -> secrets !! j = Some sj ->
  secrets !! k = Some sk ->
  is_Some (less secrets i j)
  /\ less secrets i i = Some false
  /\ (less secrets i j = Some true -> less secrets j k = Some true ->
      less secrets i k = Some true)
  /\ (less secrets i j = Some false -> less secrets j i = Some false ->
      less secrets j k = Some false -> less secrets k j = Some false ->
      less secrets i k = Some false /\ less secrets k i = Some false)
  /\ (is_Some (LastAccessed si) -> LastAccessed sj = None ->
      less secrets i j = Some true /\ less secrets j i = Some false).
Proof.
  intros Hdated Hi Hj Hk.
  pose proof (proj1 (Forall_lookup _ _) Hdated _ _ Hi) as Di.
  pose proof (proj1 (Forall_lookup _ _) Hdated _ _ Hj) as Dj.
  pose proof (proj1 (Forall_lookup _ _) Hdated _ _ Hk) as Dk.
  rewrite (less_lookup _ _ _ _ _ Hi Hj), (less_lookup _ _ _ _ _ Hi Hi),
    (less_lookup _ _ _ _ _ Hj Hk), (less_lookup _ _ _ _ _ Hi Hk),
    (less_lookup _ _ _ _ _ Hj Hi), (less_lookup _ _ _ _ _ Hk Hj),
    (less_lookup _ _ _ _ _ Hk Hi).
  unfold dated, Before in *.
  destruct (LastAccessed si) as [ti|], (LastAccessed sj) as [tj|],
    (LastAccessed sk) as [tk|];
    destruct Di as [[? Di]|[ci Di]], Dj as [[? Dj]|[cj Dj]],
      Dk as [[? Dk]|[ck Dk]];
    try discriminate; rewrite ?Di, ?Dj, ?Dk; simpl;
    (split; [eauto|]);
    (split; [by rewrite ?Z.ltb_irrefl|]);
    repeat split; intros; simplify_eq/=;
    repeat match goal with
           | Hlt : (_ <? _) = true |- _ => apply Z.ltb_lt in Hlt
           | Hge : (_ <? _) = false |- _ => apply Z.ltb_ge in Hge
           | Hs : is_Some None |- _ => by destruct Hs
           end;
    try done; f_equal; first [apply Z.ltb_lt | apply Z.ltb_ge]; lia.
Qed.

(** X23.  The comparison does not return exactly when neither secret
    was accessed and one of them has no creation date. *)
Theorem less_needs_creation_dates (secrets : list Secret) (i j : nat)
    (si sj : Secret) :
  secrets !! i = Some si -> secrets !! j = Some sj ->
  less secrets i j = None
  <-> LastAccessed si = None /\ LastAccessed sj = None
      /\ (CreatedDate si = None \/ CreatedDate sj = None).
Proof.
  intros Hi Hj. rewrite (less_lookup _ _ _ _ _ Hi Hj).
  destruct (LastAccessed si), (LastAccessed sj), (CreatedDate si),
    (CreatedDate sj); simpl; intuition congruence.
Qed.

End LegacyOrder.

Section LegacyOrderExamples.
Import Ref RefMore RefLegacy Legacy.

Lemma less_strict_weak_order_witness :
  Forall dated three_secrets
  /\ less three_secrets 1 2 = Some true
  /\ less three_secrets 2 0 = Some true
  /\ less three_secrets 1 0 = Some true
  /\ less three_secrets 0 1 = Some false.
Proof.
  assert (Forall dated three_secrets) as Hdated.
  { repeat first [apply Forall_nil_2 | apply Forall_cons_2];
      unfold dated; simpl; first [left; by eexists | right; by eexists]. }
  split; [exact Hdated|].
  destruct (less_strict_weak_order three_secrets 1 2 0 _ _ _ Hdated
              eq_refl eq_refl eq_refl) as (_ & _ & Htrans & _ & _).
  destruct (less_strict_weak_order three_secrets 1 0 0 _ _ _ Hdated
              eq_refl eq_refl eq_refl) as (_ & _ & _ & _ & Hacc).
  split; [reflexivity|]. split; [reflexivity|].
  split; [apply Htrans; reflexivity|].
  apply Hacc; [by eexists|reflexivity].
Defined.

Lemma less_needs_creation_dates_witness :
  less [legacy_secret "a" None None false;
        legacy_secret "b" None (Some 3) false] 0 1 = None.
Proof.
  eapply (less_needs_creation_dates _ 0 1); [reflexivity..|].
  simpl. auto.
Defined.

End LegacyOrderExamples.

Section LegacyProgram.
Import Legacy.
Context `{Bubbles, !TableMoves, TimeFormat, DeleteAPI}.

Lemma length_substring_0 (n : nat) (s : string) :
  (n <= String.length s)%nat ->
  String.length (String.substring 0 n s) = n.
Proof.
  revert n. induction s as [|c s' IH]; intros [|n'] Hn; simpl in *;
    try done; try lia.
  rewrite IH; lia.
Qed.

Lemma substring_append_l (p t : string) :
  String.substring 0 (String.length p) (p +:+ t) = p.
Proof.
  induction p as [|c p' IH]; [by destruct t|].
  change (String c (String.substring 0 (String.length p') (p' +:+ t))
          = String c p').
  by rewrite IH.
Qed.

(** X24.  With a table that keeps the rows it is given, [updateTable]
    shows one row of five cells per secret, in order.  The description
    cell is the description when that has at most 47 bytes; a longer
    one is cut to its first 47 bytes followed by three dots, so that
    the cell never has more than 50 bytes. *)
Theorem updateTable_rows (m : model) (i : nat) (secret : Secret) :
  (forall rows t, table_Rows (table_SetRows rows t) = rows) ->
  secrets m !! i = Some secret ->
  length (table_Rows (table (updateTable m))) = length (secrets m)
  /\ exists description accessed created,
       table_Rows (table (updateTable m)) !! i
       = Some [ (if Selected secret then selected_mark else "[ ]");
                Name secret; description; accessed; created ]
       /\ (String.length description <= 50)%nat
       /\ String.substring 0 47 description
          = String.substring 0 47 (Description secret)
       /\ ((String.length (Description secret) <= 47)%nat ->
           description = Description secret)
       /\ ((47 < String.length (Description secret))%nat ->
           String.length description = 50%nat
           /\ HasSuffix description "..." = true).
Proof.
  intros Hset Hi. unfold updateTable. simpl. rewrite Hset.
  split; [apply length_fmap|].
  rewrite list_lookup_fmap, Hi. simpl. unfold table_row.
  eexists _, _, _. split; [reflexivity|].
  destruct (47 <? String.length (Description secret))%nat eqn:Hlen.
  - apply Nat.ltb_lt in Hlen.
    pose proof (length_substring_0 47 (Description secret) ltac:(lia))
      as Hcut.
    assert (String.length
              (String.substring 0 47 (Description secret) +:+ "...")
            = 50%nat) as Hfifty by (rewrite length_append, Hcut; done).
    split; [lia|]. split.
    + rewrite <- Hcut at 1. apply substring_append_l.
    + split; [lia|]. intros _. split; [done|].
      apply HasSuffix_spec. by eexists.
  - apply Nat.ltb_ge in Hlen. split; [lia|]. split; [done|].
    split; [done|lia].
Qed.

Lemma forced_calls_names (names : list string) (vault : Vault) :
  (forced_calls names vault).1.*1 = names.
Proof.
  revert vault. induction names as [|name names IH]; intros vault; [done|].
  simpl. destruct (api_DeleteSecret name true vault) as [vault' outcome].
  specialize (IH vault').
  destruct (forced_calls names vault') as [calls vault'']. simpl in *.
  by f_equal.
Qed.

Lemma deleteSelected_loop_calls (secrets : list Secret) (vault : Vault)
    (printed deleted : list string) :
  deleteSelected_loop secrets vault printed deleted
  = let calls :=
      forced_calls (Name <$> List.filter Selected secrets) vault in
    (calls.2, printed ++ error_lines calls.1, deleted ++ succeeded calls.1).
Proof.
  revert vault printed deleted.
  induction secrets as [|secret secrets IH]; intros vault printed deleted.
  - simpl. by rewrite !app_nil_r.
  - simpl. destruct (Selected secret); [|apply IH]. simpl.
    destruct (api_DeleteSecret (Name secret) true vault)
      as [vault' [e|]]; rewrite IH; simpl;
      destruct (forced_calls _ vault') as [calls vault'']; simpl;
      unfold error_lines, succeeded; simpl; by rewrite <- app_assoc.
Qed.

Lemma succeeded_sublist (calls : list (string * option string)) :
  succeeded calls `sublist_of` calls.*1.
Proof.
  induction calls as [|[name [e|]] calls IH]; [done|..]; unfold succeeded;
    simpl.
  - by apply sublist_cons.
  - by apply sublist_skip.
Qed.

(** X25.  The delete command of the first version asks for the forced
    deletion of every selected secret, in the order of the list and
    whatever the outcome of the calls before; it prints one line for
    each call that failed and reports as deleted the names of exactly
    the calls that succeeded. *)
Theorem deleteSelected_best_effort (m : model) (vault : Vault) :
  deleteSelected m vault
  = ((forced_calls (Name <$> getSelectedSecrets m) vault).2,
     error_lines (forced_calls (Name <$> getSelectedSecrets m) vault).1,
     deleteCompleteMsg
       (succeeded (forced_calls (Name <$> getSelectedSecrets m) vault).1))
  /\ (forced_calls (Name <$> getSelectedSecrets m) vault).1.*1
     = Name <$> getSelectedSecrets m
  /\ succeeded (forced_calls (Name <$> getSelectedSecrets m) vault).1
     `sublist_of` Name <$> secrets m.
Proof.
  split; [|split].
  - unfold deleteSelected. rewrite deleteSelected_loop_calls. simpl.
    reflexivity.
  - apply forced_calls_names.
  - etrans; [apply succeeded_sublist|]. rewrite forced_calls_names.
    apply fmap_sublist. unfold getSelectedSecrets.
    induction (secrets m) as [|s l IH]; [done|]. simpl.
    destruct (Selected s); [by apply sublist_skip|by apply sublist_cons].
Qed.

Lemma Matches_in (msg : KeyMsg) (binding : list string) :
  Matches msg binding = true <-> key_String msg ∈ binding.
Proof.
  unfold Matches. rewrite existsb_exists. split.
  - intros (v & Hv & ->%streq_eq). by apply list_elem_of_In.
  - intros Hin. exists (key_String msg). split.
    + by apply list_elem_of_In.
    + apply streq_refl.
Qed.

Lemma only_selected_toggled (l : list Secret) (i : nat) (s : Secret) :
  List.filter Selected l = [s] -> l !! i = Some s ->
  List.filter Selected (<[i := set_Selected (negb (Selected s)) s]> l) = [].
Proof.
  intros Hfilter Hi.
  assert (Selected s = true) as Hs.
  { assert (In s (List.filter Selected l)) as Hin
      by (rewrite Hfilter; by left).
    by apply filter_In in Hin as [_ ?]. }
  rewrite Hs. simpl. revert i Hfilter Hi.
  induction l as [|x l IH]; intros i Hfilter Hi; [done|].
  destruct i as [|i]; simpl in *.
  - injection Hi as ->. rewrite Hs in Hfilter. by injection Hfilter as ->.
  - destruct (Selected x) eqn:Hx.
    + injection Hfilter as -> Hnil.
      assert (In s (List.filter Selected l)) as Hin.
      { apply filter_In. split; [|done]. apply list_elem_of_In.
        by eapply list_elem_of_lookup_2. }
      by rewrite Hnil in Hin.
    + by apply IH.
Qed.

(** X26.  The confirmation of the first version is not modal: while it
    is shown, the selection keys still toggle the secret under the
    cursor, and the confirming key then starts the deletion of the
    selection as it is now.  When the secret toggled was the only one
    selected, the command that is started deletes nothing. *)
Theorem legacy_confirmation_not_modal (m : model) (space y : KeyMsg)
    (i : nat) (s : Secret) :
  loading m = false -> confirmed m = true -> deleting m = false ->
  key_String space = " " \/ key_String space = "enter" ->
  key_String y = "y" ->
  table_Cursor (table m) = Z.of_nat i -> secrets m !! i = Some s ->
  exists m',
    Update m (keyMsg space) = Some (m', CmdNil)
    /\ secrets m' = <[i := set_Selected (negb (Selected s)) s]> (secrets m)
    /\ confirmed m' = true
    /\ Update m' (keyMsg y)
       = Some (set_deleting true m', CmdDeleteSelected (set_deleting true m'))
    /\ (getSelectedSecrets m = [s] ->
        forall vault,
          deleteSelected (set_deleting true m') vault
          = (vault, [], deleteCompleteMsg [])).
Proof.
  intros Hload Hconf Hdel Hspace Hy Hcur Hi.
  assert (i < length (secrets m))%nat as Hlt by (by eapply lookup_lt_Some).
  assert (toggle_selected m
          = Some (updateTable
                    (set_secrets
                       (<[i := set_Selected (negb (Selected s)) s]>
                          (secrets m)) m))) as Htoggle.
  { unfold toggle_selected.
    destruct (0 <? length (secrets m))%nat eqn:Hpos;
      [|apply Nat.ltb_ge in Hpos; lia].
    rewrite Hcur, in_bounds_of_nat, bool_decide_eq_true_2 by done.
    by rewrite Nat2Z.id, Hi. }
  eexists. split.
  { unfold Update, update_key. rewrite Hload, Hconf, Hdel. simpl.
    assert ((key_String space == "y") = false) as ->
      by (destruct Hspace as [-> | ->]; done).
    assert ((key_String space == "n") || (key_String space == "q")
            || (key_String space == "ctrl+c") = false) as ->
      by (destruct Hspace as [-> | ->]; done).
    unfold update_bindings.
    assert (Matches space (Quit keys) = false) as ->
      by (unfold Matches; destruct Hspace as [-> | ->]; done).
    assert (Matches space (Select keys) = true) as ->
      by (unfold Matches; destruct Hspace as [-> | ->]; done).
    rewrite Htoggle. reflexivity. }
  split; [done|]. split; [done|]. split.
  { unfold Update, update_key. simpl. rewrite Hload, Hconf, Hdel, Hy.
    reflexivity. }
  intros Honly vault. unfold deleteSelected.
  rewrite deleteSelected_loop_calls. simpl.
  unfold getSelectedSecrets in Honly.
  by rewrite (only_selected_toggled _ _ _ Honly Hi).
Qed.

Lemma busy_key (m : model) (k : KeyMsg) :
  loading m = true \/ deleting m = true ->
  Update m (keyMsg k)
  = Some (m, if (key_String k == "q") || (key_String k == "ctrl+c")
             then CmdQuit else CmdNil).
Proof.
  intros Hbusy. unfold Update, update_key.
  destruct (loading m) eqn:Hload.
  - rewrite orb_comm. by destruct (_ || _).
  - destruct Hbusy as [?|Hdel]; [done|]. rewrite Hdel, andb_false_r.
    simpl. by destruct (_ || _).
Qed.

(** X27.  While the secrets are loaded or a deletion is running, no key
    changes the model of the first version: the quitting keys quit and
    every other key is dropped, so the secrets a running delete command
    reads are those of the model. *)
Theorem legacy_busy_ignores_keys (m : model) (ks : list KeyMsg) :
  loading m = true \/ deleting m = true ->
  run m (keyMsg <$> ks) = Some m
  /\ forall k,
       exists cmd,
         Update m (keyMsg k) = Some (m, cmd)
         /\ (cmd = CmdQuit
             <-> key_String k = "q" \/ key_String k = "ctrl+c")
         /\ (cmd = CmdQuit \/ cmd = CmdNil).
Proof.
  intros Hbusy. split.
  - induction ks as [|k ks IH]; [done|].
    simpl. rewrite (busy_key m k Hbusy). simpl. exact IH.
  - intros k. eexists. split; [apply (busy_key m k Hbusy)|].
    rewrite <- !streq_eq, <- orb_true_iff.
    destruct (_ || _); split; intuition congruence.
Qed.

End LegacyProgram.

Section LegacyExamples.
Import Ref RefMore RefLegacy Legacy.

Lemma updateTable_rows_witness :
  (forall rows t, table_Rows (table_SetRows rows t) = rows)
  /\ secrets legacy_loaded !! 1%nat = Some wordy
  /\ exists description accessed created,
       table_Rows (table (updateTable legacy_loaded)) !! 1%nat
       = Some ["[ ]"; "wordy"; description; accessed; created]
       /\ String.length description = 50%nat
       /\ HasSuffix description "..." = true.
Proof.
  assert (forall rows t, table_Rows (table_SetRows rows t) = rows) as Hset
    by reflexivity.
  split; [exact Hset|]. split; [reflexivity|].
  destruct (updateTable_rows legacy_loaded 1 wordy Hset eq_refl)
    as (_ & description & accessed & created & Hrow & _ & _ & _ & Hlong).
  exists description, accessed, created. split; [exact Hrow|].
  apply Hlong. simpl. lia.
Defined.

Lemma legacy_confirmation_not_modal_witness :
  confirmed legacy_confirming = true
  /\ Name <$> getSelectedSecrets legacy_confirming = ["old"]
  /\ exists m',
       Update legacy_confirming (keyMsg (named " ")) = Some (m', CmdNil)
       /\ confirmed m' = true
       /\ getSelectedSecrets m' = []
       /\ deleteSelected (set_deleting true m') (["x"], [])
          = ((["x"], []), [], deleteCompleteMsg []).
Proof.
  split; [reflexivity|]. split; [reflexivity|].
  destruct (legacy_confirmation_not_modal legacy_confirming (named " ")
              (typed "y") 0 (legacy_secret "old" (Some 1) (Some 0) true))
    as (m' & HU & Hsecrets & Hconf & _ & Hnone);
    [reflexivity| reflexivity | reflexivity | by left | reflexivity
    | reflexivity | reflexivity |].
  exists m'. split; [exact HU|]. split; [exact Hconf|]. split.
  - unfold getSelectedSecrets. rewrite Hsecrets. reflexivity.
  - apply Hnone. reflexivity.
Defined.

Lemma legacy_busy_ignores_keys_witness :
  deleting (set_deleting true legacy_confirming) = true
  /\ run (set_deleting true legacy_confirming)
       (keyMsg <$> [named " "; typed "n"; typed "y"; typed "d"])
     = Some (set_deleting true legacy_confirming).
Proof.
  split; [reflexivity|].
  apply (legacy_busy_ignores_keys (set_deleting true legacy_confirming)
           [named " "; typed "n"; typed "y"; typed "d"]).
  by right.
Defined.

End LegacyExamples.

Section LegacyInvariants.
Import Legacy.
Context `{Bubbles, !TableMoves, TimeFormat, DeleteAPI}.

Lemma toggle_selected_secrets (m m' : model) :
  toggle_selected m = Some m' ->
  table m' = table_SetRows (table_row <$> secrets m') (table m)
  /\ loading m' = loading m /\ confirmed m' = confirmed m
  /\ deleting m' = deleting m /\ deleted m' = deleted m
  /\ Forall2 same_secret (secrets m) (secrets m')
  \/ m' = m.
Proof.
  unfold toggle_selected. destruct (0 <? _)%nat; [|intros [= <-]; by right].
  destruct in_bounds; [|done].
  destruct (secrets m !! _) as [s|] eqn:Hs; [|done]. simpl.
  intros [= <-]. left. simpl. split_and!; try done.
  apply Forall2_same_length_lookup. split; [by rewrite length_insert|].
  intros j a b Ha Hb.
  destruct (decide (j = Z.to_nat (table_Cursor (table m)))) as [->|Hne].
  - rewrite list_lookup_insert_eq in Hb by (by eapply lookup_lt_Some).
    rewrite Hs in Ha. injection Ha as <-. injection Hb as <-. done.
  - rewrite list_lookup_insert_ne in Hb by done.
    rewrite Ha in Hb. injection Hb as <-. done.
Qed.

Lemma same_secret_refl (l : list Secret) : Forall2 same_secret l l.
Proof. apply Forall_Forall2_diag, Forall_forall. by intros s _. Qed.

(** A step of the first version: the table, and the secrets up to the
    selection flags. *)
Lemma legacy_step (m m' : model) (msg : Msg) (cmd : Cmd) :
  Update m msg = Some (m', cmd) ->
  (moves_keep_rows -> shows_secrets m -> shows_secrets m')
  /\ (not_loaded msg -> Forall2 same_secret (secrets m) (secrets m')).
Proof.
  intros HU.
  assert (m' = m -> (moves_keep_rows -> shows_secrets m -> shows_secrets m')
                    /\ (not_loaded msg ->
                        Forall2 same_secret (secrets m) (secrets m')))
    as Hsame by (intros ->; split; [done|intros _; apply same_secret_refl]).
  destruct msg as [k|loaded|names|e|]; unfold Update in HU.
  - unfold update_key in HU.
    destruct (loading m).
    { destruct (_ || _); injection HU as <- <-; by apply Hsame. }
    destruct (confirmed m && negb (deleting m) && (key_String k == "y")).
    { injection HU as <- <-. split; [done|intros _; apply same_secret_refl]. }
    destruct (confirmed m && negb (deleting m) && _).
    { injection HU as <- <-. split; [done|intros _; apply same_secret_refl]. }
    destruct (deleting m).
    { destruct (_ || _); injection HU as <- <-; by apply Hsame. }
    unfold update_bindings in HU.
    destruct (Matches k (Quit keys)); [injection HU as <- <-; by apply Hsame|].
    destruct (Matches k (Select keys)).
    { destruct (toggle_selected m) as [m1|] eqn:Htoggle; [|done].
      simpl in HU. injection HU as <- <-.
      apply toggle_selected_secrets in Htoggle
        as [(Htable & _ & _ & _ & _ & Hsecrets) | ->]; [|by apply Hsame].
      split; [|done]. intros (Hset & _) _. unfold shows_secrets.
      by rewrite Htable, Hset. }
    destruct (Matches k (Delete keys)).
    { destruct (0 <? _)%nat; injection HU as <- <-;
        (split; [done|intros _; apply same_secret_refl]). }
    destruct (Matches k (Up keys)).
    { injection HU as <- <-. split; [|intros _; apply same_secret_refl].
      intros (_ & Hup & _) Hm. unfold shows_secrets in *. simpl.
      by rewrite Hup. }
    destruct (Matches k (Down keys)); injection HU as <- <-;
      [|by apply Hsame].
    split; [|intros _; apply same_secret_refl].
    intros (_ & _ & Hdown) Hm. unfold shows_secrets in *. simpl.
    by rewrite Hdown.
  - injection HU as <- <-. split; [|done].
    intros (Hset & _) _. unfold shows_secrets, setupTable, updateTable.
    simpl. by rewrite Hset.
  - injection HU as <- <-. split; [done|intros _; apply same_secret_refl].
  - injection HU as <- <-. split; [done|intros _; apply same_secret_refl].
  - injection HU as <- <-. by apply Hsame.
Qed.

(** X28.  With a table that keeps the rows it is given and leaves them
    when the cursor moves, the table of the first version shows, in
    every model the program runs through, one row per secret of the
    model, with the selection mark of that secret. *)
Theorem legacy_table_shows_secrets (zero : Table) (msgs : list Msg)
    (m : model) (i : nat) (secret : Secret) :
  moves_keep_rows -> table_Rows zero = [] ->
  run (initialModel zero) msgs = Some m ->
  secrets m !! i = Some secret ->
  length (table_Rows (table m)) = length (secrets m)
  /\ table_Rows (table m) !! i = Some (table_row secret)
  /\ head (table_row secret)
     = Some (if Selected secret then selected_mark else "[ ]").
Proof.
  intros Hlaws Hzero Hrun Hi.
  assert (shows_secrets m) as Hshown.
  { assert (shows_secrets (initialModel zero)) as Hinit by exact Hzero.
    revert Hinit Hrun. generalize (initialModel zero) as m0.
    induction msgs as [|msg msgs IH]; intros m0 Hm0 Hrun.
    - by injection Hrun as <-.
    - simpl in Hrun.
      destruct (Update m0 msg) as [[m1 cmd]|] eqn:HU; [|done].
      simpl in Hrun. apply (IH m1); [|done].
      by apply (legacy_step _ _ _ _ HU). }
  unfold shows_secrets in Hshown. rewrite Hshown.
  split; [apply length_fmap|]. split; [|done].
  by rewrite list_lookup_fmap, Hi.
Qed.

(** X29.  The first version never takes a secret off its list: once
    the secrets are loaded, whatever keys are pressed and whatever a
    delete reports, the model lists the same secrets in the same order,
    those reported as deleted included; only selection flags change. *)
Theorem legacy_list_is_kept (m m' : model) (msgs : list Msg) :
  Forall not_loaded msgs ->
  run m msgs = Some m' ->
  Forall2 same_secret (secrets m) (secrets m')
  /\ Name <$> secrets m' = Name <$> secrets m.
Proof.
  intros Hmsgs Hrun.
  assert (Forall2 same_secret (secrets m) (secrets m')) as Hsame.
  { revert m Hmsgs Hrun. induction msgs as [|msg msgs IH]; intros m Hmsgs Hrun.
    - injection Hrun as <-. apply same_secret_refl.
    - apply Forall_cons in Hmsgs as [Hmsg Hmsgs]. simpl in Hrun.
      destruct (Update m msg) as [[m1 cmd]|] eqn:HU; [|done].
      simpl in Hrun. specialize (IH m1 Hmsgs Hrun).
      pose proof (proj2 (legacy_step _ _ _ _ HU) Hmsg) as Hstep.
      clear -Hstep IH. revert IH. generalize (secrets m').
      induction Hstep as [|a b l1 l2 Hab _ IHl]; intros l3 H23;
        inversion H23 as [|b' c l2' l3' Hbc H23']; subst; constructor.
      + destruct Hab as (? & ? & ? & ?), Hbc as (? & ? & ? & ?).
        unfold same_secret. split_and!; congruence.
      + by apply IHl. }
  split; [done|].
  induction Hsame as [|a b l1 l2 Hab _ IH]; [done|].
  rewrite !fmap_cons. destruct Hab as [-> _]. by f_equal.
Qed.

End LegacyInvariants.

Section LegacyInvariantsExamples.
Import Ref RefMore RefLegacy Legacy.

Lemma legacy_table_shows_secrets_witness :
  moves_keep_rows
  /\ run (initialModel table_New)
       [secretsLoadedMsg [legacy_secret "old" (Some 1) (Some 0) false; wordy];
        keyMsg (named " "); keyMsg (typed "d")] = Some legacy_confirming
  /\ table_Rows (table legacy_confirming) !! 0%nat
     = Some [selected_mark; "old"; ""; "(date)"; "(date)"].
Proof.
  assert (moves_keep_rows) as Hlaws by (split_and!; reflexivity).
  assert (run (initialModel table_New)
            [secretsLoadedMsg
               [legacy_secret "old" (Some 1) (Some 0) false; wordy];
             keyMsg (named " "); keyMsg (typed "d")]
          = Some legacy_confirming) as Hrun by (vm_compute; reflexivity).
  split; [exact Hlaws|]. split; [exact Hrun|].
  destruct (legacy_table_shows_secrets table_New _ legacy_confirming 0
              (legacy_secret "old" (Some 1) (Some 0) true)
              Hlaws eq_refl Hrun eq_refl) as (_ & Hrow & _).
  exact Hrow.
Defined.

Lemma legacy_list_is_kept_witness :
  Forall not_loaded
    [keyMsg (typed "y"); deleteCompleteMsg ["old"]; keyMsg (named "down")]
  /\ exists m',
       run legacy_confirming
         [keyMsg (typed "y"); deleteCompleteMsg ["old"];
          keyMsg (named "down")] = Some m'
       /\ deleted m' = ["old"]
       /\ Name <$> secrets m' = ["old"; "wordy"].
Proof.
  assert (Forall not_loaded
            [keyMsg (typed "y"); deleteCompleteMsg ["old"];
             keyMsg (named "down")]) as Hmsgs by (repeat constructor).
  split; [exact Hmsgs|].
  destruct (run legacy_confirming
              [keyMsg (typed "y"); deleteCompleteMsg ["old"];
               keyMsg (named "down")]) as [m'|] eqn:Hrun;
    [|vm_compute in Hrun; discriminate].
  exists m'. split; [reflexivity|].
  destruct (legacy_list_is_kept legacy_confirming m' _ Hmsgs Hrun)
    as [_ Hnames].
  split; [|exact Hnames].
  vm_compute in Hrun. injection Hrun as <-. reflexivity.
Defined.

End LegacyInvariantsExamples.

(** ** The mask a running delete command reads *)

Section SharedMask.
Context `{Unicode, Bubbles, Host, SecretsClient}.







End SharedMask.

Section SharedMaskExamples.
Import Ref RefMore.


End SharedMaskExamples.
